(** * Rice Shop POS: a shallow embedding of the analytics, permission,
      cache, transaction, error-handling and sign-in code.

    Conventions of the embedding.
    - A JavaScript [number] that holds money or an amount sold (a price, a
      quantity, a total, a revenue) is an IEEE 754 double, a [float] of the
      prover, with the rounding, the signed zeros and the NaN of the
      language. A [number] that holds a stock count, a rank, a limit or a
      clock reading is an integer of [Z]; clock readings are milliseconds.
    - A JavaScript object written [{}] and used as a string-keyed table
      ([{ [key: string]: number }]) is an insertion-ordered association list
      of its own properties, with unique keys; a read of a key that is not an
      own property finds what [Object.prototype] has under that key, if
      anything. [Object.entries] lists the own properties: array-index keys
      first, in ascending numeric order, and then the other keys in
      insertion order.
    - The [Map] of the cache module is a [gmap].
    - Calls to the hosted services (auth, document database, clock) take
      their outcome from an explicit environment argument. An [async]
      function is run to completion. *)

From Stdlib Require Import ZArith Ascii String List Permutation Sorted Lia Floats.
From stdpp Require Import base option list gmap strings pretty sorting.

Local Open Scope string_scope.
Local Open Scope list_scope.
Local Open Scope Z_scope.

(** Decimal constants such as [19.99] stand for the nearest double, as they
    do in JavaScript. *)
#[local] Set Warnings "-inexact-float".

(** ** JavaScript values *)

(** What a property of one of the aggregator's tables can hold or be found
    to be: a number, a string or an object. The only objects that occur are
    the properties that [{}] inherits from [Object.prototype] (functions,
    and the prototype itself under [__proto__]), and the only strings are
    those made by adding a number to such an object or to such a string: a
    string of this kind starts with the text of a function or with
    ['[object Object]'], so it is not empty and it is not a numeric literal.
    The characters of these strings are not modelled. *)
Inductive JSValue :=
| Num (x : float)
| Text
| Builtin.

(** ** JavaScript helpers *)

Module JS.

(** [Array.prototype.sort(cmp)]: a stable sort; [x] goes before [y] when
    [cmp x y <= 0] and [x] came first. *)
Fixpoint sort_insert {A : Type} (cmp : A -> A -> Z) (x : A) (l : list A) : list A :=
  match l with
  | [] => [x]
  | y :: l' => if cmp x y <=? 0 then x :: y :: l' else y :: sort_insert cmp x l'
  end.

Fixpoint sort {A : Type} (cmp : A -> A -> Z) (l : list A) : list A :=
  match l with
  | [] => []
  | x :: l' => sort_insert cmp x (sort cmp l')
  end.

(** [Array.prototype.slice(0, n)]. *)
Definition slice0 {A : Type} (n : nat) (l : list A) : list A := firstn n l.

(** [String.prototype.includes]. *)
Fixpoint includes (s sub : string) : bool :=
  match s with
  | EmptyString => String.prefix sub EmptyString
  | String _ s' => String.prefix sub s || includes s' sub
  end.

(** [a >= b] on values that may be [undefined]: a comparison with
    [undefined] (which converts to NaN) is false. *)
Definition ge_undef (a b : option Z) : bool :=
  match a, b with
  | Some x, Some y => y <=? x
  | _, _ => false
  end.

(** [String(n)] and template-literal conversion of a number; [None] is NaN. *)
Definition to_string (n : option Z) : string :=
  match n with
  | Some z => pretty z
  | None => "NaN"
  end.

Fixpoint repeat_char (n : nat) (c : ascii) : string :=
  match n with
  | O => EmptyString
  | S n' => String c (repeat_char n' c)
  end.

(** [String.prototype.padStart(targetLength, c)] for a one-character pad. *)
Definition padStart (targetLength : nat) (c : ascii) (s : string) : string :=
  repeat_char (targetLength - String.length s) c +:+ s.

(** [ToBoolean] of a number: [+0], [-0] and [NaN] are falsy. *)
Definition falsy (x : float) : bool := PrimFloat.is_zero x || PrimFloat.is_nan x.

(** [v || 0] on a property value that may be [undefined]; objects and
    strings that are not empty are truthy. *)
Definition or0 (v : option JSValue) : JSValue :=
  match v with
  | Some (Num x) => if falsy x then Num 0 else Num x
  | Some Text => Text
  | Some Builtin => Builtin
  | None => Num 0
  end.

(** [a + x] for a number [x]: the sum of two numbers, or, when [a] is a
    string or an object, the string that joins [a] and [x]. *)
Definition plus (a : JSValue) (x : float) : JSValue :=
  match a with
  | Num y => Num (y + x)%float
  | Text | Builtin => Text
  end.

(** [a - b]: both sides are converted to numbers; the strings and objects
    that occur convert to [NaN]. *)
Definition minus (a b : JSValue) : float :=
  match a, b with
  | Num x, Num y => (x - y)%float
  | _, _ => nan
  end.

(** What [sort] makes of the number that its comparison function returns:
    [NaN] counts as [+0], and only the sign is used. *)
Definition compareResult (v : float) : Z :=
  if (0 <? v)%float then 1 else if (v <? 0)%float then -1 else 0.

End JS.

(** ** Objects used as tables from strings to numbers *)

Module Obj.

(** The names of the properties of [Object.prototype], which an object
    written [{}] inherits. All of them are functions, except [__proto__],
    which is an accessor that reads as the prototype object. *)
Definition prototypeKeys : list string :=
  [ "constructor"; "__defineGetter__"; "__defineSetter__"; "hasOwnProperty";
    "__lookupGetter__"; "__lookupSetter__"; "isPrototypeOf";
    "propertyIsEnumerable"; "toString"; "valueOf"; "__proto__";
    "toLocaleString" ].

Definition inherited (k : string) : bool :=
  existsb (String.eqb k) prototypeKeys.

(** The own property [k] of the object, if it has one. *)
Fixpoint own (o : list (string * JSValue)) (k : string) : option JSValue :=
  match o with
  | [] => None
  | (k', v) :: o' => if String.eqb k' k then Some v else own o' k
  end.

(** [o[k]]: the own property, or else the property that [Object.prototype]
    has under this name, or else [undefined]. *)
Definition get (o : list (string * JSValue)) (k : string) : option JSValue :=
  match own o k with
  | Some v => Some v
  | None => if inherited k then Some Builtin else None
  end.

(** Writing the own property [k]: an existing key keeps its place, a new
    key goes last. *)
Fixpoint set (o : list (string * JSValue)) (k : string) (v : JSValue)
  : list (string * JSValue) :=
  match o with
  | [] => [(k, v)]
  | (k', v') :: o' =>
      if String.eqb k' k then (k', v) :: o' else (k', v') :: set o' k v
  end.

(** [o[k] = v] for a number or a string [v]. Under [__proto__] the
    assignment reaches the setter of [Object.prototype], which ignores a
    value that is neither an object nor [null]: no own property is made.
    Under any other key the own property is written. *)
Definition assign (o : list (string * JSValue)) (k : string) (v : JSValue)
  : list (string * JSValue) :=
  if String.eqb k "__proto__" then o else set o k v.

(** [o[k] = (o[k] || 0) + x] *)
Definition add (o : list (string * JSValue)) (k : string) (x : float)
  : list (string * JSValue) :=
  assign o k (JS.plus (JS.or0 (get o k)) x).

Fixpoint parse_digits (s : string) (acc : N) : option N :=
  match s with
  | EmptyString => Some acc
  | String c s' =>
      match Ascii.is_nat c with
      | Some d => parse_digits s' (acc * 10 + N.of_nat d)%N
      | None => None
      end
  end.

(** A key is an array index when it is the canonical decimal form of an
    integer below 2^32 - 1. *)
Definition array_index (k : string) : option N :=
  match parse_digits k 0%N with
  | Some n =>
      if String.eqb (pretty n) k && (n <? 4294967295)%N then Some n else None
  | None => None
  end.

Definition is_index (kv : string * JSValue) : bool :=
  match array_index kv.1 with Some _ => true | None => false end.

Definition index_of (kv : string * JSValue) : Z :=
  match array_index kv.1 with Some n => Z.of_N n | None => 0 end.

(** [Object.entries(o)] *)
Definition entries (o : list (string * JSValue)) : list (string * JSValue) :=
  JS.sort (fun a b => index_of a - index_of b) (List.filter is_index o)
  ++ List.filter (fun kv => negb (is_index kv)) o.

End Obj.

(** ** Data model (the interfaces of the Firestore services) *)

Inductive Role := admin | manager | cashier.

Definition role_name (r : Role) : string :=
  match r with
  | admin => "admin"
  | manager => "manager"
  | cashier => "cashier"
  end.

Inductive UserStatus := active | inactive | suspended.

#[global] Instance UserStatus_eq_dec : EqDecision UserStatus.
Proof. solve_decision. Defined.

Inductive TransactionStatus := completed | cancelled | refunded.

Inductive PaymentMethod := cash | card | digital.

Record User := {
  user_id : string;
  user_name : string;
  user_email : string;
  user_role : string;
  user_status : UserStatus
}.

Record Product := {
  product_id : string;
  product_name : string;
  product_unit : string;
  product_price : float;
  product_stock : Z
}.

Record TransactionItem := {
  item_productId : string;
  item_name : string;
  item_quantity : float;
  item_price : float;
  item_unit : string
}.

Record Transaction := {
  tx_id : string;
  cashierId : string;
  cashierName : string;
  items : list TransactionItem;
  total : float;
  paymentMethod : PaymentMethod;
  timestamp : string;
  status : TransactionStatus
}.

(** ** The global application state of the script variant *)

Record AppState := {
  app_user : option string;          (* the signed-in user's id *)
  app_userProfile : option User;
  app_accessToken : option string
}.

(** ** Utils *)

Module Utils.

Definition roleHierarchy (r : string) : option Z :=
  if String.eqb r "admin" then Some 3
  else if String.eqb r "manager" then Some 2
  else if String.eqb r "cashier" then Some 1
  else None.

(** [window.AppState.userProfile?.role] *)
Definition currentRole (st : AppState) : option string :=
  user_role <$> app_userProfile st.

Definition hasPermission (st : AppState) (requiredRole : string) : bool :=
  match currentRole st with
  | None => false
  | Some userRole =>
      if String.eqb userRole "" then false
      else JS.ge_undef (roleHierarchy userRole) (roleHierarchy requiredRole)
  end.

Definition getStockStatus (stock : Z) : string :=
  if stock =? 0 then "out-of-stock"
  else if stock <=? 10 then "low-stock"
  else "in-stock".

End Utils.

(** The ordinal ranking of the glossary. *)
Definition rank (r : Role) : Z :=
  match r with
  | admin => 3
  | manager => 2
  | cashier => 1
  end.

(** ** Low-stock flagging in the component variant *)

(** The product card of ProductManagement shows the warning icon when
    [product.stock <= 10]. *)
Definition lowStockWarning (p : Product) : bool := product_stock p <=? 10.

(** [useLowStockProducts(threshold = 10)]: the query
    [where('stock', '<=', threshold), orderBy('stock', 'asc')]. *)
Definition useLowStockProducts_threshold (threshold : option Z) : Z :=
  default 10 threshold.

Definition useLowStockProducts (threshold : option Z) (products : list Product)
  : list Product :=
  JS.sort (fun a b => product_stock a - product_stock b)
    (List.filter (fun p => product_stock p <=? useLowStockProducts_threshold threshold)
       products).

(** ** DataCache: the time-expiring lookup of the script variant *)

Module DataCache.
Section Cache.

(** The type of the cached responses. *)
Context {V : Type}.

Record Entry := { data : V; expiry : Z }.

(** [set(key, data, expiryMinutes = 5)], called when the clock reads [now]. *)
Definition set (now : Z) (key : string) (d : V) (expiryMinutes : option Z)
    (cache : gmap string Entry) : gmap string Entry :=
  let expiry := now + default 5 expiryMinutes * 60 * 1000 in
  <[key := {| data := d; expiry := expiry |}]> cache.

(** [get(key)]: the result ([None] is [null]) and the cache afterwards. *)
Definition get (now : Z) (key : string) (cache : gmap string Entry)
  : option V * gmap string Entry :=
  match cache !! key with
  | None => (None, cache)
  | Some cached =>
      if expiry cached <? now then (None, delete key cache)
      else (Some (data cached), cache)
  end.

(** [clear(key)]: a missing or empty key empties the whole cache. *)
Definition clear (key : option string) (cache : gmap string Entry)
  : gmap string Entry :=
  match key with
  | Some k => if String.eqb k "" then ∅ else delete k cache
  | None => ∅
  end.

(** [cleanup()]: drops every entry whose expiry lies before [now]. *)
Definition cleanup (now : Z) (cache : gmap string Entry) : gmap string Entry :=
  filter (λ kv, ¬ (expiry kv.2 < now)) cache.

(** The calls a client of the module can make. *)
Inductive Op :=
| OpSet (key : string) (d : V) (expiryMinutes : option Z)
| OpGet (key : string)
| OpClear (key : option string)
| OpCleanup.

Definition step (now : Z) (op : Op) (cache : gmap string Entry)
  : gmap string Entry :=
  match op with
  | OpSet key d m => set now key d m cache
  | OpGet key => (get now key cache).2
  | OpClear key => clear key cache
  | OpCleanup => cleanup now cache
  end.

(** A history of calls, each with the clock reading at which it runs. *)
Definition run (ops : list (Z * Op)) (cache : gmap string Entry)
  : gmap string Entry :=
  foldl (λ c top, step top.1 top.2 c) cache ops.

Definition sets_key (key : string) (op : Op) : bool :=
  match op with
  | OpSet k _ _ => String.eqb k key
  | _ => false
  end.

Definition clears_key (key : string) (op : Op) : bool :=
  match op with
  | OpClear (Some k) => String.eqb k "" || String.eqb k key
  | OpClear None => true
  | _ => false
  end.

End Cache.
Arguments Entry : clear implicits.
Arguments Op : clear implicits.
End DataCache.

(** ** Errors *)

(** A thrown JavaScript value: [code] and [message] may be absent. *)
Record JSError := {
  err_code : option string;
  err_message : option string
}.

Definition mkError (msg : string) : JSError :=
  {| err_code := None; err_message := Some msg |}.

Inductive Result (A : Type) :=
| Returns (a : A)
| Throws (e : JSError).
Arguments Returns {A} a.
Arguments Throws {A} e.

(** [x || fallback] on a string that may be absent: the empty string is
    falsy too. *)
Definition or_string (x : option string) (fallback : string) : string :=
  match x with
  | Some s => if String.eqb s "" then fallback else s
  | None => fallback
  end.

(** ** The Firestore services of the component variant *)

(** What is written for a transaction: the document without its id. *)
Record TransactionDoc := {
  doc_cashierId : string;
  doc_cashierName : string;
  doc_items : list TransactionItem;
  doc_total : float;
  doc_paymentMethod : PaymentMethod;
  doc_timestamp : string;
  doc_status : TransactionStatus
}.

(** [Omit<Transaction, 'id' | 'timestamp'>]: the caller supplies a status. *)
Record TransactionData := {
  data_cashierId : string;
  data_cashierName : string;
  data_items : list TransactionItem;
  data_total : float;
  data_paymentMethod : PaymentMethod;
  data_status : TransactionStatus
}.

(** The three collections of the document database. *)
Record Firestore := {
  users : gmap string User;
  products : gmap string Product;
  transactions : gmap string TransactionDoc
}.

(** The outcome of the calls [create] makes to the hosted services. *)
Record CreateEnv := {
  currentUser : option string;           (* auth.currentUser *)
  now_iso : string;                      (* Timestamp.now().toDate().toISOString() *)
  addDoc_outcome : string + JSError      (* the new document id, or a rejection *)
}.

(** [handleFirestoreError] always throws; this is the error it throws. *)
Definition handleFirestoreError (error : JSError) (context : string) : JSError :=
  if decide (err_code error = Some "permission-denied") then
    mkError "Permission denied. Please check your access rights."
  else if decide (err_code error = Some "not-found") then
    mkError "Resource not found."
  else if decide (err_code error = Some "already-exists") then
    mkError "Resource already exists."
  else
    mkError ("Database error: " +:+ or_string (err_message error) "Unknown error").

Module TransactionsService.

(** [addDoc(collection, doc)] *)
Definition addDoc (env : CreateEnv) (d : TransactionDoc) (db : Firestore)
  : Firestore * Result string :=
  match addDoc_outcome env with
  | inl id =>
      ({| users := users db; products := products db;
          transactions := <[id := d]> (transactions db) |}, Returns id)
  | inr e => (db, Throws e)
  end.

Definition create (env : CreateEnv) (transactionData : TransactionData)
    (db : Firestore) : Firestore * Result string :=
  match currentUser env with
  | None =>
      (db, Throws (handleFirestoreError (mkError "User not authenticated")
                     "createTransaction"))
  | Some _ =>
      (* { ...transactionData, timestamp: ..., status: 'completed' }: the
         keys written last win over the ones spread from the argument. *)
      let d := {| doc_cashierId := data_cashierId transactionData;
                  doc_cashierName := data_cashierName transactionData;
                  doc_items := data_items transactionData;
                  doc_total := data_total transactionData;
                  doc_paymentMethod := data_paymentMethod transactionData;
                  doc_timestamp := now_iso env;
                  doc_status := completed |} in
      match addDoc env d db with
      | (db', Returns id) => (db', Returns id)
      | (db', Throws e) => (db', Throws (handleFirestoreError e "createTransaction"))
      end
  end.

End TransactionsService.

(** ** Auth and ErrorHandler of the script variant *)

(** What the page does that a user or the backend can observe. *)
Inductive Effect :=
| ConsoleError (context : string)
| SupabaseSignOut
| ShowLoginPage
| HideError
| ShowSuccess (message : string)
| ShowError (message : string)
| ApiRequest (endpoint : string).

Module Auth.

(** [showLoginPage] shows the login view, resets the form and hides the
    error box. *)
Definition showLoginPage : list Effect := [ShowLoginPage; HideError].

(** [handleLogout]; [signOut_resolves] tells whether the awaited
    [supabase.auth.signOut()] resolves or rejects. *)
Definition handleLogout (signOut_resolves : bool) (st : AppState)
  : AppState * list Effect :=
  if signOut_resolves then
    ({| app_user := None; app_userProfile := None; app_accessToken := None |},
     [SupabaseSignOut] ++ showLoginPage ++ [ShowSuccess "Logged out successfully"])
  else
    (st, [SupabaseSignOut; ConsoleError "Logout error:"]).

End Auth.

Module ErrorHandler.

(** The message chosen by the chain of [if]s that follows the 401 test. *)
Definition pick_message (m : string) : string :=
  let message := if String.eqb m "" then "An unexpected error occurred" else m in
  let message := if JS.includes m "403"
                 then "Access denied. Insufficient permissions." else message in
  let message := if JS.includes m "404" then "Resource not found." else message in
  let message := if JS.includes m "500"
                 then "Server error. Please try again later." else message in
  message.

Definition is_unauthorized (m : string) : bool :=
  JS.includes m "Unauthorized" || JS.includes m "401".

(** [handle(error, context = '')]. Reading [.includes] of a missing
    message throws a TypeError. *)
Definition handle (signOut_resolves : bool) (error : JSError) (context : string)
    (st : AppState) : AppState * list Effect * Result unit :=
  let log := [ConsoleError (context +:+ " error:")] in
  match err_message error with
  | None =>
      (st, log,
       Throws (mkError "Cannot read properties of undefined (reading 'includes')"))
  | Some m =>
      if is_unauthorized m then
        let '(st', effects) := Auth.handleLogout signOut_resolves st in
        (st', log ++ effects, Returns tt)
      else
        (st, log ++ [ShowError (pick_message m)], Returns tt)
  end.

End ErrorHandler.

(** ** Sign-in of the component variant *)

(** The outcome of the calls a sign-in makes to the hosted services. *)
Inductive DocRead :=
| DocFound (profile : User)
| DocMissing
| DocFails (e : JSError).

Record SignInEnv := {
  signInWithEmailAndPassword : string -> string -> string + JSError;
  getDoc_users : string -> DocRead;      (* getDoc(doc(db, 'users', uid)) *)
  signOut_outcome : option JSError;      (* None: signOut(auth) resolves *)
  now_lastActive : string
}.

(** The session kept by the auth service and the profile held by the
    provider component. *)
Record Session := {
  auth_currentUser : option string;
  held_profile : option User
}.

(** A user profile as [AuthService] returns it. *)
Record Profile := {
  profile_user : User;
  profile_lastActive : string
}.

Module AuthProvider.

(** The value [signIn] resolves to: [{ user }] or [{ error }]. *)
Inductive SignInValue :=
| SignedIn (uid : string)
| SignInError (message : string).

Definition error_message (e : JSError) : string :=
  if decide (err_code e = Some "auth/invalid-email") then "Invalid email address"
  else if decide (err_code e = Some "auth/user-disabled") then "Your account has been disabled"
  else if decide (err_code e = Some "auth/user-not-found") then "No account found with this email"
  else if decide (err_code e = Some "auth/wrong-password") then "Incorrect password"
  else if decide (err_code e = Some "auth/invalid-credential") then "Invalid email or password"
  else if decide (err_code e = Some "auth/too-many-requests")
       then "Too many failed attempts. Please try again later"
  else or_string (err_message e) "Sign in failed".

(** [await firebaseSignOut(auth)] followed by [return { error: msg }]; a
    rejected sign-out lands in the [catch] of [signIn]. *)
Definition signOut_then_error (env : SignInEnv) (msg : string) (s : Session)
  : Session * SignInValue :=
  match signOut_outcome env with
  | None => ({| auth_currentUser := None; held_profile := held_profile s |},
             SignInError msg)
  | Some e => (s, SignInError (error_message e))
  end.

Definition signIn (env : SignInEnv) (email password : string) (s : Session)
  : Session * SignInValue :=
  match signInWithEmailAndPassword env email password with
  | inr e => (s, SignInError (error_message e))
  | inl uid =>
      let s1 := {| auth_currentUser := Some uid; held_profile := held_profile s |} in
      match getDoc_users env uid with
      | DocFails e => (s1, SignInError (error_message e))
      | DocFound profileData =>
          let s2 := {| auth_currentUser := Some uid;
                       held_profile := Some profileData |} in
          if decide (user_status profileData = active) then (s2, SignedIn uid)
          else signOut_then_error env
                 "Your account is inactive. Please contact an administrator." s2
      | DocMissing =>
          signOut_then_error env
            "User profile not found. Please contact an administrator." s1
      end
  end.

End AuthProvider.

(** [AuthService.handleAuthError] always throws; this is the error it
    throws. *)
Definition AuthService_handleAuthError (error : JSError) (context : string) : JSError :=
  let code := err_code error in
  mkError
    (if decide (code = Some "auth/email-already-in-use")
     then "An account with this email already exists"
     else if decide (code = Some "auth/invalid-email") then "Invalid email address"
     else if decide (code = Some "auth/operation-not-allowed")
     then "Email/password accounts are not enabled"
     else if decide (code = Some "auth/weak-password")
     then "Password should be at least 6 characters"
     else if decide (code = Some "auth/user-disabled")
     then "Your account has been disabled"
     else if decide (code = Some "auth/user-not-found")
     then "No account found with this email"
     else if decide (code = Some "auth/wrong-password") then "Incorrect password"
     else if decide (code = Some "auth/invalid-credential")
     then "Invalid email or password"
     else if decide (code = Some "auth/too-many-requests")
     then "Too many failed attempts. Please try again later"
     else if decide (code = Some "auth/network-request-failed")
     then "Network error. Please check your connection"
     else if decide (code = Some "auth/requires-recent-login")
     then "Please sign in again to perform this action"
     else or_string (err_message error) "Authentication failed").

Module AuthService.

(** [getUserProfile]: a failed read is logged and reported as [null]. *)
Definition getUserProfile (env : SignInEnv) (uid : string) : option User :=
  match getDoc_users env uid with
  | DocFound p => Some p
  | DocMissing => None
  | DocFails _ => None
  end.

(** [signIn]; whatever is thrown inside the [try], by the hosted calls or
    by the function itself, is caught and handed to [handleAuthError], and
    the error that [handleAuthError] throws is the one that leaves [signIn].
    [updateLastActive] swallows its own failures and only touches the
    [lastActive] field of the stored profile. *)
Definition signIn (env : SignInEnv) (email password : string) (s : Session)
  : Session * Result (string * Profile) :=
  match signInWithEmailAndPassword env email password with
  | inr e => (s, Throws (AuthService_handleAuthError e "signIn"))
  | inl uid =>
      let s1 := {| auth_currentUser := Some uid; held_profile := held_profile s |} in
      match getUserProfile env uid with
      | None =>
          (s1, Throws (AuthService_handleAuthError
                         (mkError "User profile not found") "signIn"))
      | Some profile =>
          if decide (user_status profile = active) then
            (s1, Returns (uid, {| profile_user := profile;
                                  profile_lastActive := now_lastActive env |}))
          else
            match signOut_outcome env with
            | None =>
                ({| auth_currentUser := None; held_profile := held_profile s |},
                 Throws (AuthService_handleAuthError
                           (mkError
                              "Your account is inactive. Please contact an administrator.")
                           "signIn"))
            | Some e => (s1, Throws (AuthService_handleAuthError e "signIn"))
            end
      end
  end.

End AuthService.

(** ** Dates *)

Inductive Month :=
| Jan | Feb | Mar | Apr | May | Jun | Jul | Aug | Sep | Oct | Nov | Dec.

Definition month_index (m : Month) : Z :=
  match m with
  | Jan => 0 | Feb => 1 | Mar => 2 | Apr => 3 | May => 4 | Jun => 5
  | Jul => 6 | Aug => 7 | Sep => 8 | Oct => 9 | Nov => 10 | Dec => 11
  end.

(** What the aggregator reads of a [Date]: the calendar month of the
    instant in local time, or nothing for an invalid date. *)
Inductive JSDate :=
| InvalidDate
| LocalDate (year : Z) (month : Month).

#[global] Instance Month_eq_dec : EqDecision Month.
Proof. solve_decision. Defined.

#[global] Instance JSDate_eq_dec : EqDecision JSDate.
Proof. solve_decision. Defined.

Definition getFullYear (d : JSDate) : option Z :=
  match d with
  | InvalidDate => None
  | LocalDate y _ => Some y
  end.

Definition getMonth (d : JSDate) : option Z :=
  match d with
  | InvalidDate => None
  | LocalDate _ m => Some (month_index m)
  end.

(** The template literal
    [`${date.getFullYear()}-${String(date.getMonth() + 1).padStart(2, '0')}`]. *)
Definition monthKey (date : JSDate) : string :=
  JS.to_string (getFullYear date) +:+ "-" +:+
  JS.padStart 2 "0" (JS.to_string ((λ m, m + 1) <$> getMonth date)).

(** The part of a month key that follows the year. *)
Definition monthSuffix (m : Month) : string :=
  String "-" (JS.padStart 2 "0" (pretty (month_index m + 1))).

(** ** The sales aggregator *)

Record MonthSales := { month : string; month_sales : JSValue }.

Record NameSales := { name : string; sales : JSValue }.

Record Analytics := {
  totalSales : float;
  totalTransactions : nat;
  totalProducts : nat;
  totalUsers : nat;
  salesByMonth : list MonthSales;
  topProducts : list NameSales;
  recentTransactions : list Transaction
}.

Definition mkMonthSales (e : string * JSValue) : MonthSales :=
  {| month := e.1; month_sales := e.2 |}.

Definition mkNameSales (e : string * JSValue) : NameSales :=
  {| name := e.1; sales := e.2 |}.

(** The comparison function [(a, b) => b.sales - a.sales], as [sort] reads
    its result. *)
Definition bySalesDescending (a b : NameSales) : Z :=
  JS.compareResult (JS.minus (sales b) (sales a)).

Section Aggregator.

(** [new Date(timestamp)] in the time zone of the machine, and the
    collation behind [localeCompare]. *)
Variable newDate : string -> JSDate.
Variable localeCompare : string -> string -> Z.

(** The first [forEach] of both variants. *)
Definition accumulateSalesByMonth (transactions : list Transaction)
  : list (string * JSValue) :=
  fold_left (fun salesByMonth transaction =>
               let date := newDate (timestamp transaction) in
               Obj.add salesByMonth (monthKey date) (total transaction))
            transactions [].

(** The nested [forEach] of both variants. *)
Definition accumulateProductSales (transactions : list Transaction)
  : list (string * JSValue) :=
  fold_left (fun productSales transaction =>
               fold_left (fun productSales item =>
                            Obj.add productSales (item_name item)
                                    (item_quantity item * item_price item)%float)
                         (items transaction) productSales)
            transactions [].

(** [AnalyticsService.calculateSalesByMonth] *)
Definition calculateSalesByMonth (transactions : list Transaction)
  : list MonthSales :=
  JS.sort (fun a b => localeCompare (month a) (month b))
          (map mkMonthSales (Obj.entries (accumulateSalesByMonth transactions))).

(** [AnalyticsService.calculateTopProducts] *)
Definition calculateTopProducts (transactions : list Transaction)
  : list NameSales :=
  JS.slice0 5
    (JS.sort bySalesDescending
             (map mkNameSales (Obj.entries (accumulateProductSales transactions)))).

(** The body of [AnalyticsService.getSalesAnalytics] once the three
    collections have been fetched. *)
Definition getSalesAnalytics (transactions : list Transaction)
    (products : list Product) (users : list User) : Analytics :=
  {| totalSales := fold_left (fun sum transaction => (sum + total transaction)%float)
                             transactions 0%float;
     totalTransactions := length transactions;
     totalProducts := length products;
     totalUsers := length users;
     salesByMonth := calculateSalesByMonth transactions;
     topProducts := calculateTopProducts transactions;
     recentTransactions := JS.slice0 5 transactions |}.

(** The effect of the [useAnalytics] hook once loading has finished. The
    monthly entries are taken from [Object.entries] as they come. *)
Definition useAnalytics (transactions : list Transaction)
    (products : list Product) (users : list User) : Analytics :=
  let totalSales := fold_left (fun sum t => (sum + total t)%float) transactions 0%float in
  let salesByMonth := accumulateSalesByMonth transactions in
  let productSales := accumulateProductSales transactions in
  let topProducts :=
    JS.slice0 5
      (JS.sort bySalesDescending
               (map mkNameSales (Obj.entries productSales))) in
  {| totalSales := totalSales;
     totalTransactions := length transactions;
     totalProducts := length products;
     totalUsers := length users;
     salesByMonth := map mkMonthSales (Obj.entries salesByMonth);
     topProducts := topProducts;
     recentTransactions := JS.slice0 5 transactions |}.

End Aggregator.

(** ** Quantities that the properties speak of *)

(** [(running || 0) + x] on numbers. *)
Definition addTo (running x : float) : float :=
  ((if JS.falsy running then 0 else running) + x)%float.

(** The running total of a list of numbers: they are added one after the
    other, from left to right and starting from 0, each addition rounding
    to the nearest double; a running value of NaN counts as 0 for the next
    addition. *)
Definition runningTotal (l : list float) : float := fold_left addTo l 0%float.

(** [l.reduce((sum, x) => sum + x, 0)]: the numbers of a list added from
    left to right and starting from 0, each addition rounding to the nearest
    double. *)
Definition plainSum (l : list float) : float := fold_left PrimFloat.add l 0%float.

(** The totals of the transactions whose timestamp falls in the calendar
    month [d], in the order of the input. *)
Definition monthTotals (newDate : string -> JSDate) (d : JSDate)
    (transactions : list Transaction) : list float :=
  map total
    (List.filter (fun t => bool_decide (newDate (timestamp t) = d)) transactions).

(** The running total of the totals of the calendar month [d]. *)
Definition monthTotal (newDate : string -> JSDate) (d : JSDate)
    (transactions : list Transaction) : float :=
  runningTotal (monthTotals newDate d transactions).

Definition inMonth (newDate : string -> JSDate) (d : JSDate)
    (transactions : list Transaction) : Prop :=
  exists t, In t transactions /\ newDate (timestamp t) = d.

Definition itemRevenue (i : TransactionItem) : float :=
  (item_quantity i * item_price i)%float.

(** The revenue of the product called [n]: the running total, in input
    order, of quantity times price over all the items of all the
    transactions that carry this name. *)
Definition productRevenue (n : string) (transactions : list Transaction) : float :=
  runningTotal (map itemRevenue
    (List.filter (fun i => String.eqb (item_name i) n)
                 (flat_map items transactions))).

(** The table built by running [o[key x] = (o[key x] || 0) + val x] over
    the elements [x] of a list. *)
Definition addAllBy {A : Type} (key : A -> string) (val : A -> float)
    (l : list A) (o : list (string * JSValue)) : list (string * JSValue) :=
  fold_left (fun o x => Obj.add o (key x) (val x)) l o.

(** The keys of a list in the order in which they are first seen, after the
    keys [seen] so far. *)
Definition firstSeen (ks : list string) (seen : list string) : list string :=
  fold_left (fun seen k =>
               if existsb (fun k' => String.eqb k' k) seen then seen
               else seen ++ [k])
            ks seen.

(** The keys, among those of a pass, that become own properties: all but
    [__proto__]. *)
Definition assignable (ks : list string) : list string :=
  List.filter (fun k => negb (String.eqb k "__proto__")) ks.

Definition productSold (n : string) (transactions : list Transaction) : Prop :=
  exists i, In i (flat_map items transactions) /\ item_name i = n.

(** The items of a list of transactions, each with its transaction. *)
Definition soldItems (transactions : list Transaction)
  : list (Transaction * TransactionItem) :=
  flat_map (fun t => map (fun i => (t, i)) (items t)) transactions.

(** The revenue of the cashier called [n]: the running total, in input
    order, of quantity times price over all the items of the transactions
    that carry this cashier name. *)
Definition cashierRevenue (n : string) (transactions : list Transaction) : float :=
  runningTotal (map (fun ti => itemRevenue ti.2)
    (List.filter (fun ti => String.eqb (cashierName ti.1) n)
                 (soldItems transactions))).

Definition cashierSold (n : string) (transactions : list Transaction) : Prop :=
  exists ti, In ti (soldItems transactions) /\ cashierName ti.1 = n.

(** Modelled from the spec: the top-cashiers list of the analytics output.
    It is computed by the server route [GET /analytics/sales], which is not
    among the sources; the Dashboard component only reads it. Following the
    spec, there is one entry for each cashier name found on a sold item, its
    revenue is the sum over all transaction items of quantity times price,
    grouped by the name of the cashier and taken here as the running total
    in input order, and the entries are sorted descending by revenue and
    truncated to 5. *)
Definition calculateTopCashiers (transactions : list Transaction)
  : list NameSales :=
  JS.slice0 5
    (JS.sort bySalesDescending
       (map (fun n => {| name := n; sales := Num (cashierRevenue n transactions) |})
            (firstSeen (map (fun ti : Transaction * TransactionItem => cashierName ti.1)
                            (soldItems transactions)) []))).

(** The Dashboard component lists [analytics.topCashiers.slice(0, 5)]. *)
Definition Dashboard_topCashiers (topCashiers : list NameSales) : list NameSales :=
  JS.slice0 5 topCashiers.

(** No item carries the name of a property of [Object.prototype]. *)
Definition plainNames (transactions : list Transaction) : Prop :=
  forall i, In i (flat_map items transactions) -> Obj.inherited (item_name i) = false.

(** No product has a revenue of NaN. *)
Definition numericRevenues (transactions : list Transaction) : Prop :=
  forall i, In i (flat_map items transactions) ->
            PrimFloat.is_nan (productRevenue (item_name i) transactions) = false.

(** No cashier has a revenue of NaN. *)
Definition numericCashierRevenues (transactions : list Transaction) : Prop :=
  forall ti, In ti (soldItems transactions) ->
             PrimFloat.is_nan (cashierRevenue (cashierName ti.1) transactions) = false.

(** [a] holds a number that is at least the number that [b] holds. *)
Definition atLeast (a b : JSValue) : Prop :=
  match a, b with
  | Num x, Num y => (y <=? x)%float = true
  | _, _ => False
  end.

Definition descending (l : list NameSales) : Prop :=
  StronglySorted (fun a b => atLeast (sales a) (sales b)) l.

(** A list of at most five entries, one per name, each with the revenue of
    its name, in descending order of revenue, that leaves out no name with
    more revenue than one it holds. *)
Definition rankedTop5 (revenue : string -> float) (occurs : string -> Prop)
    (l : list NameSales) : Prop :=
  descending l
  /\ (length l <= 5)%nat
  /\ NoDup (map name l)
  /\ (forall e, In e l -> occurs (name e) /\ sales e = Num (revenue (name e)))
  /\ (forall n, occurs n ->
        In n (map name l)
        \/ (length l = 5%nat
            /\ forall e, In e l -> atLeast (sales e) (Num (revenue n)))).

(** ** The order of the doubles *)

(** The smallest exponent of a double. *)
Definition emin64 : Z := -1074.

(** The value of a double in units of [2 ^ emin64], the smallest positive
    double: an integer. The infinities are placed beyond every finite
    double; NaN has no place, it is given 0. *)
Definition scaled (x : spec_float) : Z :=
  match x with
  | S754_zero _ => 0
  | S754_infinity s => cond_Zopp s (2 ^ 2098)
  | S754_nan => 0
  | S754_finite s m e => cond_Zopp s (Z.pos m * 2 ^ (e - emin64))
  end.

Definition units (x : float) : Z := scaled (Prim2SF x).

(** The place of an entry's sales in the order of the doubles, and the
    entries whose sales are a number other than NaN. *)
Definition salesKey (e : NameSales) : Z :=
  match sales e with
  | Num x => units x
  | _ => 0
  end.

Definition numericSales (e : NameSales) : Prop :=
  exists x, sales e = Num x /\ PrimFloat.is_nan x = false.

(** A float with the sign [s] that is neither a zero nor NaN. *)
Inductive signed_nonzero (s : bool) : spec_float -> Prop :=
| sn_finite m e : signed_nonzero s (S754_finite s m e)
| sn_infinity : signed_nonzero s (S754_infinity s).

(** ** A concrete environment for the examples *)

Definition month_of_index (n : N) : option Month :=
  match n with
  | 1 => Some Jan | 2 => Some Feb | 3 => Some Mar | 4 => Some Apr
  | 5 => Some May | 6 => Some Jun | 7 => Some Jul | 8 => Some Aug
  | 9 => Some Sep | 10 => Some Oct | 11 => Some Nov | 12 => Some Dec
  | _ => None
  end%N.

(** [new Date] on a timestamp written [YYYY-MM-...] whose local calendar
    month is the one written in it. *)
Definition isoDate (timestamp : string) : JSDate :=
  match Obj.parse_digits (substring 0 4 timestamp) 0%N,
        Obj.parse_digits (substring 5 2 timestamp) 0%N with
  | Some y, Some m =>
      match month_of_index m with
      | Some mo => LocalDate (Z.of_N y) mo
      | None => InvalidDate
      end
  | _, _ => InvalidDate
  end.

(** Comparison by code units, as a collation. *)
Definition codeUnitCompare (a b : string) : Z :=
  match String.compare a b with
  | Lt => -1
  | Eq => 0
  | Gt => 1
  end.

Definition sale (id : string) (timestamp : string) (cashier : string)
    (its : list TransactionItem) (total : float) : Transaction :=
  {| tx_id := id; cashierId := cashier; cashierName := cashier; items := its;
     total := total; paymentMethod := cash; timestamp := timestamp;
     status := completed |}.

Definition rice (n : string) (q p : float) : TransactionItem :=
  {| item_productId := n; item_name := n; item_quantity := q; item_price := p;
     item_unit := "kg" |}.

(** Six sales, one in each of the first six months of a year. *)
Definition halfYear : list Transaction :=
  [ sale "t1" "2024-01-15T10:00:00.000Z" "Ani" [rice "Pandan" 1 10] 10;
    sale "t2" "2024-02-15T10:00:00.000Z" "Ani" [rice "Rojolele" 2 10] 20;
    sale "t3" "2024-03-15T10:00:00.000Z" "Budi" [rice "Mentik" 3 10] 30;
    sale "t4" "2024-04-15T10:00:00.000Z" "Budi" [rice "Ketan" 4 10] 40;
    sale "t5" "2024-05-15T10:00:00.000Z" "Citra" [rice "Merah" 5 10] 50;
    sale "t6" "2024-06-15T10:00:00.000Z" "Citra" [rice "Hitam" 6 10] 60 ].

(** Three sales of one month whose totals have cents. *)
Definition januarySales : list Transaction :=
  [ sale "j1" "2024-01-05T10:00:00.000Z" "Ani" [rice "Pandan" 1 12.5] 12.5;
    sale "j2" "2024-01-12T10:00:00.000Z" "Ani" [rice "Rojolele" 1 19.99] 19.99;
    sale "j3" "2024-01-19T10:00:00.000Z" "Budi" [rice "Mentik" 1 24.99] 24.99 ].

(** The same three sales, the first one moved to the end. *)
Definition januarySalesRotated : list Transaction :=
  [ sale "j2" "2024-01-12T10:00:00.000Z" "Ani" [rice "Rojolele" 1 19.99] 19.99;
    sale "j3" "2024-01-19T10:00:00.000Z" "Budi" [rice "Mentik" 1 24.99] 24.99;
    sale "j1" "2024-01-05T10:00:00.000Z" "Ani" [rice "Pandan" 1 12.5] 12.5 ].

(** A sale whose stored total is NaN, followed by a sale of 5 in the same
    month. *)
Definition nanThenFive : list Transaction :=
  [ sale "n1" "2024-01-05T10:00:00.000Z" "Ani" [] nan;
    sale "n2" "2024-01-12T10:00:00.000Z" "Ani" [rice "Pandan" 1 5] 5 ].

(** One sale with three items of the same product. *)
Definition pandanThrice : list Transaction :=
  [ sale "k1" "2024-01-05T10:00:00.000Z" "Ani"
      [rice "Pandan" 1 12.5; rice "Pandan" 1 19.99; rice "Pandan" 1 24.99] 57.48 ].

(** A sale of two products, one of them with a stored price of NaN. *)
Definition nanPrice : list Transaction :=
  [ sale "q1" "2024-01-05T10:00:00.000Z" "Ani"
      [rice "Pandan" 1 nan; rice "Rojolele" 1 10] 10 ].

(** A sale of a product called [constructor] and of a product called
    [Pandan]. *)
Definition constructorAndPandan : list Transaction :=
  [ sale "c1" "2024-01-05T10:00:00.000Z" "Ani"
      [rice "constructor" 2 10; rice "Pandan" 1 10] 30 ].

(** A sale of two units, at 10 each, of a product called [n]. *)
Definition saleOf (n : string) : list Transaction :=
  [ sale "p1" "2024-01-05T10:00:00.000Z" "Ani" [rice n 2 10] 20 ].


(** ** Example states and environments *)

Definition ani : User :=
  {| user_id := "u-ani"; user_name := "Ani"; user_email := "ani@riceshop.com";
     user_role := "manager"; user_status := active |}.

Definition signedInAs (u : User) : AppState :=
  {| app_user := Some (user_id u); app_userProfile := Some u;
     app_accessToken := Some "token" |}.

Definition signedOut : AppState :=
  {| app_user := None; app_userProfile := None; app_accessToken := None |}.

Definition cashierOnDuty : CreateEnv :=
  {| currentUser := Some "u-ani"; now_iso := "2024-03-15T10:00:00.000Z";
     addDoc_outcome := inl "tx-1" |}.

Definition nobodySignedIn : CreateEnv :=
  {| currentUser := None; now_iso := "2024-03-15T10:00:00.000Z";
     addDoc_outcome := inl "tx-1" |}.

Definition refundedSale : TransactionData :=
  {| data_cashierId := "u-ani"; data_cashierName := "Ani";
     data_items := [rice "Pandan" 2 15]; data_total := 30;
     data_paymentMethod := cash; data_status := refunded |}.

Definition emptyDb : Firestore :=
  {| users := ∅; products := ∅; transactions := ∅ |}.

Definition unauthorized401 : JSError :=
  mkError "Request failed with status 401".

Definition withoutMessage : JSError :=
  {| err_code := None; err_message := None |}.

(** The auth service accepts the credentials and issues the session of
    user [u-ani]; the users collection holds no document for that id. *)
Definition acceptedWithoutProfile : SignInEnv :=
  {| signInWithEmailAndPassword := fun _ _ => inl "u-ani";
     getDoc_users := fun _ => DocMissing;
     signOut_outcome := None;
     now_lastActive := "2024-03-15T10:00:00.000Z" |}.

Definition noSession : Session :=
  {| auth_currentUser := None; held_profile := None |}.

(** ** More of Utils *)

Module UtilsRest.

Definition getStockStatusLabel (stock : Z) : string :=
  if stock =? 0 then "Out of Stock"
  else if stock <=? 10 then "Low Stock"
  else "In Stock".

(** [updatePageVisibility]: whether the elements of class [admin-only]
    are displayed. *)
Definition adminOnlyDisplayed (st : AppState) : bool :=
  match Utils.currentRole st with
  | Some userRole => String.eqb userRole "admin" || String.eqb userRole "manager"
  | None => false
  end.

Section FilterBySearch.

Context {A : Type}.

(** [field.split('.').reduce((obj, key) => obj?.[key], item)] followed by
    [?.toString()]: the text found at a path of an item, if any. *)
Variable textAt : A -> string -> option string.
Variable toLowerCase : string -> string.

Definition filterBySearch (array : list A) (searchTerm : string)
    (searchFields : list string) : list A :=
  if String.eqb searchTerm "" then array
  else
    let term := toLowerCase searchTerm in
    List.filter
      (fun item =>
         existsb (fun field =>
                    match textAt item field with
                    | Some value => JS.includes (toLowerCase value) term
                    | None => false
                    end)
                 searchFields)
      array.

End FilterBySearch.

End UtilsRest.

(** ** Navigation of the script variant *)

Inductive NavEffect :=
| NavShowError (message : string)
| SetActivePage (page : string)
| ShowPageContent (page : string)
| LoadPageData (page : string)
| CloseSidebar.

Record NavState := {
  nav_app : AppState;
  nav_currentPage : string
}.

Module Navigation.

(** [showPageContent]: the page is made active and, for the four known
    pages, its data is loaded. *)
Definition showPageContent (page : string) : list NavEffect :=
  ShowPageContent page ::
  (if String.eqb page "dashboard" || String.eqb page "products"
      || String.eqb page "transactions" || String.eqb page "users"
   then [LoadPageData page] else []).

Definition navigateToPage (page : string) (s : NavState) : NavState * list NavEffect :=
  if String.eqb page "users" && negb (Utils.hasPermission (nav_app s) "manager") then
    (s, [NavShowError "Access denied. Insufficient permissions."])
  else
    ({| nav_app := nav_app s; nav_currentPage := page |},
     [SetActivePage page] ++ showPageContent page ++ [CloseSidebar]).

End Navigation.


(** ** Access rules of the component variant *)

Definition status_name (s : UserStatus) : string :=
  match s with
  | active => "active"
  | inactive => "inactive"
  | suspended => "suspended"
  end.

Module UserManagement.

(** The values of the [roles] array, in its order. *)
Definition roles : list string := ["admin"; "manager"; "cashier"].

Definition canManageUser (userProfile : option User) (user : User) : bool :=
  if bool_decide (user_role <$> userProfile = Some "admin") then true
  else if bool_decide (user_role <$> userProfile = Some "manager")
          && String.eqb (user_role user) "cashier" then true
  else false.

(** The options of the role select of the add and edit forms. *)
Definition offeredRoles (userProfile : option User) : list string :=
  List.filter (fun role => bool_decide (user_role <$> userProfile = Some "admin")
                           || String.eqb role "cashier")
              roles.

Section FilteredUsers.

Variable toLowerCase : string -> string.

Definition filteredUsers (all : list User) (searchTerm roleFilter statusFilter : string)
  : list User :=
  List.filter
    (fun user =>
       let matchesSearch :=
         JS.includes (toLowerCase (user_name user)) (toLowerCase searchTerm)
         || JS.includes (toLowerCase (user_email user)) (toLowerCase searchTerm) in
       let matchesRole :=
         String.eqb roleFilter "all" || String.eqb (user_role user) roleFilter in
       let matchesStatus :=
         String.eqb statusFilter "all"
         || String.eqb (status_name (user_status user)) statusFilter in
       matchesSearch && matchesRole && matchesStatus)
    all.

End FilteredUsers.

End UserManagement.

(** What the provider component holds: the signed-in user, the profile and
    the loading flag. *)
Record ProviderState := {
  prov_user : option string;
  prov_userProfile : option User;
  prov_loading : bool
}.

Inductive Screen :=
| LoadingScreen
| LoginScreen
| DashboardScreen
| UserManagementScreen
| ProductManagementScreen
| TransactionManagementScreen.

Module App.

(** The callback given to [onAuthStateChanged]. *)
Definition onAuthStateChanged (env : SignInEnv) (firebaseUser : option string)
    (s : ProviderState) : ProviderState :=
  match firebaseUser with
  | Some uid =>
      match getDoc_users env uid with
      | DocFound profileData =>
          {| prov_user := Some uid; prov_userProfile := Some profileData;
             prov_loading := false |}
      | DocMissing =>
          {| prov_user := Some uid; prov_userProfile := None; prov_loading := false |}
      | DocFails _ =>
          {| prov_user := Some uid; prov_userProfile := None; prov_loading := false |}
      end
  | None =>
      {| prov_user := None; prov_userProfile := None; prov_loading := false |}
  end.

(** [signOut] of the provider; a rejected sign-out is only logged. *)
Definition signOut (env : SignInEnv) (s : ProviderState) : ProviderState :=
  match signOut_outcome env with
  | None => {| prov_user := None; prov_userProfile := None;
               prov_loading := prov_loading s |}
  | Some _ => s
  end.

Definition hasAdminAccess (userProfile : User) : bool :=
  String.eqb (user_role userProfile) "admin"
  || String.eqb (user_role userProfile) "manager".

(** The ids of the [navigation] array given to the sidebar. *)
Definition navigation (userProfile : User) : list string :=
  ["dashboard"; "products"; "transactions"]
  ++ (if hasAdminAccess userProfile then ["users"] else []).

Definition renderPage (userProfile : User) (currentPage : string) : Screen :=
  if String.eqb currentPage "dashboard" then DashboardScreen
  else if String.eqb currentPage "users" then
    (if hasAdminAccess userProfile then UserManagementScreen else DashboardScreen)
  else if String.eqb currentPage "products" then ProductManagementScreen
  else if String.eqb currentPage "transactions" then TransactionManagementScreen
  else DashboardScreen.

Definition AppContent (s : ProviderState) (currentPage : string) : Screen :=
  if prov_loading s then LoadingScreen
  else
    match prov_user s, prov_userProfile s with
    | Some _, Some userProfile => renderPage userProfile currentPage
    | _, _ => LoginScreen
    end.

End App.

(** ** API requests of the script variant *)

Record RequestOptions := {
  opt_method : option string;
  opt_headers : option (gmap string string);
  opt_body : option (list (string * string))  (* the object given to JSON.stringify *)
}.

Record RequestConfig := {
  cfg_method : option string;
  cfg_headers : gmap string string;
  cfg_body : option (list (string * string))
}.

(** What [fetch] and the reading of the body come to. *)
Inductive FetchOutcome (B : Type) :=
| FetchFails (e : JSError)
| NotOk (http_status : Z) (error_text : option string)
| Ok (payload : B + JSError).
Arguments FetchFails {B} e.
Arguments NotOk {B} http_status error_text.
Arguments Ok {B} payload.

Module API.

Definition API_BASE_URL : string :=
  "https://fcwtnsaxhmoszxonwoct.supabase.co/functions/v1/make-server-8108af16".

Definition defaultHeaders (accessToken : option string) : gmap string string :=
  let defaultHeaders : gmap string string :=
    {["Content-Type" := "application/json"]} in
  match accessToken with
  | Some token =>
      if String.eqb token "" then defaultHeaders
      else <["Authorization" := "Bearer " +:+ token]> defaultHeaders
  | None => defaultHeaders
  end.

(** [{ headers: { ...defaultHeaders, ...options.headers }, ...options }]:
    the members of [options] are spread last. *)
Definition config (accessToken : option string) (options : RequestOptions)
  : RequestConfig :=
  let merged := default ∅ (opt_headers options) ∪ defaultHeaders accessToken in
  {| cfg_method := opt_method options;
     cfg_headers := match opt_headers options with
                    | Some headers => headers
                    | None => merged
                    end;
     cfg_body := opt_body options |}.

(** [request]: the request sent and the result. *)
Definition request {B : Type} (accessToken : option string) (endpoint : string)
    (options : RequestOptions) (outcome : FetchOutcome B)
  : (string * RequestConfig) * Result B :=
  let url := API_BASE_URL +:+ endpoint in
  ((url, config accessToken options),
   match outcome with
   | FetchFails e => Throws e
   | NotOk http_status error_text =>
       Throws (mkError (or_string error_text
                          ("Request failed with status " +:+ pretty http_status)))
   | Ok (inl payload) => Returns payload
   | Ok (inr e) => Throws e
   end).

(** The options of [API.auth.signin]. *)
Definition signin_options (anonKey email password : string) : RequestOptions :=
  {| opt_method := Some "POST";
     opt_headers := Some {["Authorization" := "Bearer " +:+ anonKey]};
     opt_body := Some [("email", email); ("password", password)] |}.

Definition no_options : RequestOptions :=
  {| opt_method := None; opt_headers := None; opt_body := None |}.

End API.

(** ** DataLoader: loading through the cache *)

Section DataLoader.

(** The JSON responses of the API, which are objects and so never falsy,
    and the reading of their members. *)
Context {R : Type}.
Variable users_of : R -> option (list User).
Variable products_of : R -> option (list Product).
Variable transactions_of : R -> option (list Transaction).

(** The cache and [window.AppState.data]. *)
Record LoaderState := {
  ld_cache : gmap string (DataCache.Entry R);
  ld_users : list User;
  ld_products : list Product;
  ld_transactions : list Transaction;
  ld_analytics : option R
}.

(** The clock readings at the cache lookup and at the cache write, and the
    result of the API call made in between. *)
Record LoadEnv := {
  clock_get : Z;
  clock_set : Z;
  api_result : Result R
}.

Definition with_cache (cache : gmap string (DataCache.Entry R)) (st : LoaderState)
  : LoaderState :=
  {| ld_cache := cache; ld_users := ld_users st; ld_products := ld_products st;
     ld_transactions := ld_transactions st; ld_analytics := ld_analytics st |}.

(** The common shape of the four loaders: [store] is the assignment to the
    member of [window.AppState.data]. *)
Definition loadWith (cacheKey endpoint label : string) (expiryMinutes : option Z)
    (store : R -> LoaderState -> LoaderState)
    (forceRefresh : bool) (env : LoadEnv) (st : LoaderState)
  : LoaderState * list Effect * Result R :=
  let '(cached, cache1) :=
    if forceRefresh then (None, ld_cache st)
    else DataCache.get (clock_get env) cacheKey (ld_cache st) in
  match cached with
  | Some cached => (store cached (with_cache cache1 st), [], Returns cached)
  | None =>
      match api_result env with
      | Returns response =>
          let st1 := store response (with_cache cache1 st) in
          (with_cache (DataCache.set (clock_set env) cacheKey response
                         expiryMinutes (ld_cache st1)) st1,
           [ApiRequest endpoint], Returns response)
      | Throws e =>
          (with_cache cache1 st, [ApiRequest endpoint; ConsoleError label], Throws e)
      end
  end.

Definition store_users (response : R) (st : LoaderState) : LoaderState :=
  {| ld_cache := ld_cache st; ld_users := default [] (users_of response);
     ld_products := ld_products st; ld_transactions := ld_transactions st;
     ld_analytics := ld_analytics st |}.

Definition store_products (response : R) (st : LoaderState) : LoaderState :=
  {| ld_cache := ld_cache st; ld_users := ld_users st;
     ld_products := default [] (products_of response);
     ld_transactions := ld_transactions st; ld_analytics := ld_analytics st |}.

Definition store_transactions (response : R) (st : LoaderState) : LoaderState :=
  {| ld_cache := ld_cache st; ld_users := ld_users st; ld_products := ld_products st;
     ld_transactions := default [] (transactions_of response);
     ld_analytics := ld_analytics st |}.

Definition store_analytics (response : R) (st : LoaderState) : LoaderState :=
  {| ld_cache := ld_cache st; ld_users := ld_users st; ld_products := ld_products st;
     ld_transactions := ld_transactions st; ld_analytics := Some response |}.

Definition loadUsers :=
  loadWith "users" "/users" "Failed to load users:" None store_users.

Definition loadProducts :=
  loadWith "products" "/products" "Failed to load products:" None store_products.

Definition loadTransactions :=
  loadWith "transactions" "/transactions" "Failed to load transactions:" None
           store_transactions.

Definition loadAnalytics :=
  loadWith "analytics" "/analytics/sales" "Failed to load analytics:" (Some 2)
           store_analytics.

End DataLoader.
Arguments LoaderState : clear implicits.
Arguments LoadEnv : clear implicits.

(** A loader asks the API once per life time of a cache entry: after a load
    that made a request and got [response], a load that is not forced and
    starts no later than [ttlMinutes] after the cache write returns
    [response] again without a request and leaves the state as it is; a load
    that starts later makes a request. *)
Definition cachesFor {R : Type} (endpoint : string) (ttlMinutes : Z)
    (load : bool -> LoadEnv R -> LoaderState R
            -> LoaderState R * list Effect * Result R) : Prop :=
  forall force1 env1 env2 st st1 response,
    load force1 env1 st = (st1, [ApiRequest endpoint], Returns response) ->
    (clock_get env2 <= clock_set env1 + ttlMinutes * 60 * 1000 ->
     load false env2 st1 = (st1, [], Returns response))
    /\ (clock_set env1 + ttlMinutes * 60 * 1000 < clock_get env2 ->
        exists st2 effects result,
          load false env2 st1 = (st2, ApiRequest endpoint :: effects, result)).

(** A forced load always makes a request; when it succeeds the answer is
    cached under [cacheKey] for [ttlMinutes] and the other keys are left
    alone; when it fails the error is thrown again and the whole state,
    cache included, stays as it was. *)
Definition refreshesFor {R : Type} (cacheKey endpoint label : string) (ttlMinutes : Z)
    (load : bool -> LoadEnv R -> LoaderState R
            -> LoaderState R * list Effect * Result R) : Prop :=
  forall env st,
    (forall response, api_result env = Returns response ->
       exists st1,
         load true env st = (st1, [ApiRequest endpoint], Returns response)
         /\ ld_cache st1 !! cacheKey
            = Some {| DataCache.data := response;
                      DataCache.expiry := clock_set env + ttlMinutes * 60 * 1000 |}
         /\ forall k, k <> cacheKey -> ld_cache st1 !! k = ld_cache st !! k)
    /\ (forall e, api_result env = Throws e ->
          load true env st
          = (st, [ApiRequest endpoint; ConsoleError label], Throws e)).

(** ** Login of the script variant *)

Inductive PageEvent :=
| Logged (e : Effect)
| ShowMainApp
| UpdateUserDisplay
| UpdatePageVisibility
| HideLoading.

(** The answer to [POST /auth/signin] and to [GET /users]. *)
Inductive SigninOutcome :=
| SigninFetchFails (message : string)
| SigninNotOk (error_text : option string)
| SigninOk (user_id access_token : string).

Inductive UsersOutcome :=
| UsersFetchFails
| UsersNotOk
| UsersOk (all : list User).

Inductive SessionOutcome :=
| SessionFails
| NoSession
| HasSession (user_id access_token : string).

Module AuthFlow.

Definition isAuthenticated (st : AppState) : bool :=
  match app_accessToken st with
  | Some token => negb (String.eqb token "")
  | None => false
  end.

(** [fetchUserProfile]: on an ok response the profile becomes the first
    user of the list with the id of the current user, or undefined. *)
Definition fetchUserProfile (outcome : UsersOutcome) (st : AppState)
  : AppState * list PageEvent :=
  match outcome with
  | UsersOk all =>
      match app_user st with
      | Some uid =>
          ({| app_user := app_user st;
              app_userProfile := List.find (fun u => String.eqb (user_id u) uid) all;
              app_accessToken := app_accessToken st |},
           [UpdateUserDisplay; UpdatePageVisibility])
      | None => (st, [Logged (ConsoleError "Fetch profile error:")])
      end
  | UsersNotOk => (st, [])
  | UsersFetchFails => (st, [Logged (ConsoleError "Fetch profile error:")])
  end.

Definition enterWith (user_id access_token : string) (outcome : UsersOutcome)
    (st : AppState) : AppState * list PageEvent :=
  let st1 := {| app_user := Some user_id; app_userProfile := app_userProfile st;
                app_accessToken := Some access_token |} in
  let '(st2, events) := fetchUserProfile outcome st1 in
  (st2, events ++ [ShowMainApp]).

Definition handleLogin (signin : SigninOutcome) (outcome : UsersOutcome)
    (st : AppState) : AppState * list PageEvent :=
  match signin with
  | SigninOk user_id access_token =>
      let '(st', events) := enterWith user_id access_token outcome st in
      (st', [Logged HideError] ++ events ++ [Logged (ShowSuccess "Login successful!")])
  | SigninNotOk error_text =>
      (st, [Logged HideError; Logged (ConsoleError "Login error:");
            Logged (ShowError (or_string error_text "Sign in failed"))])
  | SigninFetchFails message =>
      (st, [Logged HideError; Logged (ConsoleError "Login error:");
            Logged (ShowError message)])
  end.

Definition checkExistingSession (session : SessionOutcome) (outcome : UsersOutcome)
    (st : AppState) : AppState * list PageEvent :=
  match session with
  | HasSession user_id access_token =>
      let '(st', events) := enterWith user_id access_token outcome st in
      (st', events ++ [HideLoading])
  | NoSession => (st, map Logged Auth.showLoginPage ++ [HideLoading])
  | SessionFails =>
      (st, [Logged (ConsoleError "Session check error:")]
           ++ map Logged Auth.showLoginPage ++ [HideLoading])
  end.

End AuthFlow.

(** ** Reads of the Firestore services *)

(** [{ id: doc.id, ...doc.data() }] for a transaction document. *)
Definition toTransaction (id : string) (d : TransactionDoc) : Transaction :=
  {| tx_id := id;
     cashierId := doc_cashierId d;
     cashierName := doc_cashierName d;
     items := doc_items d;
     total := doc_total d;
     paymentMethod := doc_paymentMethod d;
     timestamp := doc_timestamp d;
     status := doc_status d |}.

Module TransactionsReads.


(** [TransactionsService.getAll] on the snapshot that [getDocs] gives, or on
    its rejection. *)
Definition getAll (getDocs_outcome : list (string * TransactionDoc) + JSError)
  : Result (list Transaction) :=
  match getDocs_outcome with
  | inl docs => Returns (map (fun doc => toTransaction doc.1 doc.2) docs)
  | inr e => Throws (handleFirestoreError e "getTransactions")
  end.

End TransactionsReads.

(** [getAll] of the users and products services on the documents that
    [getDocs] gives, already read as users and products, or on its
    rejection. *)
Definition UsersService_getAll (getDocs_outcome : list User + JSError)
  : Result (list User) :=
  match getDocs_outcome with
  | inl docs => Returns docs
  | inr e => Throws (handleFirestoreError e "getUsers")
  end.

Definition ProductsService_getAll (getDocs_outcome : list Product + JSError)
  : Result (list Product) :=
  match getDocs_outcome with
  | inl docs => Returns docs
  | inr e => Throws (handleFirestoreError e "getProducts")
  end.

(** [Promise.all] of three promises: the three values, or the rejection of
    one of the promises that reject. *)
Inductive PromiseAll3 {A B C : Type}
  : Result A -> Result B -> Result C -> Result (A * B * C) -> Prop :=
| all_fulfilled a b c : PromiseAll3 (Returns a) (Returns b) (Returns c) (Returns (a, b, c))
| first_rejected e rb rc : PromiseAll3 (Throws e) rb rc (Throws e)
| second_rejected e ra rc : PromiseAll3 ra (Throws e) rc (Throws e)
| third_rejected e ra rb : PromiseAll3 ra rb (Throws e) (Throws e).

(** [AnalyticsService.getSalesAnalytics] on what [Promise.all] settles to. *)
Definition getSalesAnalytics_settled (newDate : string -> JSDate)
    (localeCompare : string -> string -> Z)
    (fetched : Result (list Transaction * list Product * list User))
  : Result Analytics :=
  match fetched with
  | Returns (transactions, products, users) =>
      Returns (getSalesAnalytics newDate localeCompare transactions products users)
  | Throws e => Throws (handleFirestoreError e "getSalesAnalytics")
  end.

(** ** Errors of the auth service *)

(** The codes that the [catch] of the provider's [signIn] knows. *)
Definition signIn_codes : list string :=
  ["auth/invalid-email"; "auth/user-disabled"; "auth/user-not-found";
   "auth/wrong-password"; "auth/invalid-credential"; "auth/too-many-requests"].

(** ** Queries built by the hooks *)

Inductive QueryConstraint :=
| where_eq (field : string) (value : string)
| orderBy (field direction : string)
| limit (n : Z).

Module Hooks.

(** The constraints that [useTransactions(limitCount, cashierId)] gives to
    [useFirestoreCollection]; an empty cashier id and a limit of 0 are
    falsy. *)
Definition useTransactions (limitCount : option Z) (cashierId : option string)
  : list QueryConstraint :=
  let constraints := [] in
  let constraints :=
    match cashierId with
    | Some c => if String.eqb c "" then constraints
                else constraints ++ [where_eq "cashierId" c]
    | None => constraints
    end in
  let constraints := constraints ++ [orderBy "timestamp" "desc"] in
  match limitCount with
  | Some n => if n =? 0 then constraints else constraints ++ [limit n]
  | None => constraints
  end.

(** [useRecentTransactions(limitCount = 10)] *)
Definition useRecentTransactions (limitCount : option Z) : list QueryConstraint :=
  useTransactions (Some (default 10 limitCount)) None.

(** [useMyTransactions]: [user] is the uid of the signed-in user, if any. *)
Definition useMyTransactions (user : option string) : list QueryConstraint :=
  useTransactions None user.

End Hooks.

(** ** The transaction list of the component variant *)

Definition payment_name (p : PaymentMethod) : string :=
  match p with
  | cash => "cash"
  | card => "card"
  | digital => "digital"
  end.

Section TransactionList.

Variable toLowerCase : string -> string.
(** [new Date(timestamp).getTime()], [None] for an invalid date, and
    [toDateString] of a date given by its time value. *)
Variable getTime : string -> option Z.
Variable toDateString : option Z -> string.

Definition getCashierName (all : list User) (cashierId : string) : string :=
  match List.find (fun u => String.eqb (user_id u) cashierId) all with
  | Some found => user_name found
  | None => "Unknown Cashier"
  end.

(** [date >= bound] on dates given by their time values. *)
Definition date_ge (date : option Z) (bound : Z) : bool :=
  match date with
  | Some t => bound <=? t
  | None => false
  end.

Definition matchesDate (now : Z) (dateFilter : string) (t : Transaction) : bool :=
  if String.eqb dateFilter "all" then true
  else
    let transactionDate := getTime (timestamp t) in
    if String.eqb dateFilter "today" then
      String.eqb (toDateString transactionDate) (toDateString (Some now))
    else if String.eqb dateFilter "week" then
      date_ge transactionDate (now - 7 * 24 * 60 * 60 * 1000)
    else if String.eqb dateFilter "month" then
      date_ge transactionDate (now - 30 * 24 * 60 * 60 * 1000)
    else true.

(** The comparison function of the final [sort]; a difference that is NaN
    counts as 0. *)
Definition newestFirst (a b : Transaction) : Z :=
  match getTime (timestamp b), getTime (timestamp a) with
  | Some tb, Some ta => tb - ta
  | _, _ => 0
  end.

Definition getFilteredTransactions (all : list User) (now : Z)
    (searchTerm dateFilter cashierFilter paymentFilter : string)
    (transactions : list Transaction) : list Transaction :=
  JS.sort newestFirst
    (List.filter
       (fun transaction =>
          let term := toLowerCase searchTerm in
          let matchesSearch :=
            JS.includes (toLowerCase (tx_id transaction)) term
            || JS.includes (toLowerCase (getCashierName all (cashierId transaction))) term
            || existsb (fun item => JS.includes (toLowerCase (item_name item)) term)
                       (items transaction) in
          let matchesCashier :=
            String.eqb cashierFilter "all"
            || String.eqb (cashierId transaction) cashierFilter in
          let matchesPayment :=
            String.eqb paymentFilter "all"
            || String.eqb (payment_name (paymentMethod transaction)) paymentFilter in
          matchesSearch && matchesDate now dateFilter transaction
          && matchesCashier && matchesPayment)
       transactions).

End TransactionList.

(** ** More example data *)

Definition suspendedAni : User :=
  {| user_id := "u-ani"; user_name := "Ani"; user_email := "ani@riceshop.com";
     user_role := "cashier"; user_status := suspended |}.

(** The auth service accepts the credentials of [u-ani], whose profile is
    stored with status 'suspended'. *)
Definition suspendedProfileEnv : SignInEnv :=
  {| signInWithEmailAndPassword := fun _ _ => inl "u-ani";
     getDoc_users := fun _ => DocFound suspendedAni;
     signOut_outcome := None;
     now_lastActive := "2024-03-15T10:00:00.000Z" |}.

(** The auth service refuses the password. *)
Definition wrongPassword : SignInEnv :=
  {| signInWithEmailAndPassword := fun _ _ =>
       inr {| err_code := Some "auth/wrong-password";
              err_message := Some "Firebase: Error (auth/wrong-password)." |};
     getDoc_users := fun _ => DocMissing;
     signOut_outcome := None;
     now_lastActive := "2024-03-15T10:00:00.000Z" |}.

(** A response that is just the list of users. *)
Definition usersOnly (response : list User) : option (list User) := Some response.

Definition noProducts (response : list User) : option (list Product) := None.

Definition noTransactions (response : list User) : option (list Transaction) := None.

Definition emptyLoader : LoaderState (list User) :=
  {| ld_cache := ∅; ld_users := []; ld_products := []; ld_transactions := [];
     ld_analytics := None |}.

Definition answers (t_get t_set : Z) (r : Result (list User)) : LoadEnv (list User) :=
  {| clock_get := t_get; clock_set := t_set; api_result := r |}.

(** A clock for the examples that counts the months of [isoDate]. *)
Definition monthClock (timestamp : string) : option Z :=
  match isoDate timestamp with
  | LocalDate y m => Some (y * 12 + month_index m)
  | InvalidDate => None
  end.

(******************************************************************************)
(** * Properties *)
(******************************************************************************)

(** ** Role hierarchy *)

Lemma roleHierarchy_role_name (r : Role) :
  Utils.roleHierarchy (role_name r) = Some (rank r).
Proof. destruct r; reflexivity. Qed.

Lemma role_name_nonempty (r : Role) : String.eqb (role_name r) "" = false.
Proof. destruct r; reflexivity. Qed.

(** C4: with the current user's role [userRole] and any [requiredRole], both
    among admin, manager and cashier, [hasPermission] answers true exactly
    when [rank userRole >= rank requiredRole] for the ranking admin = 3,
    manager = 2, cashier = 1; with no current user role (no profile, or an
    empty role) it answers false. *)
Theorem hasPermission_hierarchy :
  (forall (st : AppState) (profile : User) (userRole requiredRole : Role),
      app_userProfile st = Some profile ->
      user_role profile = role_name userRole ->
      (Utils.hasPermission st (role_name requiredRole) = true
       <-> rank userRole >= rank requiredRole))
  /\ (forall (st : AppState) (requiredRole : string),
      Utils.currentRole st = None \/ Utils.currentRole st = Some "" ->
      Utils.hasPermission st requiredRole = false).
Proof.
  split.
  - intros st profile u r Hp Hr.
    unfold Utils.hasPermission, Utils.currentRole.
    rewrite Hp; simpl. rewrite Hr, role_name_nonempty.
    rewrite !roleHierarchy_role_name; simpl.
    rewrite Z.leb_le. lia.
  - intros st r [H | H]; unfold Utils.hasPermission; rewrite H; reflexivity.
Qed.

Lemma hasPermission_hierarchy_witness :
  Utils.hasPermission (signedInAs ani) "cashier" = true
  /\ Utils.hasPermission signedOut "cashier" = false.
Proof.
  split.
  - apply (proj1 hasPermission_hierarchy (signedInAs ani) ani manager cashier).
    + reflexivity.
    + reflexivity.
    + simpl. lia.
  - apply (proj2 hasPermission_hierarchy signedOut "cashier").
    left. reflexivity.
Defined.

(** ** Sorting *)

Section SortFacts.

Context {A : Type} (cmp : A -> A -> Z).

Lemma sort_insert_perm (x : A) (l : list A) :
  Permutation (JS.sort_insert cmp x l) (x :: l).
Proof.
  induction l as [| y l IH]; simpl.
  - reflexivity.
  - destruct (cmp x y <=? 0).
    + reflexivity.
    + rewrite IH. apply perm_swap.
Qed.

Lemma sort_perm (l : list A) : Permutation (JS.sort cmp l) l.
Proof.
  induction l as [| x l IH]; simpl.
  - reflexivity.
  - rewrite sort_insert_perm. now apply perm_skip.
Qed.

Lemma sort_In (x : A) (l : list A) : In x (JS.sort cmp l) <-> In x l.
Proof.
  split; apply Permutation_in; [| symmetry]; apply sort_perm.
Qed.

Lemma sort_length (l : list A) : length (JS.sort cmp l) = length l.
Proof. apply Permutation_length, sort_perm. Qed.

(** The comparator is a total preorder. *)
Hypothesis cmp_total : forall x y, cmp x y > 0 -> cmp y x <= 0.
Hypothesis cmp_trans : forall x y z, cmp x y <= 0 -> cmp y z <= 0 -> cmp x z <= 0.

Let ordered (x y : A) : Prop := cmp x y <= 0.

Lemma sort_insert_sorted (x : A) (l : list A) :
  StronglySorted ordered l -> StronglySorted ordered (JS.sort_insert cmp x l).
Proof.
  induction 1 as [| y l Hs IH Hy]; simpl.
  - repeat constructor.
  - destruct (cmp x y <=? 0) eqn:E.
    + apply Z.leb_le in E.
      constructor; [constructor; assumption |].
      constructor; [exact E |].
      eapply Forall_impl; [exact Hy |].
      intros z Hz. exact (cmp_trans x y z E Hz).
    + apply Z.leb_gt in E.
      constructor; [exact IH |].
      rewrite Forall_forall. intros z Hz.
      rewrite sort_insert_perm in Hz.
      apply elem_of_cons in Hz as [-> | Hz].
      * apply cmp_total. lia.
      * rewrite Forall_forall in Hy. now apply Hy.
Qed.

Lemma sort_sorted (l : list A) : StronglySorted ordered (JS.sort cmp l).
Proof.
  induction l as [| x l IH]; simpl.
  - constructor.
  - now apply sort_insert_sorted.
Qed.

End SortFacts.

Lemma StronglySorted_weaken {A : Type} (R Q : A -> A -> Prop) (l : list A) :
  (forall x y, R x y -> Q x y) -> StronglySorted R l -> StronglySorted Q l.
Proof.
  intros HRQ. induction 1 as [| x l Hs IH Hx]; constructor.
  - exact IH.
  - eapply Forall_impl; [exact Hx |]. intros y. apply HRQ.
Qed.

Lemma StronglySorted_weaken_on {A : Type} (P : A -> Prop) (R Q : A -> A -> Prop)
    (l : list A) :
  (forall x y, P x -> P y -> R x y -> Q x y) ->
  Forall P l -> StronglySorted R l -> StronglySorted Q l.
Proof.
  intros HRQ HP. induction 1 as [| x l Hs IH Hx]; constructor.
  - apply IH. now apply Forall_cons in HP as [_ HP].
  - apply Forall_cons in HP as [Px HP].
    rewrite Forall_forall in Hx, HP. rewrite Forall_forall.
    intros y Hy. apply HRQ; [exact Px | now apply HP | now apply Hx].
Qed.

(** A sort whose comparison function follows an integer key, on the
    elements that satisfy [P], puts them in the order of that key. *)
Section SortByKey.

Context {A : Type} (cmp : A -> A -> Z) (key : A -> Z) (P : A -> Prop).

Hypothesis cmp_key : forall x y, P x -> P y -> (cmp x y <= 0 <-> key y <= key x).

Let keyed (x y : A) : Prop := key y <= key x.

Lemma sort_insert_by_key (x : A) (l : list A) :
  P x -> Forall P l ->
  StronglySorted keyed l -> StronglySorted keyed (JS.sort_insert cmp x l).
Proof.
  intros Px HP Hs. induction Hs as [| y l Hs IH Hy]; simpl.
  - repeat constructor.
  - apply Forall_cons in HP as [Py HP].
    destruct (cmp x y <=? 0) eqn:E.
    + apply Z.leb_le in E. apply cmp_key in E; [| assumption ..].
      constructor; [constructor; assumption |].
      constructor; [exact E |].
      eapply Forall_impl; [exact Hy |]. intros z Hz. unfold keyed in *. lia.
    + apply Z.leb_gt in E.
      assert (Hxy : key x <= key y).
      { destruct (Z.le_gt_cases (key y) (key x)) as [H | H]; [| lia].
        apply cmp_key in H; [lia | assumption ..]. }
      constructor; [now apply IH |].
      rewrite Forall_forall. intros z Hz.
      rewrite sort_insert_perm in Hz.
      apply elem_of_cons in Hz as [-> | Hz].
      * exact Hxy.
      * rewrite Forall_forall in Hy. now apply Hy.
Qed.

Lemma sort_by_key (l : list A) :
  Forall P l -> StronglySorted keyed (JS.sort cmp l).
Proof.
  induction l as [| x l IH]; simpl; intros HP.
  - constructor.
  - apply Forall_cons in HP as [Px HP].
    apply sort_insert_by_key; [exact Px | | now apply IH].
    rewrite Forall_forall in HP. rewrite Forall_forall. intros y Hy.
    apply HP. apply list_elem_of_In. apply list_elem_of_In in Hy.
    exact (proj1 (sort_In cmp y l) Hy).
Qed.

End SortByKey.

Lemma StronglySorted_firstn {A : Type} (R : A -> A -> Prop) (n : nat) (l : list A) :
  StronglySorted R l -> StronglySorted R (firstn n l).
Proof.
  intros H. rewrite <- (firstn_skipn n l) in H.
  now apply StronglySorted_app_1_l in H.
Qed.

(** ** Stock classification *)

(** C10: for a stock count that is not negative, [getStockStatus] is
    'out-of-stock' exactly at 0, 'low-stock' exactly from 1 to 10 and
    'in-stock' exactly above 10; the product card raises its warning at the
    same threshold of 10, which is also the default threshold of the
    low-stock query. *)
Theorem getStockStatus_thresholds (stock : Z) :
  0 <= stock ->
  (Utils.getStockStatus stock = "out-of-stock" <-> stock = 0)
  /\ (Utils.getStockStatus stock = "low-stock" <-> 1 <= stock <= 10)
  /\ (Utils.getStockStatus stock = "in-stock" <-> stock > 10)
  /\ (forall p : Product,
        product_stock p = stock ->
        (lowStockWarning p = true <-> stock <= 10)
        /\ (lowStockWarning p = true <-> Utils.getStockStatus stock <> "in-stock"))
  /\ useLowStockProducts_threshold None = 10
  /\ (forall (p : Product) (all : list Product),
        product_stock p = stock ->
        (In p (useLowStockProducts None all) <-> In p all /\ stock <= 10)).
Proof.
  intros Hnn.
  assert (Hout : Utils.getStockStatus stock = "out-of-stock" <-> stock = 0).
  { unfold Utils.getStockStatus.
    destruct (Z.eqb_spec stock 0); destruct (Z.leb_spec stock 10);
      split; intros; try discriminate; try lia; reflexivity. }
  assert (Hlow : Utils.getStockStatus stock = "low-stock" <-> 1 <= stock <= 10).
  { unfold Utils.getStockStatus.
    destruct (Z.eqb_spec stock 0); destruct (Z.leb_spec stock 10);
      split; intros; try discriminate; try lia; reflexivity. }
  assert (Hin : Utils.getStockStatus stock = "in-stock" <-> stock > 10).
  { unfold Utils.getStockStatus.
    destruct (Z.eqb_spec stock 0); destruct (Z.leb_spec stock 10);
      split; intros; try discriminate; try lia; reflexivity. }
  refine (conj Hout (conj Hlow (conj Hin (conj _ (conj eq_refl _))))).
  - intros p Hp. unfold lowStockWarning. rewrite Hp, Z.leb_le.
    split; [reflexivity |]. rewrite Hin. lia.
  - intros p all Hp. unfold useLowStockProducts.
    rewrite sort_In, filter_In. simpl. rewrite Z.leb_le, Hp. reflexivity.
Qed.

Lemma getStockStatus_thresholds_witness :
  0 <= 7 /\ Utils.getStockStatus 7 = "low-stock".
Proof.
  assert (H : 0 <= 7) by lia.
  split; [exact H |].
  apply (proj1 (proj2 (getStockStatus_thresholds 7 H))). lia.
Defined.

(** ** Recording a sale *)

Lemma create_cases (env : CreateEnv) (data : TransactionData) (db : Firestore) :
  (exists e, TransactionsService.create env data db = (db, Throws e))
  \/ (exists id uid,
        currentUser env = Some uid /\ addDoc_outcome env = inl id /\
        TransactionsService.create env data db =
          ({| users := users db; products := products db;
              transactions :=
                <[id := {| doc_cashierId := data_cashierId data;
                           doc_cashierName := data_cashierName data;
                           doc_items := data_items data;
                           doc_total := data_total data;
                           doc_paymentMethod := data_paymentMethod data;
                           doc_timestamp := now_iso env;
                           doc_status := completed |}]> (transactions db) |},
           Returns id)).
Proof.
  unfold TransactionsService.create, TransactionsService.addDoc.
  destruct (currentUser env) as [uid |]; [| left; eauto].
  destruct (addDoc_outcome env) as [id | e]; [| left; eauto].
  right. exists id, uid. auto.
Qed.

(** C5: whatever the stored products are, creating a transaction through
    [TransactionsService.create] leaves the products collection as it was;
    in particular every product keeps its stock. *)
Theorem create_leaves_products (env : CreateEnv) (data : TransactionData)
    (db : Firestore) :
  products (TransactionsService.create env data db).1 = products db
  /\ (forall (id : string),
        product_stock <$> (products (TransactionsService.create env data db).1 !! id)
        = product_stock <$> (products db !! id)).
Proof.
  assert (H : products (TransactionsService.create env data db).1 = products db).
  { destruct (create_cases env data db) as [[e ->] | (id & uid & _ & _ & ->)];
      reflexivity. }
  split; [exact H |]. intros id. now rewrite H.
Qed.

(** C8: with an authenticated user, [create] stores the transaction under
    the new document id with status 'completed' and the creation time as
    timestamp, whatever status the caller supplied, so that no document it
    writes is 'cancelled' or 'refunded'; without an authenticated user it
    throws and the database is left as it was. *)
Theorem create_stores_completed (env : CreateEnv) (data : TransactionData)
    (db : Firestore) :
  (forall uid id,
      currentUser env = Some uid -> addDoc_outcome env = inl id ->
      exists d,
        TransactionsService.create env data db
        = ({| users := users db; products := products db;
              transactions := <[id := d]> (transactions db) |}, Returns id)
        /\ doc_status d = completed
        /\ doc_timestamp d = now_iso env
        /\ doc_cashierId d = data_cashierId data
        /\ doc_cashierName d = data_cashierName data
        /\ doc_items d = data_items data
        /\ doc_total d = data_total data
        /\ doc_paymentMethod d = data_paymentMethod data)
  /\ (forall id d,
        transactions (TransactionsService.create env data db).1 !! id = Some d ->
        transactions db !! id = Some d
        \/ (doc_status d = completed /\ doc_timestamp d = now_iso env))
  /\ (currentUser env = None ->
      TransactionsService.create env data db
      = (db, Throws (mkError "Database error: User not authenticated"))).
Proof.
  split; [| split].
  - intros uid id Hu Ha.
    unfold TransactionsService.create, TransactionsService.addDoc.
    rewrite Hu, Ha. eexists. split; [reflexivity |]. simpl. tauto.
  - intros id d.
    destruct (create_cases env data db) as [[e ->] | (id' & uid & _ & _ & ->)];
      simpl.
    + auto.
    + destruct (decide (id' = id)) as [-> | Hne].
      * rewrite lookup_insert_eq. intros [= <-]. simpl. auto.
      * rewrite lookup_insert_ne by exact Hne. auto.
  - intros Hu. unfold TransactionsService.create. rewrite Hu. reflexivity.
Qed.

Lemma create_stores_completed_witness :
  (exists d,
      transactions (TransactionsService.create cashierOnDuty refundedSale emptyDb).1
        !! "tx-1" = Some d
      /\ doc_status d = completed)
  /\ TransactionsService.create nobodySignedIn refundedSale emptyDb
     = (emptyDb, Throws (mkError "Database error: User not authenticated")).
Proof.
  split.
  - destruct (proj1 (create_stores_completed cashierOnDuty refundedSale emptyDb)
                "u-ani" "tx-1" eq_refl eq_refl) as (d & Hc & Hs & _).
    exists d. split; [| exact Hs].
    rewrite Hc. simpl. apply lookup_insert_eq.
  - apply (proj2 (proj2 (create_stores_completed nobodySignedIn refundedSale emptyDb))).
    reflexivity.
Defined.

(** ** The cache *)

Section CacheFacts.

Context {V : Type}.
Implicit Types (cache : gmap string (DataCache.Entry V)) (op : DataCache.Op V).

Lemma get_hit now key cache e :
  cache !! key = Some e -> now <= DataCache.expiry e ->
  DataCache.get now key cache = (Some (DataCache.data e), cache).
Proof.
  intros H Hle. unfold DataCache.get. rewrite H.
  destruct (Z.ltb_spec (DataCache.expiry e) now); [lia | reflexivity].
Qed.

Lemma get_expired now key cache e :
  cache !! key = Some e -> DataCache.expiry e < now ->
  DataCache.get now key cache = (None, delete key cache).
Proof.
  intros H Hlt. unfold DataCache.get. rewrite H.
  destruct (Z.ltb_spec (DataCache.expiry e) now); [reflexivity | lia].
Qed.

Lemma get_miss now key cache :
  cache !! key = None -> DataCache.get now key cache = (None, cache).
Proof. intros H. unfold DataCache.get. now rewrite H. Qed.

(** A call that is neither a [set] nor a [clear] reaching [key], made no
    later than the expiry of the entry, leaves the entry in place. *)
Lemma step_keeps now op cache key e :
  cache !! key = Some e -> now <= DataCache.expiry e ->
  DataCache.sets_key key op = false -> DataCache.clears_key key op = false ->
  DataCache.step now op cache !! key = Some e.
Proof.
  intros H Hle Hs Hc. destruct op as [k d m | k | [k |] |]; simpl in *.
  - apply String.eqb_neq in Hs. unfold DataCache.set.
    now rewrite lookup_insert_ne.
  - unfold DataCache.get. destruct (cache !! k) as [c |] eqn:Hk; [| exact H].
    destruct (Z.ltb_spec (DataCache.expiry c) now); [| exact H]. simpl.
    destruct (decide (k = key)) as [-> | Hne].
    + rewrite H in Hk. injection Hk as ->. lia.
    + now rewrite lookup_delete_ne.
  - apply orb_false_elim in Hc as [Hc1 Hc2]. unfold DataCache.clear.
    rewrite Hc1. apply String.eqb_neq in Hc2. now rewrite lookup_delete_ne.
  - discriminate.
  - unfold DataCache.cleanup. apply map_lookup_filter_Some. split; [exact H |].
    simpl. lia.
Qed.

Lemma run_keeps ops cache key e :
  cache !! key = Some e ->
  Forall (fun top : Z * DataCache.Op V =>
            top.1 <= DataCache.expiry e
            /\ DataCache.sets_key key top.2 = false
            /\ DataCache.clears_key key top.2 = false) ops ->
  DataCache.run ops cache !! key = Some e.
Proof.
  intros H Hops. revert cache H.
  induction Hops as [| [t op] ops (Ht & Hs & Hc) _ IH]; intros cache H.
  - exact H.
  - simpl. apply IH. now apply step_keeps.
Qed.

(** A call other than a [set] of [key] does not create an entry for it. *)
Lemma step_absent now op cache key :
  cache !! key = None -> DataCache.sets_key key op = false ->
  DataCache.step now op cache !! key = None.
Proof.
  intros H Hs. destruct op as [k d m | k | [k |] |]; simpl in *.
  - apply String.eqb_neq in Hs. unfold DataCache.set.
    now rewrite lookup_insert_ne.
  - unfold DataCache.get. destruct (cache !! k) as [c |]; [| exact H].
    destruct (DataCache.expiry c <? now); [| exact H]. simpl.
    apply lookup_delete_None. now right.
  - unfold DataCache.clear. destruct (String.eqb k ""); [apply lookup_empty |].
    apply lookup_delete_None. now right.
  - apply lookup_empty.
  - unfold DataCache.cleanup. apply map_lookup_filter_None. now left.
Qed.

Lemma run_absent ops cache key :
  cache !! key = None ->
  Forall (fun top : Z * DataCache.Op V => DataCache.sets_key key top.2 = false) ops ->
  DataCache.run ops cache !! key = None.
Proof.
  intros H Hops. revert cache H.
  induction Hops as [| [t op] ops Hs _ IH]; intros cache H.
  - exact H.
  - simpl. apply IH. now apply step_absent.
Qed.

(** An entry that is still there after a call is the same entry, unless
    the call was a [set] of its key. *)
Lemma step_same_or_set now op cache key e e' :
  cache !! key = Some e -> DataCache.step now op cache !! key = Some e' ->
  e' = e \/ exists d m, op = DataCache.OpSet key d m.
Proof.
  intros H H'. destruct op as [k d m | k | [k |] |]; simpl in *.
  - destruct (decide (k = key)) as [-> | Hne]; [right; eauto |].
    unfold DataCache.set in H'. rewrite lookup_insert_ne in H' by exact Hne.
    left. congruence.
  - unfold DataCache.get in H'. destruct (cache !! k) as [c |]; simpl in H'.
    + destruct (DataCache.expiry c <? now); simpl in H'.
      * apply lookup_delete_Some in H' as [_ H']. left. congruence.
      * left. congruence.
    + left. congruence.
  - unfold DataCache.clear in H'. destruct (String.eqb k "").
    + now rewrite lookup_empty in H'.
    + apply lookup_delete_Some in H' as [_ H']. left. congruence.
  - now rewrite lookup_empty in H'.
  - unfold DataCache.cleanup in H'. apply map_lookup_filter_Some in H' as [H' _].
    left. congruence.
Qed.

End CacheFacts.

(** C7: after [set(key, value, m)] a [get(key)] made within [m] minutes of
    the set returns [value], also when other calls that neither set nor
    clear the key come in between; a [get] made after the expiry time
    returns null and removes the entry; a [get] of a key that was never set
    returns null; and an entry that survives a call keeps its value unless
    the call is a [set] of the same key. *)
Theorem DataCache_expiry {V : Type} (key : string) (value : V)
    (expiryMinutes : option Z) (now : Z)
    (cache : gmap string (DataCache.Entry V)) :
  let m := default 5 expiryMinutes in
  let cache' := DataCache.set now key value expiryMinutes cache in
  (forall t, now <= t <= now + m * 60 * 1000 ->
     DataCache.get t key cache' = (Some value, cache'))
  /\ (forall t ops,
        Forall (fun top : Z * DataCache.Op V =>
                  top.1 <= now + m * 60 * 1000
                  /\ DataCache.sets_key key top.2 = false
                  /\ DataCache.clears_key key top.2 = false) ops ->
        t <= now + m * 60 * 1000 ->
        (DataCache.get t key (DataCache.run ops cache')).1 = Some value)
  /\ (forall t, now + m * 60 * 1000 < t ->
        DataCache.get t key cache' = (None, delete key cache')
        /\ (DataCache.get t key cache').2 !! key = None)
  /\ (forall t ops,
        Forall (fun top : Z * DataCache.Op V =>
                  DataCache.sets_key key top.2 = false) ops ->
        (DataCache.get t key (DataCache.run ops ∅)).1 = None)
  /\ (forall t (op : DataCache.Op V) (c : gmap string (DataCache.Entry V)) e e',
        c !! key = Some e -> DataCache.step t op c !! key = Some e' ->
        e' = e \/ exists d m', op = DataCache.OpSet key d m').
Proof.
  intros m cache'.
  set (e := {| DataCache.data := value; DataCache.expiry := now + m * 60 * 1000 |}).
  assert (He : cache' !! key = Some e) by apply lookup_insert_eq.
  split; [| split; [| split; [| split]]].
  - intros t Ht. rewrite (get_hit t key cache' e He); [reflexivity | simpl; lia].
  - intros t ops Hops Ht.
    rewrite (get_hit t key _ e); [reflexivity | | simpl; lia].
    apply run_keeps; assumption.
  - intros t Ht.
    rewrite (get_expired t key cache' e He) by (simpl; lia).
    split; [reflexivity | apply lookup_delete_eq].
  - intros t ops Hops. rewrite get_miss; [reflexivity |].
    apply run_absent; [apply lookup_empty | assumption].
  - intros t op c e0 e' H H'. eapply step_same_or_set; eassumption.
Qed.

Lemma DataCache_expiry_witness :
  DataCache.get 120000 "analytics"
    (DataCache.set 0 "analytics" 7%nat (Some 2) ∅)
  = (Some 7%nat, DataCache.set 0 "analytics" 7%nat (Some 2) ∅)
  /\ (DataCache.get 120001 "analytics"
        (DataCache.set 0 "analytics" 7%nat (Some 2) ∅)).1 = None.
Proof.
  pose proof (DataCache_expiry "analytics" 7%nat (Some 2) 0 ∅) as H.
  simpl in H. destruct H as (H1 & _ & H3 & _).
  split.
  - apply H1. lia.
  - rewrite (proj1 (H3 120001 ltac:(lia))). reflexivity.
Defined.

(** ** Error handling *)

(** C6, as the code has it: for an error whose message contains
    'Unauthorized' or '401' the handler shows no error message and starts
    the logout, which clears the user, the profile and the token and returns
    to the login view once the sign-out call of the auth service has
    resolved, and which leaves the state as it is when that call rejects;
    for every other error that carries a message exactly one message is
    shown, the state is untouched and no request is issued again. *)
Theorem handle_unauthorized_or_message (error : JSError) (context : string)
    (st : AppState) (m : string) :
  err_message error = Some m ->
  (ErrorHandler.is_unauthorized m = true ->
     ErrorHandler.handle true error context st
     = (signedOut,
        [ConsoleError (context +:+ " error:"); SupabaseSignOut; ShowLoginPage;
         HideError; ShowSuccess "Logged out successfully"],
        Returns tt)
     /\ ErrorHandler.handle false error context st
        = (st,
           [ConsoleError (context +:+ " error:"); SupabaseSignOut;
            ConsoleError "Logout error:"],
           Returns tt))
  /\ (ErrorHandler.is_unauthorized m = false ->
      forall signOut_resolves,
        ErrorHandler.handle signOut_resolves error context st
        = (st,
           [ConsoleError (context +:+ " error:");
            ShowError (ErrorHandler.pick_message m)],
           Returns tt)).
Proof.
  intros Hm. unfold ErrorHandler.handle. rewrite Hm.
  split; intros Hu; rewrite Hu.
  - split; reflexivity.
  - intros b. reflexivity.
Qed.

Lemma handle_unauthorized_or_message_witness :
  ErrorHandler.handle true unauthorized401 "API" (signedInAs ani)
  = (signedOut,
     [ConsoleError "API error:"; SupabaseSignOut; ShowLoginPage; HideError;
      ShowSuccess "Logged out successfully"],
     Returns tt)
  /\ ErrorHandler.handle true (mkError "Request failed with status 404") "API"
       (signedInAs ani)
     = (signedInAs ani,
        [ConsoleError "API error:"; ShowError "Resource not found."],
        Returns tt).
Proof.
  split.
  - apply (proj1 (handle_unauthorized_or_message unauthorized401 "API"
                    (signedInAs ani) "Request failed with status 401" eq_refl)).
    reflexivity.
  - apply (proj2 (handle_unauthorized_or_message
                    (mkError "Request failed with status 404") "API"
                    (signedInAs ani) "Request failed with status 404" eq_refl)).
    reflexivity.
Defined.

(** C6 does not hold as stated: when the sign-out call rejects, a 401 error
    leaves the user, the profile and the token in the state and the login
    view is not shown; and an error value without a message makes the
    handler throw before any message is shown. *)
Lemma handle_unauthorized_counterexample :
  ErrorHandler.is_unauthorized "Request failed with status 401" = true
  /\ ErrorHandler.handle false unauthorized401 "API" (signedInAs ani)
     = (signedInAs ani,
        [ConsoleError "API error:"; SupabaseSignOut; ConsoleError "Logout error:"],
        Returns tt)
  /\ app_accessToken
       (ErrorHandler.handle false unauthorized401 "API" (signedInAs ani)).1.1
     = Some "token"
  /\ ErrorHandler.handle true withoutMessage "API" (signedInAs ani)
     = (signedInAs ani, [ConsoleError "API error:"],
        Throws (mkError "Cannot read properties of undefined (reading 'includes')")).
Proof. repeat split. Qed.

(** ** Sign-in *)

(** In the provider component a sign-in with accepted credentials returns
    the user exactly when the profile exists and is active, and otherwise
    signs the user out again, as long as the profile read and the sign-out
    themselves succeed. *)
Lemma AuthProvider_signIn_active_only (env : SignInEnv) (email password : string)
    (s : Session) (uid : string) :
  signInWithEmailAndPassword env email password = inl uid ->
  signOut_outcome env = None ->
  (forall e, getDoc_users env uid <> DocFails e) ->
  ((AuthProvider.signIn env email password s).2 = AuthProvider.SignedIn uid
   <-> exists p, getDoc_users env uid = DocFound p /\ user_status p = active)
  /\ ((forall p, getDoc_users env uid = DocFound p -> user_status p <> active) ->
      auth_currentUser (AuthProvider.signIn env email password s).1 = None
      /\ exists msg, (AuthProvider.signIn env email password s).2
                     = AuthProvider.SignInError msg).
Proof.
  intros Hin Hout Hread. unfold AuthProvider.signIn, AuthProvider.signOut_then_error.
  rewrite Hin, Hout.
  destruct (getDoc_users env uid) as [p | | e] eqn:Hdoc.
  - destruct (decide (user_status p = active)) as [Ha | Hna]; simpl.
    + split; [split; eauto |]. intros H. now destruct (H p eq_refl).
    + split; [| eauto]. split; [discriminate |].
      intros (p' & [= <-] & Ha). contradiction.
  - simpl. split; [| eauto]. split; [discriminate |].
    intros (p' & [=] & _).
  - now destruct (Hread e).
Qed.

(** [AuthService.signIn] signs an inactive user out again. *)
Lemma AuthService_signIn_inactive (env : SignInEnv) (email password : string)
    (s : Session) (uid : string) (p : User) :
  signInWithEmailAndPassword env email password = inl uid ->
  signOut_outcome env = None ->
  getDoc_users env uid = DocFound p -> user_status p <> active ->
  auth_currentUser (AuthService.signIn env email password s).1 = None.
Proof.
  intros Hin Hout Hdoc Hna. unfold AuthService.signIn, AuthService.getUserProfile.
  rewrite Hin, Hdoc, Hout.
  destruct (decide (user_status p = active)); [contradiction | reflexivity].
Qed.

(** [AuthService.signIn] with a missing profile throws, and the session
    that the auth service has just opened is still there. *)
Lemma AuthService_signIn_missing (env : SignInEnv) (email password : string)
    (s : Session) (uid : string) :
  signInWithEmailAndPassword env email password = inl uid ->
  getDoc_users env uid = DocMissing ->
  AuthService.signIn env email password s
  = ({| auth_currentUser := Some uid; held_profile := held_profile s |},
     Throws (mkError "User profile not found")).
Proof.
  intros Hin Hdoc. unfold AuthService.signIn, AuthService.getUserProfile.
  now rewrite Hin, Hdoc.
Qed.

(** C9 fails in [AuthService.signIn]: at every sign-in whose credentials
    are accepted and whose profile document is missing it throws but keeps
    the session that the auth service has just opened, whereas the
    provider's [signIn] signs the user out again and keeps no session. *)
Theorem AuthService_signIn_missing_profile_keeps_session (env : SignInEnv)
    (email password : string) (s : Session) (uid : string) :
  signInWithEmailAndPassword env email password = inl uid ->
  getDoc_users env uid = DocMissing ->
  signOut_outcome env = None ->
  AuthService.signIn env email password s
  = ({| auth_currentUser := Some uid; held_profile := held_profile s |},
     Throws (mkError "User profile not found"))
  /\ AuthProvider.signIn env email password s
     = ({| auth_currentUser := None; held_profile := held_profile s |},
        AuthProvider.SignInError
          "User profile not found. Please contact an administrator.").
Proof.
  intros Hin Hdoc Hout. split.
  - now apply AuthService_signIn_missing.
  - unfold AuthProvider.signIn, AuthProvider.signOut_then_error.
    now rewrite Hin, Hdoc, Hout.
Qed.

Lemma AuthService_signIn_missing_profile_keeps_session_witness :
  AuthService.signIn acceptedWithoutProfile "ani@riceshop.com" "secret" noSession
  = ({| auth_currentUser := Some "u-ani"; held_profile := None |},
     Throws (mkError "User profile not found"))
  /\ AuthProvider.signIn acceptedWithoutProfile "ani@riceshop.com" "secret" noSession
     = ({| auth_currentUser := None; held_profile := None |},
        AuthProvider.SignInError
          "User profile not found. Please contact an administrator.").
Proof.
  apply (AuthService_signIn_missing_profile_keeps_session
           acceptedWithoutProfile "ani@riceshop.com" "secret" noSession "u-ani");
    reflexivity.
Defined.

(** ** The order of the doubles *)

Lemma digits2_pos_bounds (m : positive) :
  2 ^ (Z.pos (digits2_pos m) - 1) <= Z.pos m < 2 ^ Z.pos (digits2_pos m).
Proof.
  induction m as [m IH | m IH |]; simpl digits2_pos.
  - rewrite Pos2Z.inj_succ.
    replace (Z.succ (Z.pos (digits2_pos m)) - 1)
      with (Z.succ (Z.pos (digits2_pos m) - 1)) by lia.
    rewrite !Z.pow_succ_r by lia. lia.
  - rewrite Pos2Z.inj_succ.
    replace (Z.succ (Z.pos (digits2_pos m)) - 1)
      with (Z.succ (Z.pos (digits2_pos m) - 1)) by lia.
    rewrite !Z.pow_succ_r by lia. lia.
  - simpl. lia.
Qed.

Lemma shr_1_m (mrs : shr_record) :
  0 <= shr_m mrs -> shr_m (shr_1 mrs) = shr_m mrs / 2.
Proof.
  destruct mrs as [m r s]. cbn [shr_m]. intros Hm.
  destruct m as [| [p | p |] | p]; cbn [shr_1 shr_m]; try lia.
  - reflexivity.
  - apply Z.div_unique with (r := 1); lia.
  - apply Z.div_unique with (r := 0); lia.
  - reflexivity.
Qed.

Lemma iter_shr_1_m (p : positive) (mrs : shr_record) :
  0 <= shr_m mrs -> shr_m (SpecFloat.iter_pos shr_1 p mrs) = shr_m mrs / 2 ^ Z.pos p.
Proof.
  revert mrs. induction p as [p IH | p IH |]; intros mrs Hm; simpl SpecFloat.iter_pos.
  - assert (H1 : 0 <= shr_m (shr_1 mrs)).
    { rewrite shr_1_m by exact Hm. apply Z.div_pos; lia. }
    assert (H2 : 0 <= shr_m (SpecFloat.iter_pos shr_1 p (shr_1 mrs))).
    { rewrite IH by exact H1. apply Z.div_pos; [exact H1 | lia]. }
    rewrite IH by exact H2. rewrite IH by exact H1. rewrite shr_1_m by exact Hm.
    rewrite !Z.div_div by lia. f_equal.
    replace (Z.pos p~1) with (1 + Z.pos p + Z.pos p) by lia.
    rewrite !Z.pow_add_r by lia. lia.
  - assert (H2 : 0 <= shr_m (SpecFloat.iter_pos shr_1 p mrs)).
    { rewrite IH by exact Hm. apply Z.div_pos; [exact Hm | lia]. }
    rewrite IH by exact H2. rewrite IH by exact Hm.
    rewrite !Z.div_div by lia. f_equal.
    replace (Z.pos p~0) with (Z.pos p + Z.pos p) by lia.
    rewrite !Z.pow_add_r by lia. lia.
  - rewrite shr_1_m by exact Hm. reflexivity.
Qed.

Lemma shr_record_of_loc_m (m : Z) (l : location) : shr_m (shr_record_of_loc m l) = m.
Proof. destruct l as [| []]; reflexivity. Qed.

(** Rounding a positive integer at an exponent that a double can have
    never gives 0. *)
Lemma shr_fexp_pos (m e : Z) (l : location) :
  0 < m -> emin64 <= e ->
  0 < shr_m (fst (shr_fexp prec emax m e l)) /\ emin64 <= snd (shr_fexp prec emax m e l).
Proof.
  intros Hm He. unfold shr_fexp, shr.
  destruct m as [| m |]; try lia. simpl Zdigits2.
  pose proof (digits2_pos_bounds m) as Hd.
  set (d := Z.pos (digits2_pos m)) in *.
  unfold fexp, SpecFloat.emin. change (3 - emax - prec) with emin64.
  destruct (Z.max (d + e - prec) emin64 - e) as [| p |] eqn:Hn; simpl.
  - rewrite shr_record_of_loc_m. lia.
  - rewrite iter_shr_1_m by (rewrite shr_record_of_loc_m; lia).
    rewrite shr_record_of_loc_m. split; [| lia].
    assert (Hp : Z.pos p = d - prec) by (unfold prec in *; lia).
    assert (Hle : 2 ^ Z.pos p <= Z.pos m).
    { transitivity (2 ^ (d - 1)); [| lia].
      apply Z.pow_le_mono_r; unfold prec in *; lia. }
    apply Z.div_str_pos. lia.
  - rewrite shr_record_of_loc_m. lia.
Qed.

Lemma round_nearest_even_ge (m : Z) (l : location) : m <= round_nearest_even m l.
Proof.
  unfold round_nearest_even. destruct l as [| []]; try lia.
  destruct (Z.even m); lia.
Qed.

Lemma binary_round_aux_sign (s : bool) (m e : Z) (l : location) :
  0 < m -> emin64 <= e -> signed_nonzero s (binary_round_aux prec emax s m e l).
Proof.
  intros Hm He. unfold binary_round_aux.
  pose proof (shr_fexp_pos m e l Hm He) as [H1 H2].
  destruct (shr_fexp prec emax m e l) as [mrs' e']. cbn [fst snd] in H1, H2.
  pose proof (round_nearest_even_ge (shr_m mrs') (loc_of_shr_record mrs')) as Hr.
  pose proof (shr_fexp_pos (round_nearest_even (shr_m mrs') (loc_of_shr_record mrs'))
                e' loc_Exact ltac:(lia) H2) as [H3 H4].
  destruct (shr_fexp prec emax _ e' loc_Exact) as [mrs'' e'']. cbn [fst snd] in H3, H4.
  destruct (shr_m mrs'') as [| p | p]; try lia.
  destruct (e'' <=? emax - prec); constructor.
Qed.

Lemma binary_round_sign (s : bool) (m : positive) (e : Z) :
  emin64 <= e -> signed_nonzero s (binary_round prec emax s m e).
Proof.
  intros He. unfold binary_round.
  destruct (shl_align m e (fexp prec emax (Z.pos (digits2_pos m) + e))) as [mz ez] eqn:E.
  apply binary_round_aux_sign; [lia |].
  unfold shl_align in E.
  assert (Hf : emin64 <= fexp prec emax (Z.pos (digits2_pos m) + e)).
  { unfold fexp, SpecFloat.emin. change (3 - emax - prec) with emin64. lia. }
  destruct (fexp prec emax (Z.pos (digits2_pos m) + e) - e); injection E as <- <-;
    first [exact He | exact Hf].
Qed.

(** The result of a rounded difference has the sign of the exact
    difference. *)
Lemma binary_normalize_sign (m e : Z) :
  emin64 <= e ->
  SFltb (S754_zero false) (binary_normalize prec emax m e false) = (0 <? m).
Proof.
  intros He. destruct m as [| p | p]; simpl binary_normalize.
  - reflexivity.
  - destruct (binary_round_sign false p e He); reflexivity.
  - destruct (binary_round_sign true p e He); reflexivity.
Qed.

Lemma iter_xO (m d : positive) : Z.pos (Pos.iter xO m d) = Z.pos m * 2 ^ Z.pos d.
Proof.
  induction d as [| d IH] using Pos.peano_ind.
  - simpl. lia.
  - rewrite Pos.iter_succ, Pos2Z.inj_xO, IH, Pos2Z.inj_succ, Z.pow_succ_r by lia. lia.
Qed.

Lemma shl_align_m (m : positive) (e e' : Z) :
  e' <= e -> Z.pos (fst (shl_align m e e')) = Z.pos m * 2 ^ (e - e').
Proof.
  intros Hle. unfold shl_align.
  destruct (e' - e) as [| d | d] eqn:E; cbn [fst].
  - replace (e - e') with 0 by lia. lia.
  - lia.
  - rewrite iter_xO. f_equal. f_equal. lia.
Qed.

Lemma valid_finite (s : bool) (m : positive) (e : Z) :
  valid_binary (S754_finite s m e) = true ->
  emin64 <= e <= 971
  /\ Z.pos (digits2_pos m) <= 53
  /\ (Z.pos (digits2_pos m) = 53 \/ e = emin64).
Proof.
  simpl. unfold bounded, canonical_mantissa, fexp, SpecFloat.emin.
  change (3 - emax - prec) with emin64. unfold prec, emax.
  intros H. apply andb_prop in H as [H1 H2].
  apply Z.eqb_eq in H1. apply Z.leb_le in H2. unfold emin64 in *. lia.
Qed.

Lemma finite_bounds (s : bool) (m : positive) (e : Z) :
  valid_binary (S754_finite s m e) = true ->
  0 < Z.pos m * 2 ^ (e - emin64) < 2 ^ 2098.
Proof.
  intros H. apply valid_finite in H as (He & Hd & _).
  pose proof (digits2_pos_bounds m) as [_ Hm].
  assert (H53 : Z.pos m < 2 ^ 53).
  { eapply Z.lt_le_trans; [exact Hm |]. apply Z.pow_le_mono_r; lia. }
  assert (Hp : 0 < 2 ^ (e - emin64)) by (apply Z.pow_pos_nonneg; unfold emin64 in *; lia).
  assert (Hq : 2 ^ (e - emin64) <= 2 ^ 2045).
  { apply Z.pow_le_mono_r; unfold emin64 in *; lia. }
  split; [lia |].
  replace (2 ^ 2098) with (2 ^ 53 * 2 ^ 2045) by (rewrite <- Z.pow_add_r by lia; reflexivity).
  apply Z.lt_le_trans with (2 ^ 53 * 2 ^ (e - emin64)).
  - apply Z.mul_lt_mono_pos_r; assumption.
  - apply Z.mul_le_mono_nonneg_l; [lia | exact Hq].
Qed.

Lemma magnitude_lt (m1 m2 : positive) (e1 e2 : Z) (s1 s2 : bool) :
  valid_binary (S754_finite s1 m1 e1) = true ->
  valid_binary (S754_finite s2 m2 e2) = true ->
  e1 < e2 ->
  Z.pos m1 * 2 ^ (e1 - emin64) < Z.pos m2 * 2 ^ (e2 - emin64).
Proof.
  intros H1 H2 Hlt.
  apply valid_finite in H1 as (He1 & Hd1 & _).
  apply valid_finite in H2 as (He2 & _ & Hn2).
  pose proof (digits2_pos_bounds m1) as [_ Hm1].
  pose proof (digits2_pos_bounds m2) as [Hm2 _].
  destruct Hn2 as [Hn2 | Hn2]; [| lia]. rewrite Hn2 in Hm2.
  assert (H53 : Z.pos m1 < 2 ^ 53).
  { eapply Z.lt_le_trans; [exact Hm1 |]. apply Z.pow_le_mono_r; lia. }
  replace (e2 - emin64) with ((e2 - e1) + (e1 - emin64)) by lia.
  rewrite Z.pow_add_r by lia.
  assert (Hq : 0 < 2 ^ (e1 - emin64)) by (apply Z.pow_pos_nonneg; lia).
  assert (Hk : 2 ^ 1 <= 2 ^ (e2 - e1)) by (apply Z.pow_le_mono_r; lia).
  change (2 ^ (53 - 1)) with 4503599627370496 in Hm2.
  change (2 ^ 53) with 9007199254740992 in H53.
  change (2 ^ 1) with 2 in Hk.
  rewrite Z.mul_assoc. apply Z.mul_lt_mono_pos_r; [exact Hq |]. nia.
Qed.

Lemma magnitude_compare (m1 m2 : positive) (e1 e2 : Z) (s1 s2 : bool) :
  valid_binary (S754_finite s1 m1 e1) = true ->
  valid_binary (S754_finite s2 m2 e2) = true ->
  match e1 ?= e2 with
  | Lt => Lt
  | Gt => Gt
  | Eq => Pos.compare_cont Eq m1 m2
  end
  = (Z.pos m1 * 2 ^ (e1 - emin64) ?= Z.pos m2 * 2 ^ (e2 - emin64)).
Proof.
  intros H1 H2. destruct (Z.compare_spec e1 e2) as [-> | Hlt | Hgt].
  - assert (Hq : 0 < 2 ^ (e2 - emin64)).
    { apply valid_finite in H2 as (He2 & _). apply Z.pow_pos_nonneg; lia. }
    change (Pos.compare_cont Eq m1 m2) with (Z.pos m1 ?= Z.pos m2).
    destruct (Z.compare_spec (Z.pos m1) (Z.pos m2)) as [E | E | E]; symmetry.
    + apply Z.compare_eq_iff. now rewrite E.
    + apply Z.compare_lt_iff. now apply Z.mul_lt_mono_pos_r.
    + apply Z.compare_gt_iff. now apply Z.mul_lt_mono_pos_r.
  - symmetry. apply Z.compare_lt_iff. eapply magnitude_lt; eassumption.
  - symmetry. apply Z.compare_gt_iff. eapply magnitude_lt; eassumption.
Qed.

(** Two doubles that are not NaN compare as their values do. *)
Lemma SFcompare_scaled (x y : spec_float) :
  valid_binary x = true -> valid_binary y = true ->
  x <> S754_nan -> y <> S754_nan ->
  SFcompare x y = Some (scaled x ?= scaled y).
Proof.
  intros Hx Hy Hnx Hny.
  destruct x as [sx | sx | | sx mx ex], y as [sy | sy | | sy my ey];
    try congruence; cbn [SFcompare scaled].
  - reflexivity.
  - destruct sy; reflexivity.
  - pose proof (finite_bounds sy my ey Hy). destruct sy; cbn [cond_Zopp]; f_equal; symmetry.
    + apply Z.compare_gt_iff. lia.
    + apply Z.compare_lt_iff. lia.
  - destruct sx; reflexivity.
  - destruct sx, sy; reflexivity.
  - pose proof (finite_bounds sy my ey Hy).
    destruct sx, sy; cbn [cond_Zopp]; f_equal; symmetry;
      first [apply Z.compare_lt_iff; lia | apply Z.compare_gt_iff; lia].
  - pose proof (finite_bounds sx mx ex Hx). destruct sx; cbn [cond_Zopp]; f_equal; symmetry.
    + apply Z.compare_lt_iff. lia.
    + apply Z.compare_gt_iff. lia.
  - pose proof (finite_bounds sx mx ex Hx).
    destruct sx, sy; cbn [cond_Zopp]; f_equal; symmetry;
      first [apply Z.compare_lt_iff; lia | apply Z.compare_gt_iff; lia].
  - pose proof (finite_bounds sx mx ex Hx). pose proof (finite_bounds sy my ey Hy).
    destruct sx, sy; cbn [cond_Zopp]; f_equal.
    + rewrite Z.compare_opp, (Z.compare_antisym (Z.pos mx * 2 ^ (ex - emin64))).
      rewrite <- (magnitude_compare mx my ex ey true true Hx Hy).
      destruct (ex ?= ey); reflexivity.
    + symmetry. apply Z.compare_lt_iff. lia.
    + symmetry. apply Z.compare_gt_iff. lia.
    + apply (magnitude_compare mx my ex ey false false Hx Hy).
Qed.

(** The difference of two doubles that are not NaN is positive exactly
    when the first is the larger one: it is rounded, but never to 0 or
    across 0. *)
Lemma SFsub_sign (x y : spec_float) :
  valid_binary x = true -> valid_binary y = true ->
  x <> S754_nan -> y <> S754_nan ->
  SFltb (S754_zero false) (SFsub prec emax x y) = (scaled y <? scaled x).
Proof.
  intros Hx Hy Hnx Hny.
  destruct x as [sx | sx | | sx mx ex], y as [sy | sy | | sy my ey];
    try congruence; cbn [SFsub scaled].
  - destruct sx, sy; reflexivity.
  - destruct sy; reflexivity.
  - pose proof (finite_bounds sy my ey Hy).
    destruct sy; cbn [cond_Zopp negb SFltb SFcompare]; symmetry.
    + apply Z.ltb_lt. lia.
    + apply Z.ltb_ge. lia.
  - destruct sx; reflexivity.
  - destruct sx, sy; reflexivity.
  - pose proof (finite_bounds sy my ey Hy).
    destruct sx, sy; cbn [cond_Zopp SFltb SFcompare]; symmetry;
      first [apply Z.ltb_lt; lia | apply Z.ltb_ge; lia].
  - pose proof (finite_bounds sx mx ex Hx).
    destruct sx; cbn [cond_Zopp SFltb SFcompare]; symmetry.
    + apply Z.ltb_ge. lia.
    + apply Z.ltb_lt. lia.
  - pose proof (finite_bounds sx mx ex Hx).
    destruct sx, sy; cbn [cond_Zopp negb SFltb SFcompare]; symmetry;
      first [apply Z.ltb_lt; lia | apply Z.ltb_ge; lia].
  - pose proof (valid_finite _ _ _ Hx) as (Hex & _).
    pose proof (valid_finite _ _ _ Hy) as (Hey & _).
    rewrite binary_normalize_sign by lia.
    rewrite (shl_align_m mx ex (Z.min ex ey)) by lia.
    rewrite (shl_align_m my ey (Z.min ex ey)) by lia.
    set (ez := Z.min ex ey).
    assert (Hq : 0 < 2 ^ (ez - emin64)) by (apply Z.pow_pos_nonneg; lia).
    replace (ex - emin64) with ((ex - ez) + (ez - emin64)) by lia.
    replace (ey - emin64) with ((ey - ez) + (ez - emin64)) by lia.
    rewrite !Z.pow_add_r by lia. rewrite !Z.mul_assoc.
    set (a := Z.pos mx * 2 ^ (ex - ez)). set (b := Z.pos my * 2 ^ (ey - ez)).
    set (q := 2 ^ (ez - emin64)) in *.
    destruct (Z.ltb_spec 0 (cond_Zopp sx a - cond_Zopp sy b)) as [H | H];
      symmetry; [apply Z.ltb_lt | apply Z.ltb_ge];
      destruct sx, sy; cbn [cond_Zopp] in *; nia.
Qed.

Lemma not_nan (x : float) : PrimFloat.is_nan x = false -> Prim2SF x <> S754_nan.
Proof.
  unfold PrimFloat.is_nan. rewrite FloatAxioms.eqb_spec. intros H E.
  rewrite E in H. discriminate.
Qed.

Lemma ltb_units (x y : float) :
  PrimFloat.is_nan x = false -> PrimFloat.is_nan y = false ->
  (x <? y)%float = (units x <? units y).
Proof.
  intros Hx Hy. rewrite ltb_spec. unfold SFltb, units.
  rewrite SFcompare_scaled by (try apply Prim2SF_valid; now apply not_nan).
  destruct (Z.compare_spec (scaled (Prim2SF x)) (scaled (Prim2SF y)));
    symmetry; [apply Z.ltb_ge | apply Z.ltb_lt | apply Z.ltb_ge]; lia.
Qed.

Lemma leb_units (x y : float) :
  PrimFloat.is_nan x = false -> PrimFloat.is_nan y = false ->
  (x <=? y)%float = (units x <=? units y).
Proof.
  intros Hx Hy. rewrite leb_spec. unfold SFleb, units.
  rewrite SFcompare_scaled by (try apply Prim2SF_valid; now apply not_nan).
  destruct (Z.compare_spec (scaled (Prim2SF x)) (scaled (Prim2SF y)));
    symmetry; [apply Z.leb_le | apply Z.leb_le | apply Z.leb_gt]; lia.
Qed.

Lemma sub_positive_units (x y : float) :
  PrimFloat.is_nan x = false -> PrimFloat.is_nan y = false ->
  (0 <? x - y)%float = (units y <? units x).
Proof.
  intros Hx Hy. rewrite ltb_spec, sub_spec.
  change (Prim2SF 0) with (S754_zero false).
  apply SFsub_sign; try apply Prim2SF_valid; now apply not_nan.
Qed.

(** An addition gives [-0] only when it starts from [-0]. *)
Lemma SFadd_not_negative_zero (x y : spec_float) :
  valid_binary x = true -> valid_binary y = true ->
  x <> S754_zero true -> SFadd prec emax x y <> S754_zero true.
Proof.
  intros Hx Hy Hnz.
  destruct x as [sx | sx | | sx mx ex], y as [sy | sy | | sy my ey]; cbn [SFadd];
    try discriminate.
  - destruct sx, sy; congruence.
  - destruct sx, sy; discriminate.
  - pose proof (valid_finite _ _ _ Hx) as (Hex & _).
    pose proof (valid_finite _ _ _ Hy) as (Hey & _).
    unfold binary_normalize.
    destruct (_ + _) as [| p | p]; [discriminate | |].
    + destruct (binary_round_sign false p (Z.min ex ey) ltac:(lia)); discriminate.
    + destruct (binary_round_sign true p (Z.min ex ey) ltac:(lia)); discriminate.
Qed.

(** The only falsy number that is neither NaN nor [-0] is [+0]. *)
Lemma falsy_zero (x : float) :
  PrimFloat.is_nan x = false -> Prim2SF x <> S754_zero true ->
  JS.falsy x = true -> x = 0%float.
Proof.
  intros Hnan Hnz. unfold JS.falsy. rewrite Hnan, orb_false_r.
  unfold PrimFloat.is_zero. rewrite FloatAxioms.eqb_spec.
  change (Prim2SF zero) with (S754_zero false).
  intros H. apply Prim2SF_inj. change (Prim2SF 0) with (S754_zero false).
  destruct (Prim2SF x) as [s | s | | s m e]; try discriminate.
  - destruct s; [congruence | reflexivity].
  - destruct s; discriminate.
  - destruct s; discriminate.
Qed.

Lemma addTo_add (running x : float) :
  PrimFloat.is_nan running = false -> Prim2SF running <> S754_zero true ->
  addTo running x = (running + x)%float.
Proof.
  intros Hnan Hnz. unfold addTo.
  destruct (JS.falsy running) eqn:E; [| reflexivity].
  now rewrite (falsy_zero running Hnan Hnz E).
Qed.

Lemma fold_addTo_add (l : list float) (start : float) :
  Prim2SF start <> S754_zero true ->
  (forall n, PrimFloat.is_nan (fold_left PrimFloat.add (firstn n l) start) = false) ->
  fold_left addTo l start = fold_left PrimFloat.add l start.
Proof.
  revert start. induction l as [| x l IH]; intros start Hnz Hnan; simpl.
  - reflexivity.
  - rewrite addTo_add; [| exact (Hnan 0%nat) | exact Hnz].
    apply IH.
    + rewrite add_spec. apply SFadd_not_negative_zero; try apply Prim2SF_valid.
      exact Hnz.
    + intros n. exact (Hnan (S n)).
Qed.

(** As long as no sum along the way is NaN, the running total is the plain
    sum from left to right. *)
Lemma runningTotal_plainSum (l : list float) :
  (forall n, PrimFloat.is_nan (plainSum (firstn n l)) = false) ->
  runningTotal l = plainSum l.
Proof.
  intros H. apply fold_addTo_add; [discriminate | exact H].
Qed.

(** On entries whose sales are numbers other than NaN, the comparison
    function of the top lists follows the order of the doubles. *)
Lemma bySalesDescending_key (a b : NameSales) :
  numericSales a -> numericSales b ->
  (bySalesDescending a b <= 0 <-> salesKey b <= salesKey a).
Proof.
  intros (x & Ha & Hx) (y & Hb & Hy).
  unfold bySalesDescending, salesKey, JS.compareResult. rewrite Ha, Hb. simpl.
  rewrite sub_positive_units by assumption.
  destruct (Z.ltb_spec (units x) (units y)) as [H | H].
  - split; lia.
  - split; [intros _; exact H |]. intros _. now destruct (_ <? 0)%float.
Qed.

Lemma atLeast_key (a b : NameSales) :
  numericSales a -> numericSales b ->
  salesKey b <= salesKey a -> atLeast (sales a) (sales b).
Proof.
  intros (x & Ha & Hx) (y & Hb & Hy). unfold salesKey, atLeast.
  rewrite Ha, Hb. intros H. rewrite leb_units by assumption. now apply Z.leb_le.
Qed.

(** ** Tables *)

Module ObjFacts.

Lemma own_set_eq o k v : Obj.own (Obj.set o k v) k = Some v.
Proof.
  induction o as [| [k' v'] o IH]; simpl.
  - now rewrite String.eqb_refl.
  - destruct (String.eqb k' k) eqn:E; simpl; rewrite E; [reflexivity | exact IH].
Qed.

Lemma own_set_ne o k k' v : k <> k' -> Obj.own (Obj.set o k v) k' = Obj.own o k'.
Proof.
  intros Hne. induction o as [| [k0 v0] o IH]; simpl.
  - apply String.eqb_neq in Hne. now rewrite Hne.
  - destruct (String.eqb k0 k) eqn:E; simpl.
    + apply String.eqb_eq in E. subst k0.
      apply String.eqb_neq in Hne. now rewrite Hne.
    + now rewrite IH.
Qed.

Lemma keys_set o k v :
  map fst (Obj.set o k v)
  = if existsb (fun k' => String.eqb k' k) (map fst o) then map fst o
    else map fst o ++ [k].
Proof.
  induction o as [| [k' v'] o IH]; simpl.
  - reflexivity.
  - destruct (String.eqb k' k) eqn:E; simpl; [reflexivity |].
    rewrite IH. now destruct (existsb _ (map fst o)).
Qed.

Lemma own_Some_In o k v : Obj.own o k = Some v -> In (k, v) o.
Proof.
  induction o as [| [k' v'] o IH]; simpl; [discriminate |].
  destruct (String.eqb k' k) eqn:E.
  - apply String.eqb_eq in E. intros [= ->]. left. now subst.
  - intros H. right. now apply IH.
Qed.

Lemma In_own o k v : NoDup (map fst o) -> In (k, v) o -> Obj.own o k = Some v.
Proof.
  induction o as [| [k' v'] o IH]; simpl; [tauto |].
  intros Hnd [Heq | Hin].
  - injection Heq as -> ->. now rewrite String.eqb_refl.
  - apply NoDup_cons in Hnd as [Hnotin Hnd].
    destruct (String.eqb k' k) eqn:E.
    + apply String.eqb_eq in E. subst k'. exfalso. apply Hnotin.
      apply list_elem_of_In. change k with (fst (k, v)). now apply in_map.
    + now apply IH.
Qed.

Lemma filter_split {A : Type} (f : A -> bool) (l : list A) :
  Permutation (List.filter f l ++ List.filter (fun x => negb (f x)) l) l.
Proof.
  induction l as [| x l IH]; simpl.
  - reflexivity.
  - destruct (f x); simpl.
    + now apply perm_skip.
    + rewrite <- Permutation_middle. now apply perm_skip.
Qed.

Lemma entries_perm o : Permutation (Obj.entries o) o.
Proof.
  unfold Obj.entries. rewrite sort_perm. apply filter_split.
Qed.

Lemma entries_In o e : In e (Obj.entries o) <-> In e o.
Proof.
  split; apply Permutation_in; [| symmetry]; apply entries_perm.
Qed.

(** Without array-index keys the entries come in insertion order. *)
Lemma entries_no_index o :
  Forall (fun kv => Obj.is_index kv = false) o -> Obj.entries o = o.
Proof.
  intros H. unfold Obj.entries.
  assert (H1 : List.filter Obj.is_index o = []).
  { induction H as [| kv o Hkv _ IH]; simpl; [reflexivity |]. now rewrite Hkv. }
  assert (H2 : List.filter (fun kv => negb (Obj.is_index kv)) o = o).
  { clear H1. induction H as [| kv o Hkv _ IH]; simpl; [reflexivity |].
    rewrite Hkv. simpl. now rewrite IH. }
  now rewrite H1, H2.
Qed.

Lemma parse_digits_dash s t acc :
  Obj.parse_digits (s +:+ String "-" t) acc = None.
Proof.
  revert acc. induction s as [| c s IH]; intros acc; simpl.
  - reflexivity.
  - destruct (Ascii.is_nat c); [apply IH | reflexivity].
Qed.

(** A key that [Object.prototype] does not have is read from the own
    properties alone, and it is not [__proto__]. *)
Lemma get_plain o k : Obj.inherited k = false -> Obj.get o k = Obj.own o k.
Proof. intros H. unfold Obj.get. rewrite H. now destruct (Obj.own o k). Qed.

Lemma plain_not_proto k : Obj.inherited k = false -> k <> "__proto__".
Proof. intros H ->. discriminate. Qed.

Lemma own_add_eq o k x :
  k <> "__proto__" ->
  Obj.own (Obj.add o k x) k = Some (JS.plus (JS.or0 (Obj.get o k)) x).
Proof.
  intros Hk. unfold Obj.add, Obj.assign.
  apply String.eqb_neq in Hk. rewrite Hk. apply own_set_eq.
Qed.

Lemma own_add_ne o k k' x : k <> k' -> Obj.own (Obj.add o k x) k' = Obj.own o k'.
Proof.
  intros Hne. unfold Obj.add, Obj.assign.
  destruct (String.eqb k "__proto__"); [reflexivity | now apply own_set_ne].
Qed.

Lemma keys_add o k x :
  map fst (Obj.add o k x)
  = if String.eqb k "__proto__" then map fst o
    else if existsb (fun k' => String.eqb k' k) (map fst o) then map fst o
         else map fst o ++ [k].
Proof.
  unfold Obj.add, Obj.assign.
  destruct (String.eqb k "__proto__"); [reflexivity | apply keys_set].
Qed.

End ObjFacts.

Lemma assignable_plain (ks : list string) :
  (forall k, In k ks -> Obj.inherited k = false) -> assignable ks = ks.
Proof.
  induction ks as [| k ks IH]; simpl; intros H; [reflexivity |].
  assert (Hk : String.eqb k "__proto__" = false).
  { apply String.eqb_neq, ObjFacts.plain_not_proto, H. now left. }
  rewrite Hk. simpl. f_equal. apply IH. intros k' Hk'. apply H. now right.
Qed.

Lemma assignable_In (ks : list string) (k : string) :
  In k (assignable ks) -> In k ks.
Proof. unfold assignable. rewrite filter_In. tauto. Qed.

Section Accumulation.

Context {A : Type} (key : A -> string) (val : A -> float).

Lemma filter_existsb_false (f : A -> bool) (l : list A) :
  existsb f l = false -> List.filter f l = [].
Proof.
  induction l as [| x l IH]; simpl; [reflexivity |].
  destruct (f x); simpl; [discriminate | exact IH].
Qed.

(** The number that a table holds under a key, 0 when it holds none. *)
Let held (o : list (string * JSValue)) (k : string) : float :=
  match Obj.own o k with
  | Some (Num a) => a
  | _ => 0%float
  end.

(** What the table holds under a key after the pass, for a key that
    [Object.prototype] does not have and under which the table held a
    number or nothing before. *)
Lemma own_addAllBy (l : list A) (o : list (string * JSValue)) (k : string) :
  Obj.inherited k = false ->
  (forall v, Obj.own o k = Some v -> exists a, v = Num a) ->
  Obj.own (addAllBy key val l o) k
  = if existsb (fun x => String.eqb (key x) k) l
    then Some (Num (fold_left addTo
                      (map val (List.filter (fun x => String.eqb (key x) k) l))
                      (held o k)))
    else Obj.own o k.
Proof.
  intros Hplain. revert o. induction l as [| x l IH]; intros o Hnum; simpl.
  - reflexivity.
  - unfold addAllBy in *. simpl.
    destruct (String.eqb (key x) k) eqn:E; simpl.
    + apply String.eqb_eq in E.
      assert (Hown : Obj.own (Obj.add o (key x) (val x)) k
                     = Some (Num (addTo (held o k) (val x)))).
      { rewrite E, ObjFacts.own_add_eq by now apply ObjFacts.plain_not_proto.
        rewrite ObjFacts.get_plain by exact Hplain. unfold held.
        destruct (Obj.own o k) as [v |] eqn:Hv; [| reflexivity].
        destruct (Hnum v eq_refl) as [a ->]. unfold addTo. simpl.
        now destruct (JS.falsy a). }
      rewrite IH by (intros v Hv; rewrite Hown in Hv; injection Hv as <-; eauto).
      unfold held at 1. rewrite Hown.
      destruct (existsb _ l) eqn:Ex; [reflexivity |].
      now rewrite (filter_existsb_false _ _ Ex).
    + apply String.eqb_neq in E.
      rewrite IH by (intros v; rewrite ObjFacts.own_add_ne by exact E; apply Hnum).
      unfold held. now rewrite ObjFacts.own_add_ne by exact E.
Qed.

Lemma keys_addAllBy (l : list A) (o : list (string * JSValue)) :
  map fst (addAllBy key val l o) = firstSeen (assignable (map key l)) (map fst o).
Proof.
  revert o. induction l as [| x l IH]; intros o; simpl.
  - reflexivity.
  - unfold addAllBy, firstSeen in *. simpl. rewrite IH, ObjFacts.keys_add.
    now destruct (String.eqb (key x) "__proto__").
Qed.

End Accumulation.

Lemma existsb_eqb_In (seen : list string) (k : string) :
  existsb (fun k' => String.eqb k' k) seen = true <-> In k seen.
Proof.
  rewrite existsb_exists. split.
  - intros (k' & Hin & E). apply String.eqb_eq in E. now subst.
  - intros Hin. exists k. split; [exact Hin | apply String.eqb_refl].
Qed.

Lemma firstSeen_NoDup (ks seen : list string) :
  NoDup seen -> NoDup (firstSeen ks seen).
Proof.
  revert seen. induction ks as [| k ks IH]; intros seen Hnd; simpl.
  - exact Hnd.
  - unfold firstSeen in *. simpl. apply IH.
    destruct (existsb _ seen) eqn:E; [exact Hnd |].
    apply NoDup_app. split; [exact Hnd |]. split.
    + intros x Hx Hx1. apply list_elem_of_singleton in Hx1. subst x.
      apply list_elem_of_In in Hx. apply existsb_eqb_In in Hx. congruence.
    + apply NoDup_singleton.
Qed.

Lemma firstSeen_In (ks seen : list string) (k : string) :
  In k (firstSeen ks seen) <-> In k seen \/ In k ks.
Proof.
  revert seen. induction ks as [| k0 ks IH]; intros seen; simpl.
  - tauto.
  - unfold firstSeen in *. simpl. rewrite IH.
    destruct (existsb _ seen) eqn:E.
    + apply existsb_eqb_In in E. split; [tauto |].
      intros [H | [<- | H]]; tauto.
    + rewrite in_app_iff. simpl. tauto.
Qed.

Lemma addAllBy_NoDup {A : Type} (key : A -> string) (val : A -> float) (l : list A) :
  NoDup (map fst (addAllBy key val l [])).
Proof. rewrite keys_addAllBy. apply firstSeen_NoDup. constructor. Qed.

(** When no key of the pass is a name that [Object.prototype] has, the
    table holds, for every key that occurs and for no other, the running
    total of the values filed under it. *)
Lemma addAllBy_In {A : Type} (key : A -> string) (val : A -> float) (l : list A)
    (k : string) (v : JSValue) :
  (forall x, In x l -> Obj.inherited (key x) = false) ->
  In (k, v) (addAllBy key val l [])
  <-> (exists x, In x l /\ key x = k)
      /\ v = Num (runningTotal
                    (map val (List.filter (fun x => String.eqb (key x) k) l))).
Proof.
  intros Hplain.
  assert (Hown : forall x, In x l ->
            Obj.own (addAllBy key val l []) (key x)
            = Some (Num (runningTotal
                 (map val (List.filter (fun y => String.eqb (key y) (key x)) l))))).
  { intros x Hx. rewrite own_addAllBy; [| now apply Hplain | discriminate].
    assert (Ex : existsb (fun y => String.eqb (key y) (key x)) l = true).
    { apply existsb_exists. exists x. split; [exact Hx | apply String.eqb_refl]. }
    now rewrite Ex. }
  split.
  - intros Hin.
    assert (Hk : In k (map fst (addAllBy key val l []))).
    { change k with (fst (k, v)). now apply in_map. }
    rewrite keys_addAllBy in Hk. apply firstSeen_In in Hk as [[] | Hk].
    apply assignable_In, in_map_iff in Hk as (x & <- & Hx).
    split; [eauto |].
    apply ObjFacts.In_own in Hin; [| apply addAllBy_NoDup].
    rewrite (Hown x Hx) in Hin. now injection Hin as <-.
  - intros [(x & Hx & <-) ->]. apply ObjFacts.own_Some_In. now apply Hown.
Qed.

(** ** Month keys *)

Lemma string_length_app (s t : string) :
  String.length (s +:+ t) = (String.length s + String.length t)%nat.
Proof. induction s as [| c s IH]; simpl; [reflexivity | now rewrite IH]. Qed.

Lemma string_app_nil (t : string) : "" +:+ t = t.
Proof. reflexivity. Qed.

Lemma string_app_cons (c : ascii) (s t : string) :
  String c s +:+ t = String c (s +:+ t).
Proof. reflexivity. Qed.

Lemma string_app_inj_suffix (s1 s2 t1 t2 : string) :
  String.length t1 = String.length t2 ->
  s1 +:+ t1 = s2 +:+ t2 -> s1 = s2 /\ t1 = t2.
Proof.
  revert s2. induction s1 as [| a s1 IH]; intros [| b s2] Hlen H;
    rewrite ?string_app_nil, ?string_app_cons in H.
  - now split.
  - exfalso. rewrite H in Hlen. simpl in Hlen.
    rewrite string_length_app in Hlen. lia.
  - exfalso. rewrite <- H in Hlen. simpl in Hlen.
    rewrite string_length_app in Hlen. lia.
  - injection H as -> H. destruct (IH s2 Hlen H) as [-> ->]. now split.
Qed.

Lemma monthKey_LocalDate (y : Z) (m : Month) :
  monthKey (LocalDate y m) = pretty y +:+ monthSuffix m.
Proof. reflexivity. Qed.

Lemma monthSuffix_length (m : Month) : String.length (monthSuffix m) = 3%nat.
Proof. destruct m; reflexivity. Qed.

Lemma monthSuffix_inj (m m' : Month) : monthSuffix m = monthSuffix m' -> m = m'.
Proof. destruct m, m'; intros H; try reflexivity; vm_compute in H; discriminate. Qed.

(** A month key names one calendar month. *)
Lemma monthKey_inj (d d' : JSDate) : monthKey d = monthKey d' -> d = d'.
Proof.
  assert (Hinvalid : forall y m, monthKey (LocalDate y m) <> monthKey InvalidDate).
  { intros y m H. rewrite monthKey_LocalDate in H.
    change (monthKey InvalidDate) with ("NaN-" +:+ "NaN") in H.
    apply string_app_inj_suffix in H as [_ H];
      [| now rewrite monthSuffix_length].
    destruct m; vm_compute in H; discriminate. }
  destruct d as [| y m], d' as [| y' m']; intros H.
  - reflexivity.
  - symmetry in H. now apply Hinvalid in H.
  - now apply Hinvalid in H.
  - rewrite !monthKey_LocalDate in H.
    apply string_app_inj_suffix in H as [Hy Hm];
      [| now rewrite !monthSuffix_length].
    apply (inj pretty) in Hy. apply monthSuffix_inj in Hm. now subst.
Qed.

(** A month key is never an array index. *)
Lemma monthKey_not_index (d : JSDate) : Obj.array_index (monthKey d) = None.
Proof.
  destruct d as [| y m]; [reflexivity |].
  rewrite monthKey_LocalDate. unfold Obj.array_index, monthSuffix.
  now rewrite ObjFacts.parse_digits_dash.
Qed.

Lemma includes_dash (s t : string) : JS.includes (s +:+ String "-" t) "-" = true.
Proof.
  induction s as [| c s IH].
  - rewrite string_app_nil. simpl. now destruct t.
  - rewrite string_app_cons. simpl JS.includes. rewrite IH. apply orb_true_r.
Qed.

Lemma inherited_no_dash (k : string) :
  Obj.inherited k = true -> JS.includes k "-" = false.
Proof.
  unfold Obj.inherited. rewrite existsb_exists. intros (k' & Hin & E).
  apply String.eqb_eq in E. subst k'. simpl in Hin.
  repeat (destruct Hin as [<- | Hin]; [reflexivity |]). destruct Hin.
Qed.

(** A month key is never the name of a property of [Object.prototype]. *)
Lemma monthKey_plain (d : JSDate) : Obj.inherited (monthKey d) = false.
Proof.
  destruct (Obj.inherited (monthKey d)) eqn:E; [| reflexivity].
  apply inherited_no_dash in E.
  destruct d as [| y m]; [discriminate |].
  rewrite monthKey_LocalDate in E. unfold monthSuffix in E.
  now rewrite includes_dash in E.
Qed.

(** ** Sales by month *)

Section MonthlySales.

Variable newDate : string -> JSDate.

Lemma accumulateSalesByMonth_addAllBy (transactions : list Transaction) :
  accumulateSalesByMonth newDate transactions
  = addAllBy (fun t => monthKey (newDate (timestamp t))) total transactions [].
Proof. reflexivity. Qed.

Lemma filter_month_key (d : JSDate) (transactions : list Transaction) :
  List.filter (fun t => String.eqb (monthKey (newDate (timestamp t))) (monthKey d))
              transactions
  = List.filter (fun t => bool_decide (newDate (timestamp t) = d)) transactions.
Proof.
  apply filter_ext. intros t.
  destruct (decide (newDate (timestamp t) = d)) as [-> | Hne].
  - rewrite String.eqb_refl. symmetry. now apply bool_decide_eq_true.
  - rewrite bool_decide_eq_false_2 by exact Hne.
    apply String.eqb_neq. intros H. now apply monthKey_inj in H.
Qed.

(** The table after the pass: one key for each month that occurs, holding
    the running total of the totals of that month. *)
Lemma accumulateSalesByMonth_In (transactions : list Transaction)
    (kv : string * JSValue) :
  In kv (accumulateSalesByMonth newDate transactions)
  <-> exists d, inMonth newDate d transactions
                /\ kv = (monthKey d, Num (monthTotal newDate d transactions)).
Proof.
  rewrite accumulateSalesByMonth_addAllBy. destruct kv as [k v].
  rewrite addAllBy_In by (intros t _; apply monthKey_plain). split.
  - intros [(t & Ht & <-) ->]. exists (newDate (timestamp t)).
    split; [exists t; now split |].
    unfold monthTotal, monthTotals. now rewrite filter_month_key.
  - intros (d & (t & Ht & Hd) & [= -> ->]). split.
    + exists t. split; [exact Ht | now rewrite Hd].
    + unfold monthTotal, monthTotals. now rewrite filter_month_key.
Qed.

Lemma accumulateSalesByMonth_no_index (transactions : list Transaction) :
  Forall (fun kv => Obj.is_index kv = false)
         (accumulateSalesByMonth newDate transactions).
Proof.
  apply Forall_forall. intros kv Hin. apply list_elem_of_In in Hin.
  apply accumulateSalesByMonth_In in Hin as (d & _ & ->).
  unfold Obj.is_index. simpl. now rewrite monthKey_not_index.
Qed.

Lemma monthly_entries_In (transactions : list Transaction) (e : MonthSales) :
  In e (map mkMonthSales (Obj.entries (accumulateSalesByMonth newDate transactions)))
  <-> exists d, inMonth newDate d transactions
                /\ e = {| month := monthKey d;
                          month_sales := Num (monthTotal newDate d transactions) |}.
Proof.
  rewrite in_map_iff. split.
  - intros (kv & <- & Hin). rewrite ObjFacts.entries_In in Hin.
    apply accumulateSalesByMonth_In in Hin as (d & Hd & ->). eauto.
  - intros (d & Hd & ->).
    exists (monthKey d, Num (monthTotal newDate d transactions)).
    split; [reflexivity |].
    apply ObjFacts.entries_In, accumulateSalesByMonth_In. eauto.
Qed.

Lemma monthly_entries_NoDup (transactions : list Transaction) :
  NoDup (map month (map mkMonthSales
                      (Obj.entries (accumulateSalesByMonth newDate transactions)))).
Proof.
  rewrite map_map. change (fun x => month (mkMonthSales x)) with (@fst string JSValue).
  rewrite ObjFacts.entries_perm, accumulateSalesByMonth_addAllBy.
  apply addAllBy_NoDup.
Qed.

End MonthlySales.

(** C1, as the code has it: in the sales-by-month output of both variants
    of the aggregator an entry is present exactly for the calendar months in
    which some transaction of the input falls, and no key occurs twice; a
    key stands for one month only. The entry carries the key of its month
    and the running total of the totals of the transactions of that month:
    the totals are added as doubles, one after the other in the order of the
    input and starting from 0, and a running value of NaN counts as 0 for
    the next addition; as long as no sum along the way is NaN, this is the
    sum that adding the totals of the month from left to right gives.
    Timestamps that do not parse are gathered under the key of the invalid
    date. *)
Theorem salesByMonth_sums (newDate : string -> JSDate)
    (localeCompare : string -> string -> Z) (transactions : list Transaction)
    (products : list Product) (users : list User) :
  let service := calculateSalesByMonth newDate localeCompare transactions in
  let hook := salesByMonth (useAnalytics newDate transactions products users) in
  (forall e : MonthSales,
      In e service
      <-> exists d, inMonth newDate d transactions
                    /\ e = {| month := monthKey d;
                              month_sales := Num (monthTotal newDate d transactions) |})
  /\ (forall e : MonthSales,
      In e hook
      <-> exists d, inMonth newDate d transactions
                    /\ e = {| month := monthKey d;
                              month_sales := Num (monthTotal newDate d transactions) |})
  /\ NoDup (map month service)
  /\ NoDup (map month hook)
  /\ salesByMonth (getSalesAnalytics newDate localeCompare transactions products users)
     = service
  /\ (forall d d', monthKey d = monthKey d' <-> d = d')
  /\ (forall d,
        (forall n, PrimFloat.is_nan
                     (plainSum (firstn n (monthTotals newDate d transactions)))
                   = false) ->
        monthTotal newDate d transactions
        = plainSum (monthTotals newDate d transactions)).
Proof.
  intros service hook. subst service hook. unfold calculateSalesByMonth. simpl.
  split; [| split; [| split; [| split; [| split; [| split]]]]].
  - intros e. rewrite sort_In. apply monthly_entries_In.
  - intros e. apply monthly_entries_In.
  - rewrite sort_perm. apply monthly_entries_NoDup.
  - apply monthly_entries_NoDup.
  - reflexivity.
  - intros d d'. split; [apply monthKey_inj | now intros ->].
  - intros d Hd. now apply runningTotal_plainSum.
Qed.

Lemma salesByMonth_sums_witness :
  In {| month := "2024-01"; month_sales := Num 57.47999999999999 |}
     (calculateSalesByMonth isoDate codeUnitCompare januarySales)
  /\ In {| month := "2024-01"; month_sales := Num 57.47999999999999 |}
        (salesByMonth (useAnalytics isoDate januarySales [] []))
  /\ monthTotal isoDate (LocalDate 2024 Jan) januarySales
     = plainSum [12.5; 19.99; 24.99]%float.
Proof.
  pose proof (salesByMonth_sums isoDate codeUnitCompare januarySales [] []) as H.
  cbv zeta in H. destruct H as (H1 & H2 & _ & _ & _ & _ & H7).
  assert (Hjan : exists d, inMonth isoDate d januarySales
                  /\ {| month := "2024-01"; month_sales := Num 57.47999999999999 |}
                     = {| month := monthKey d;
                          month_sales := Num (monthTotal isoDate d januarySales) |}).
  { exists (LocalDate 2024 Jan). split; [| reflexivity].
    exists (sale "j1" "2024-01-05T10:00:00.000Z" "Ani" [rice "Pandan" 1 12.5] 12.5).
    split; [| reflexivity]. left. reflexivity. }
  split; [| split].
  - apply H1. exact Hjan.
  - apply H2. exact Hjan.
  - apply (H7 (LocalDate 2024 Jan)). intros [| [| [| [| n]]]]; reflexivity.
Defined.

(** C1 does not hold as stated. Three sales of one month with the totals
    12.5, 19.99 and 24.99 give the entry 57.47999999999999, which is not
    the sum of the three totals: counted in units of the smallest double the
    entry is not the sum of the three. The same three sales in another order
    give another entry, 57.48. And a stored total of NaN followed by a total
    of 5 gives the entry 5, where a sum is NaN: the total sales that the same
    code computes from the same two totals are NaN. *)
Lemma salesByMonth_sum_counterexample :
  calculateSalesByMonth isoDate codeUnitCompare januarySales
  = [{| month := "2024-01"; month_sales := Num 57.47999999999999 |}]
  /\ salesByMonth (useAnalytics isoDate januarySales [] [])
     = [{| month := "2024-01"; month_sales := Num 57.47999999999999 |}]
  /\ units 57.47999999999999 <> units 12.5 + units 19.99 + units 24.99
  /\ Permutation januarySales januarySalesRotated
  /\ calculateSalesByMonth isoDate codeUnitCompare januarySalesRotated
     = [{| month := "2024-01"; month_sales := Num 57.48 |}]
  /\ Num 57.47999999999999 <> Num 57.48
  /\ calculateSalesByMonth isoDate codeUnitCompare nanThenFive
     = [{| month := "2024-01"; month_sales := Num 5 |}]
  /\ salesByMonth (useAnalytics isoDate nanThenFive [] [])
     = [{| month := "2024-01"; month_sales := Num 5 |}]
  /\ totalSales (getSalesAnalytics isoDate codeUnitCompare nanThenFive [] []) = nan
  /\ totalSales (useAnalytics isoDate nanThenFive [] []) = nan.
Proof.
  split; [reflexivity |]. split; [reflexivity |].
  split; [vm_compute; discriminate |].
  split.
  { unfold januarySales, januarySalesRotated.
    apply Permutation_cons_append. }
  split; [reflexivity |].
  split.
  { intros H.
    apply (f_equal (fun v => match v with
                             | Num x => (x =? 57.48)%float
                             | _ => false
                             end)) in H.
    vm_compute in H. discriminate. }
  split; [reflexivity |]. split; [reflexivity |]. split; reflexivity.
Qed.

(** ** Top lists *)

Lemma firstn_In {A : Type} (n : nat) (l : list A) (x : A) :
  In x (firstn n l) -> In x l.
Proof.
  intros H. rewrite <- (firstn_skipn n l). apply in_or_app. now left.
Qed.

Section TopFive.

(** Rows with one entry per name that occurs, holding its revenue, a
    number that is not NaN. *)
Variable rows : list NameSales.
Variable revenue : string -> float.
Variable occurs : string -> Prop.
Hypothesis rows_NoDup : NoDup (map name rows).
Hypothesis rows_In :
  forall e, In e rows <-> occurs (name e) /\ sales e = Num (revenue (name e)).
Hypothesis revenue_numeric :
  forall k, occurs k -> PrimFloat.is_nan (revenue k) = false.

Let ranked : list NameSales := JS.sort bySalesDescending rows.

Lemma ranked_In (e : NameSales) :
  In e ranked <-> occurs (name e) /\ sales e = Num (revenue (name e)).
Proof. unfold ranked. rewrite sort_In. apply rows_In. Qed.

Lemma ranked_names : Permutation (map name ranked) (map name rows).
Proof. unfold ranked. now rewrite sort_perm. Qed.

Lemma ranked_numeric (e : NameSales) : In e ranked -> numericSales e.
Proof.
  intros He. apply ranked_In in He as [Ho Hs].
  exists (revenue (name e)). split; [exact Hs | now apply revenue_numeric].
Qed.

Lemma ranked_descending : descending ranked.
Proof.
  assert (Hall : Forall numericSales rows).
  { rewrite Forall_forall. intros e He. apply ranked_numeric.
    apply list_elem_of_In in He. unfold ranked. now apply sort_In. }
  unfold descending.
  apply (StronglySorted_weaken_on numericSales
           (fun a b => salesKey b <= salesKey a)).
  - intros a b. apply atLeast_key.
  - rewrite Forall_forall. intros e He. apply ranked_numeric.
    now apply list_elem_of_In in He.
  - apply (sort_by_key bySalesDescending salesKey numericSales).
    + intros a b. apply bySalesDescending_key.
    + exact Hall.
Qed.

Lemma top5_ranked : rankedTop5 revenue occurs (JS.slice0 5 ranked).
Proof.
  unfold JS.slice0.
  pose proof ranked_descending as Hsorted. unfold descending in Hsorted.
  split; [| split; [| split; [| split]]].
  - now apply StronglySorted_firstn.
  - rewrite length_take. lia.
  - rewrite <- firstn_map. eapply sublist_NoDup; [| apply sublist_take].
    rewrite ranked_names. exact rows_NoDup.
  - intros e He. apply ranked_In. eapply firstn_In. exact He.
  - intros n Hn.
    assert (Hin : In {| name := n; sales := Num (revenue n) |} ranked).
    { apply ranked_In. simpl. now split. }
    rewrite <- (firstn_skipn 5 ranked) in Hin, Hsorted.
    apply in_app_or in Hin as [Hin | Hin].
    + left. change n with (name {| name := n; sales := Num (revenue n) |}).
      now apply in_map.
    + right. split.
      * assert (Hlen : (5 < length ranked)%nat).
        { destruct (Nat.lt_ge_cases 5 (length ranked)) as [H | H]; [exact H |].
          rewrite skipn_all2 in Hin by exact H. destruct Hin. }
        rewrite length_take. lia.
      * intros e He.
        apply (StronglySorted_app_1_elem_of _ _ _ e
                 {| name := n; sales := Num (revenue n) |}) in Hsorted;
          [exact Hsorted | |]; now apply list_elem_of_In.
Qed.

End TopFive.

Lemma fold_left_flat_map {A B C : Type} (f : C -> B -> C) (g : A -> list B)
    (l : list A) (c : C) :
  fold_left (fun c x => fold_left f (g x) c) l c = fold_left f (flat_map g l) c.
Proof.
  revert c. induction l as [| x l IH]; intros c; simpl.
  - reflexivity.
  - now rewrite fold_left_app, IH.
Qed.

Lemma accumulateProductSales_addAllBy (transactions : list Transaction) :
  accumulateProductSales transactions
  = addAllBy item_name itemRevenue (flat_map items transactions) [].
Proof.
  unfold accumulateProductSales, addAllBy.
  apply (fold_left_flat_map
           (fun o x => Obj.add o (item_name x) (itemRevenue x)) items).
Qed.

(** The rows that the table of the products gives, when no product carries
    a name that [Object.prototype] has: one for each name sold, with the
    revenue of that name. *)
Lemma productRows_In (transactions : list Transaction) (e : NameSales) :
  plainNames transactions ->
  In e (map mkNameSales (Obj.entries (accumulateProductSales transactions)))
  <-> productSold (name e) transactions
      /\ sales e = Num (productRevenue (name e) transactions).
Proof.
  intros Hplain. rewrite accumulateProductSales_addAllBy, in_map_iff. split.
  - intros ([k v] & <- & Hin). rewrite ObjFacts.entries_In in Hin.
    now apply addAllBy_In in Hin.
  - intros H. exists (name e, sales e). split; [now destruct e |].
    rewrite ObjFacts.entries_In. now apply addAllBy_In.
Qed.

Lemma productRows_NoDup (transactions : list Transaction) :
  NoDup (map name (map mkNameSales
                     (Obj.entries (accumulateProductSales transactions)))).
Proof.
  rewrite map_map. change (fun x => name (mkNameSales x)) with (@fst string JSValue).
  rewrite ObjFacts.entries_perm, accumulateProductSales_addAllBy.
  apply addAllBy_NoDup.
Qed.

(** When no product carries a name that [Object.prototype] has and no
    revenue is NaN, the top-products list is the ranking of the products by
    revenue, cut to five. *)
Lemma calculateTopProducts_ranked (transactions : list Transaction) :
  plainNames transactions -> numericRevenues transactions ->
  rankedTop5 (fun n => productRevenue n transactions)
             (fun n => productSold n transactions)
             (calculateTopProducts transactions).
Proof.
  intros Hplain Hnum. unfold calculateTopProducts. apply top5_ranked.
  - apply productRows_NoDup.
  - intros e. now apply productRows_In.
  - intros k (i & Hi & <-). now apply Hnum.
Qed.

Lemma cashierNames_In (transactions : list Transaction) (n : string) :
  In n (firstSeen (map (fun ti : Transaction * TransactionItem => cashierName ti.1)
                       (soldItems transactions)) [])
  <-> cashierSold n transactions.
Proof.
  rewrite firstSeen_In, in_map_iff. unfold cashierSold. simpl. split.
  - intros [[] | (ti & <- & Hti)]. eauto.
  - intros (ti & Hti & <-). right. eauto.
Qed.

Lemma calculateTopCashiers_ranked (transactions : list Transaction) :
  numericCashierRevenues transactions ->
  rankedTop5 (fun n => cashierRevenue n transactions)
             (fun n => cashierSold n transactions)
             (calculateTopCashiers transactions).
Proof.
  intros Hnum. unfold calculateTopCashiers. apply top5_ranked.
  - rewrite map_map. simpl. rewrite map_id. apply firstSeen_NoDup. constructor.
  - intros e. rewrite in_map_iff. split.
    + intros (n & <- & Hn). simpl. split; [now apply cashierNames_In | reflexivity].
    + intros [Ho Hs]. exists (name e). split; [| now apply cashierNames_In].
      destruct e as [n s]. simpl in *. now rewrite Hs.
  - intros k (ti & Hti & <-). now apply Hnum.
Qed.

Lemma halfYear_plainNames : plainNames halfYear.
Proof.
  intros i Hi. simpl in Hi.
  repeat (destruct Hi as [<- | Hi]; [reflexivity |]). destruct Hi.
Qed.

Lemma halfYear_numericRevenues : numericRevenues halfYear.
Proof.
  intros i Hi. simpl in Hi.
  repeat (destruct Hi as [<- | Hi]; [reflexivity |]). destruct Hi.
Qed.

Lemma halfYear_numericCashierRevenues : numericCashierRevenues halfYear.
Proof.
  intros ti Hti. simpl in Hti.
  repeat (destruct Hti as [<- | Hti]; [reflexivity |]). destruct Hti.
Qed.

(** C2, as the code has it: when no product carries a name that
    [Object.prototype] has and no revenue is NaN, the analytics output of
    both variants carries a top-products list, and the dashboard a
    top-cashiers list, each in descending order of revenue and cut down to
    at most 5 entries, no name twice, where the revenue of a name is the
    running total of quantity times price over all the transaction items
    filed under that name, added as doubles in the order of the input; no
    name that is left out has more revenue than one that is listed. The
    dashboard shows at most 5 cashiers of whatever list it receives, and all
    of the list described here. *)
Theorem top_lists_ranked (newDate : string -> JSDate)
    (localeCompare : string -> string -> Z) (transactions : list Transaction)
    (products : list Product) (users : list User) :
  plainNames transactions ->
  numericRevenues transactions ->
  numericCashierRevenues transactions ->
  rankedTop5 (fun n => productRevenue n transactions)
             (fun n => productSold n transactions)
             (topProducts (getSalesAnalytics newDate localeCompare
                             transactions products users))
  /\ rankedTop5 (fun n => productRevenue n transactions)
                (fun n => productSold n transactions)
                (topProducts (useAnalytics newDate transactions products users))
  /\ rankedTop5 (fun n => cashierRevenue n transactions)
                (fun n => cashierSold n transactions)
                (calculateTopCashiers transactions)
  /\ (forall received, (length (Dashboard_topCashiers received) <= 5)%nat)
  /\ Dashboard_topCashiers (calculateTopCashiers transactions)
     = calculateTopCashiers transactions.
Proof.
  intros Hplain Hnum Hcash.
  pose proof (calculateTopCashiers_ranked transactions Hcash) as Hc.
  split; [| split; [| split; [| split]]].
  - now apply calculateTopProducts_ranked.
  - now apply calculateTopProducts_ranked.
  - exact Hc.
  - intros received. unfold Dashboard_topCashiers, JS.slice0.
    rewrite length_take. lia.
  - unfold Dashboard_topCashiers, JS.slice0. apply firstn_all2.
    exact (proj1 (proj2 Hc)).
Qed.

Lemma top_lists_ranked_witness :
  rankedTop5 (fun n => productRevenue n halfYear)
             (fun n => productSold n halfYear)
             (topProducts (getSalesAnalytics isoDate codeUnitCompare halfYear [] []))
  /\ rankedTop5 (fun n => cashierRevenue n halfYear)
                (fun n => cashierSold n halfYear)
                (calculateTopCashiers halfYear).
Proof.
  pose proof (top_lists_ranked isoDate codeUnitCompare halfYear [] []
                halfYear_plainNames halfYear_numericRevenues
                halfYear_numericCashierRevenues) as (H1 & _ & H3 & _).
  split; assumption.
Defined.

Lemma two_rows_arrangements (a b : NameSales) (l : list NameSales) :
  Permutation l [a; b] -> l = [a; b] \/ l = [b; a].
Proof.
  intros H. symmetry in H. apply Permutation_length_2_inv in H. tauto.
Qed.

(** C2 does not hold as stated. A product sold three times, for 12.5, 19.99
    and 24.99, is listed with the revenue 57.47999999999999, which is not
    the sum of the three: counted in units of the smallest double it is not
    their sum. When the revenue of a product is NaN, here through a price
    of NaN, no arrangement of the entries is in descending order. And for
    product names that [Object.prototype] has: a sale of a product called
    [__proto__] leaves the list empty in both variants, although the
    product was sold for a revenue of 20; with a product called
    [constructor] the entry holds a string, not the revenue of 20, and no
    arrangement of it with the entry of another product is in descending
    order. *)
Lemma top_lists_counterexample :
  (calculateTopProducts pandanThrice
   = [{| name := "Pandan"; sales := Num 57.47999999999999 |}]
   /\ map itemRevenue (flat_map items pandanThrice) = [12.5; 19.99; 24.99]%float
   /\ units 57.47999999999999 <> units 12.5 + units 19.99 + units 24.99)
  /\ (forall l, Permutation l (calculateTopProducts nanPrice) -> ~ descending l)
  /\ (productSold "__proto__" (saleOf "__proto__")
      /\ productRevenue "__proto__" (saleOf "__proto__") = 20%float
      /\ calculateTopProducts (saleOf "__proto__") = []
      /\ topProducts (useAnalytics isoDate (saleOf "__proto__") [] []) = [])
  /\ (productRevenue "constructor" (saleOf "constructor") = 20%float
      /\ calculateTopProducts (saleOf "constructor")
         = [{| name := "constructor"; sales := Text |}]
      /\ topProducts (useAnalytics isoDate (saleOf "constructor") [] [])
         = [{| name := "constructor"; sales := Text |}]
      /\ forall l, Permutation l (calculateTopProducts constructorAndPandan) ->
                   ~ descending l).
Proof.
  split; [| split; [| split]].
  - split; [reflexivity |]. split; [reflexivity |]. vm_compute. discriminate.
  - intros l Hl Hd.
    apply two_rows_arrangements in Hl as [-> | ->];
      apply StronglySorted_inv in Hd as [_ Hd]; apply Forall_inv in Hd;
      vm_compute in Hd; discriminate.
  - split.
    { exists (rice "__proto__" 2 10). split; [left |]; reflexivity. }
    repeat split.
  - split; [reflexivity |]. split; [reflexivity |]. split; [reflexivity |].
    intros l Hl Hd.
    apply two_rows_arrangements in Hl as [-> | ->];
      apply StronglySorted_inv in Hd as [_ Hd]; apply Forall_inv in Hd;
      exact Hd.
Qed.

(** ** Order and size of the two outputs *)

Lemma codeUnitCompare_le (a b : string) :
  codeUnitCompare a b <= 0 <-> String.le a b.
Proof.
  unfold codeUnitCompare, String.le, String.leb.
  destruct (String.compare a b); simpl; split; intros H;
    try lia; try exact I; try (now destruct H).
Qed.

Lemma codeUnitCompare_total (a b : string) :
  codeUnitCompare a b > 0 -> codeUnitCompare b a <= 0.
Proof.
  intros H. apply codeUnitCompare_le.
  destruct (String.le_total a b) as [Hab | Hba]; [| exact Hba].
  apply codeUnitCompare_le in Hab. lia.
Qed.

Lemma codeUnitCompare_trans (a b c : string) :
  codeUnitCompare a b <= 0 -> codeUnitCompare b c <= 0 -> codeUnitCompare a c <= 0.
Proof.
  rewrite !codeUnitCompare_le. apply transitivity.
Qed.

Lemma hook_months_firstSeen (newDate : string -> JSDate)
    (transactions : list Transaction) :
  map month (map mkMonthSales
               (Obj.entries (accumulateSalesByMonth newDate transactions)))
  = firstSeen (map (fun t => monthKey (newDate (timestamp t))) transactions) [].
Proof.
  rewrite ObjFacts.entries_no_index by apply accumulateSalesByMonth_no_index.
  rewrite map_map. change (fun x => month (mkMonthSales x)) with (@fst string JSValue).
  rewrite accumulateSalesByMonth_addAllBy, keys_addAllBy.
  rewrite assignable_plain; [reflexivity |].
  intros k Hk. apply in_map_iff in Hk as (t & <- & _). apply monthKey_plain.
Qed.

(** C3, as the code has it: both passes are folds over the transaction
    list; only the name-to-sum entries are sorted and truncated to 5, the
    same list in both variants, and it is in descending order of the sums
    whenever no product carries a name that [Object.prototype] has and no
    sum is NaN. The sales-by-month output keeps an entry for every month
    that occurs: the hook lists the months in the order in which they first
    occur, and the service lists the same entries sorted by month key with
    [localeCompare], ascending when that comparison is a total preorder. *)
Theorem aggregator_orders (newDate : string -> JSDate)
    (localeCompare : string -> string -> Z) (transactions : list Transaction)
    (products : list Product) (users : list User) :
  (forall a b, localeCompare a b > 0 -> localeCompare b a <= 0) ->
  (forall a b c, localeCompare a b <= 0 -> localeCompare b c <= 0 ->
                 localeCompare a c <= 0) ->
  let service := getSalesAnalytics newDate localeCompare transactions products users in
  let hook := useAnalytics newDate transactions products users in
  let months := map (fun t => monthKey (newDate (timestamp t))) transactions in
  (length (topProducts service) <= 5)%nat
  /\ topProducts hook = topProducts service
  /\ (plainNames transactions -> numericRevenues transactions ->
      descending (topProducts service))
  /\ map month (salesByMonth hook) = firstSeen months []
  /\ salesByMonth service
     = JS.sort (fun a b => localeCompare (month a) (month b)) (salesByMonth hook)
  /\ Permutation (salesByMonth service) (salesByMonth hook)
  /\ length (salesByMonth service) = length (firstSeen months [])
  /\ (forall k, In k months ->
        In k (map month (salesByMonth service))
        /\ In k (map month (salesByMonth hook)))
  /\ StronglySorted (fun a b => localeCompare (month a) (month b) <= 0)
                    (salesByMonth service).
Proof.
  intros Htotal Htrans service hook months.
  assert (Hhook : map month (salesByMonth hook) = firstSeen months []).
  { apply hook_months_firstSeen. }
  assert (Hperm : Permutation (salesByMonth service) (salesByMonth hook)).
  { apply sort_perm. }
  assert (Hkeys : forall k, In k months -> In k (map month (salesByMonth hook))).
  { intros k Hk. rewrite Hhook. apply firstSeen_In. now right. }
  split.
  { simpl. unfold calculateTopProducts, JS.slice0. rewrite length_take. lia. }
  split; [reflexivity |].
  split.
  { intros Hplain Hnum.
    exact (proj1 (calculateTopProducts_ranked transactions Hplain Hnum)). }
  split; [exact Hhook |]. split; [reflexivity |]. split; [exact Hperm |].
  split; [| split].
  - rewrite <- Hhook, length_map. now apply Permutation_length.
  - intros k Hk. split; [| now apply Hkeys].
    apply (Permutation_in k (Permutation_map month (Permutation_sym Hperm))).
    now apply Hkeys.
  - apply (sort_sorted (fun a b : MonthSales => localeCompare (month a) (month b))).
    + intros x y. apply Htotal.
    + intros x y z. apply Htrans.
Qed.

Lemma aggregator_orders_witness :
  map month (salesByMonth (useAnalytics isoDate halfYear [] []))
  = ["2024-01"; "2024-02"; "2024-03"; "2024-04"; "2024-05"; "2024-06"]
  /\ length (salesByMonth (getSalesAnalytics isoDate codeUnitCompare halfYear [] []))
     = 6%nat
  /\ descending (topProducts (getSalesAnalytics isoDate codeUnitCompare halfYear [] [])).
Proof.
  pose proof (aggregator_orders isoDate codeUnitCompare halfYear [] []
                codeUnitCompare_total codeUnitCompare_trans) as H.
  cbv zeta in H. destruct H as (_ & _ & H3 & H4 & _ & _ & H7 & _).
  split; [| split].
  - etransitivity; [exact H4 | reflexivity].
  - etransitivity; [exact H7 | reflexivity].
  - exact (H3 halfYear_plainNames halfYear_numericRevenues).
Defined.

(** C3 does not hold as stated: six sales in six different months give a
    sales-by-month output of six entries, in both variants, and the entries
    are in ascending, not descending, order of their sums. As for the
    name-to-sum entries, no arrangement of them is in descending order when
    one of the sums is NaN, or when one of the names is [constructor], whose
    entry holds a string. *)
Lemma salesByMonth_truncation_counterexample :
  length (calculateSalesByMonth isoDate codeUnitCompare halfYear) = 6%nat
  /\ length (salesByMonth (useAnalytics isoDate halfYear [] [])) = 6%nat
  /\ ~ StronglySorted (fun a b => atLeast (month_sales a) (month_sales b))
         (calculateSalesByMonth isoDate codeUnitCompare halfYear)
  /\ ~ StronglySorted (fun a b => atLeast (month_sales a) (month_sales b))
         (salesByMonth (useAnalytics isoDate halfYear [] []))
  /\ (forall l, Permutation l (calculateTopProducts nanPrice) -> ~ descending l)
  /\ (forall l, Permutation l (calculateTopProducts constructorAndPandan) ->
                ~ descending l).
Proof.
  split; [reflexivity |]. split; [reflexivity |].
  assert (Hnone : forall a b l,
            ~ atLeast (sales a) (sales b) -> ~ atLeast (sales b) (sales a) ->
            Permutation l [a; b] -> ~ descending l).
  { intros a b l Hab Hba Hl Hd.
    apply two_rows_arrangements in Hl as [-> | ->];
      apply StronglySorted_inv in Hd as [_ Hd]; apply Forall_inv in Hd; tauto. }
  assert (Htop : (forall l, Permutation l (calculateTopProducts nanPrice) ->
                            ~ descending l)
                 /\ (forall l, Permutation l (calculateTopProducts constructorAndPandan) ->
                               ~ descending l)).
  { split; intros l; apply Hnone; vm_compute; (discriminate || tauto). }
  cut (~ StronglySorted (fun a b => atLeast (month_sales a) (month_sales b))
         (calculateSalesByMonth isoDate codeUnitCompare halfYear)
       /\ ~ StronglySorted (fun a b => atLeast (month_sales a) (month_sales b))
            (salesByMonth (useAnalytics isoDate halfYear [] []))); [tauto |].
  clear Hnone Htop.
  assert (Hservice : calculateSalesByMonth isoDate codeUnitCompare halfYear
                     = salesByMonth (useAnalytics isoDate halfYear [] []))
    by reflexivity.
  assert (Hhook : salesByMonth (useAnalytics isoDate halfYear [] [])
                  = map mkMonthSales
                      [("2024-01", Num 10); ("2024-02", Num 20); ("2024-03", Num 30);
                       ("2024-04", Num 40); ("2024-05", Num 50); ("2024-06", Num 60)])
    by reflexivity.
  rewrite Hservice, Hhook.
  split; intros H; apply StronglySorted_inv in H as [_ H];
    apply Forall_inv in H; vm_compute in H; discriminate.
Qed.

(******************************************************************************)
(** * Further properties of the code around the claims *)
(******************************************************************************)

(** ** Stock labels *)

(** X1: for every stock value, negative ones included, the label and the
    status name the same class; a negative stock counts as low stock. *)
Theorem getStockStatusLabel_agrees (stock : Z) :
  (UtilsRest.getStockStatusLabel stock = "Out of Stock"
   <-> Utils.getStockStatus stock = "out-of-stock")
  /\ (UtilsRest.getStockStatusLabel stock = "Low Stock"
      <-> Utils.getStockStatus stock = "low-stock")
  /\ (UtilsRest.getStockStatusLabel stock = "In Stock"
      <-> Utils.getStockStatus stock = "in-stock")
  /\ (stock < 0 ->
      Utils.getStockStatus stock = "low-stock"
      /\ UtilsRest.getStockStatusLabel stock = "Low Stock").
Proof.
  unfold UtilsRest.getStockStatusLabel, Utils.getStockStatus.
  destruct (Z.eqb_spec stock 0) as [H0 | H0];
    destruct (Z.leb_spec stock 10) as [H10 | H10];
    repeat split; intros; try discriminate; try reflexivity; lia.
Qed.

Lemma getStockStatusLabel_agrees_witness :
  Utils.getStockStatus (-3) = "low-stock"
  /\ UtilsRest.getStockStatusLabel (-3) = "Low Stock".
Proof.
  apply (proj2 (proj2 (proj2 (getStockStatusLabel_agrees (-3))))). lia.
Defined.

(** ** The gates of both variants *)

Lemma hasPermission_manager_role (st : AppState) :
  Utils.hasPermission st "manager"
  = match Utils.currentRole st with
    | Some r => String.eqb r "admin" || String.eqb r "manager"
    | None => false
    end.
Proof.
  unfold Utils.hasPermission. destruct (Utils.currentRole st) as [r |]; [| reflexivity].
  unfold Utils.roleHierarchy.
  destruct (String.eqb_spec r "") as [-> | _]; [reflexivity |].
  destruct (String.eqb_spec r "admin") as [-> | _]; [reflexivity |].
  destruct (String.eqb_spec r "manager") as [-> | _]; [reflexivity |].
  destruct (String.eqb_spec r "cashier") as [-> | _]; reflexivity.
Qed.

(** X2: whatever string the role field holds, three gates agree: the
    permission check for 'manager' of the script variant, the display of its
    admin-only elements, and the admin access of the component variant. *)
Theorem manager_gates_agree (st : AppState) :
  Utils.hasPermission st "manager" = UtilsRest.adminOnlyDisplayed st
  /\ (forall userProfile : User,
        app_userProfile st = Some userProfile ->
        App.hasAdminAccess userProfile = Utils.hasPermission st "manager").
Proof.
  split.
  - apply hasPermission_manager_role.
  - intros p Hp. rewrite hasPermission_manager_role.
    unfold Utils.currentRole. rewrite Hp. reflexivity.
Qed.

Lemma manager_gates_agree_witness :
  App.hasAdminAccess ani = Utils.hasPermission (signedInAs ani) "manager".
Proof.
  apply (proj2 (manager_gates_agree (signedInAs ani)) ani). reflexivity.
Defined.



(** ** Managing users in the component variant *)

Lemma role_name_inj (a b : Role) : role_name a = role_name b -> a = b.
Proof. destruct a, b; intros H; try reflexivity; discriminate. Qed.

(** X4: for an acting profile and a target user with roles among admin,
    manager and cashier, [canManageUser] holds exactly when the actor is an
    admin or outranks the target; so a manager manages cashiers only, a
    cashier nobody, and without a profile nobody is managed. *)
Theorem canManageUser_rank (actor : User) (target : User) (a t : Role) :
  user_role actor = role_name a ->
  user_role target = role_name t ->
  (UserManagement.canManageUser (Some actor) target = true
   <-> a = admin \/ rank t < rank a)
  /\ UserManagement.canManageUser None target = false.
Proof.
  intros Ha Ht. split; [| reflexivity].
  unfold UserManagement.canManageUser. simpl. rewrite Ha, Ht.
  destruct a, t; simpl; split; intros H; try reflexivity; try discriminate;
    try (left; reflexivity); try (right; lia);
    destruct H as [H | H]; try discriminate; lia.
Qed.

Lemma canManageUser_rank_witness :
  UserManagement.canManageUser (Some ani) ani = false.
Proof.
  destruct (UserManagement.canManageUser (Some ani) ani) eqn:E; [| reflexivity].
  apply (proj1 (canManageUser_rank ani ani manager manager eq_refl eq_refl)) in E.
  destruct E as [E | E]; [discriminate | simpl in E; lia].
Defined.

(** X5: the role select never offers a role beyond the reach of the one who
    fills the form: every role offered to a profile with admin access
    belongs to users that this profile can manage; a manager is offered
    'cashier' only, an admin all three roles. *)
Theorem offeredRoles_manageable (actor : User) :
  App.hasAdminAccess actor = true ->
  (forall (r : string) (u : User),
      In r (UserManagement.offeredRoles (Some actor)) -> user_role u = r ->
      UserManagement.canManageUser (Some actor) u = true)
  /\ (user_role actor = "manager" ->
      UserManagement.offeredRoles (Some actor) = ["cashier"])
  /\ (user_role actor = "admin" ->
      UserManagement.offeredRoles (Some actor) = ["admin"; "manager"; "cashier"]).
Proof.
  intros Hacc. unfold App.hasAdminAccess in Hacc.
  unfold UserManagement.offeredRoles, UserManagement.canManageUser. simpl.
  destruct (String.eqb_spec (user_role actor) "admin") as [Ha | Ha].
  - rewrite Ha. simpl. split; [| split]; [| discriminate | reflexivity].
    intros r u _ _. reflexivity.
  - simpl in Hacc. apply String.eqb_eq in Hacc. rewrite Hacc. simpl.
    split; [| split]; [| reflexivity | discriminate].
    intros r u [<- | []] Hu. now rewrite Hu.
Qed.

Lemma offeredRoles_manageable_witness :
  UserManagement.offeredRoles (Some ani) = ["cashier"].
Proof.
  apply (proj1 (proj2 (offeredRoles_manageable ani eq_refl))). reflexivity.
Defined.

(** ** Screens of the component variant *)

(** X6: the user management screen is rendered only when loading is over,
    a user and a profile are present, the users page is selected and the
    profile has admin access; the sidebar offers the users entry exactly to
    the profiles for which that page renders; without a user or a profile the
    login screen is rendered whatever page is selected. *)
Theorem AppContent_users_screen (s : ProviderState) (currentPage : string) :
  (App.AppContent s currentPage = UserManagementScreen
   <-> prov_loading s = false
       /\ currentPage = "users"
       /\ exists uid userProfile,
            prov_user s = Some uid /\ prov_userProfile s = Some userProfile
            /\ App.hasAdminAccess userProfile = true)
  /\ (forall userProfile,
        In "users" (App.navigation userProfile)
        <-> App.renderPage userProfile "users" = UserManagementScreen)
  /\ (prov_loading s = false ->
      prov_user s = None \/ prov_userProfile s = None ->
      App.AppContent s currentPage = LoginScreen).
Proof.
  split; [| split].
  - unfold App.AppContent, App.renderPage.
    destruct (prov_loading s); [split; [discriminate | intros [[=] _]] |].
    destruct (prov_user s) as [uid |], (prov_userProfile s) as [p |];
      try (split; [discriminate | intros (_ & _ & u & q & [=] & [=] & _)]).
    destruct (String.eqb_spec currentPage "dashboard") as [-> | _];
      [split; [discriminate | intros (_ & [=] & _)] |].
    destruct (String.eqb_spec currentPage "users") as [-> | Hne].
    + destruct (App.hasAdminAccess p) eqn:Hacc.
      * split; [| reflexivity]. intros _. repeat split. eauto.
      * split; [discriminate |].
        intros (_ & _ & u & q & _ & [= <-] & Hq). congruence.
    + destruct (String.eqb currentPage "products");
        [split; [discriminate | intros (_ & -> & _); contradiction] |].
      destruct (String.eqb currentPage "transactions");
        split; try discriminate; intros (_ & -> & _); contradiction.
  - intros p. unfold App.navigation, App.renderPage. simpl.
    destruct (App.hasAdminAccess p); simpl; split; intros H;
      try reflexivity; try discriminate; try tauto.
    destruct H as [H | [H | [H | []]]]; discriminate.
  - intros Hl Hmissing. unfold App.AppContent. rewrite Hl.
    destruct Hmissing as [-> | ->]; [reflexivity |].
    now destruct (prov_user s).
Qed.

Lemma AppContent_users_screen_witness :
  App.AppContent {| prov_user := Some "u-ani"; prov_userProfile := None;
                    prov_loading := false |} "users" = LoginScreen.
Proof.
  apply (proj2 (proj2 (AppContent_users_screen
                         {| prov_user := Some "u-ani"; prov_userProfile := None;
                            prov_loading := false |} "users"))).
  - reflexivity.
  - right. reflexivity.
Defined.

(** X7: the listener that restores a session never looks at the status of
    the profile: for a user whose profile is found but not active the page
    selected is rendered, although [signIn] with the same profile signs the
    user out and returns an error; after the provider's [signOut] the login
    screen is rendered. *)
Theorem restored_session_ignores_status (env : SignInEnv) (uid : string)
    (profile : User) (s : ProviderState) (currentPage : string) :
  getDoc_users env uid = DocFound profile ->
  user_status profile <> active ->
  App.AppContent (App.onAuthStateChanged env (Some uid) s) currentPage
  = App.renderPage profile currentPage
  /\ App.AppContent (App.onAuthStateChanged env (Some uid) s) currentPage
     <> LoginScreen
  /\ (forall email password session,
        signInWithEmailAndPassword env email password = inl uid ->
        exists message,
          (AuthProvider.signIn env email password session).2
          = AuthProvider.SignInError message)
  /\ (signOut_outcome env = None ->
      App.AppContent (App.signOut env (App.onAuthStateChanged env (Some uid) s))
                     currentPage
      = LoginScreen).
Proof.
  intros Hdoc Hstatus.
  assert (Hview : App.AppContent (App.onAuthStateChanged env (Some uid) s) currentPage
                  = App.renderPage profile currentPage).
  { unfold App.onAuthStateChanged. rewrite Hdoc. reflexivity. }
  split; [exact Hview |]. split; [| split].
  - rewrite Hview. unfold App.renderPage.
    repeat match goal with
           | |- context [if ?b then _ else _] => destruct b
           end; discriminate.
  - intros email password session Hin.
    unfold AuthProvider.signIn, AuthProvider.signOut_then_error.
    rewrite Hin, Hdoc.
    destruct (decide (user_status profile = active)); [contradiction |].
    destruct (signOut_outcome env); simpl; eauto.
  - intros Hout. unfold App.signOut, App.onAuthStateChanged.
    rewrite Hout, Hdoc. reflexivity.
Qed.

Lemma restored_session_ignores_status_witness :
  App.AppContent
    (App.onAuthStateChanged suspendedProfileEnv (Some "u-ani")
       {| prov_user := None; prov_userProfile := None; prov_loading := true |})
    "products"
  = ProductManagementScreen.
Proof.
  assert (Hs : user_status suspendedAni <> active) by discriminate.
  apply (proj1 (restored_session_ignores_status suspendedProfileEnv "u-ani"
                  suspendedAni
                  {| prov_user := None; prov_userProfile := None;
                     prov_loading := true |}
                  "products" eq_refl Hs)).
Defined.

(** ** Requests of the script variant *)

(** X8: a request made without headers of its own carries the JSON content
    type, and the bearer token exactly when a non-empty access token is held;
    a request that brings headers of its own is sent with these headers only,
    so the sign-in request carries the anonymous key and no content type,
    whatever token is held. *)
Theorem request_headers (accessToken : option string) (options : RequestOptions) :
  (opt_headers options = None ->
   cfg_headers (API.config accessToken options) !! "Content-Type"
   = Some "application/json"
   /\ cfg_headers (API.config accessToken options) !! "Authorization"
      = match accessToken with
        | Some token => if String.eqb token "" then None
                        else Some ("Bearer " +:+ token)
        | None => None
        end)
  /\ (forall headers, opt_headers options = Some headers ->
        cfg_headers (API.config accessToken options) = headers)
  /\ (forall anonKey email password,
        let sent := API.config accessToken (API.signin_options anonKey email password) in
        cfg_headers sent !! "Content-Type" = None
        /\ cfg_headers sent !! "Authorization" = Some ("Bearer " +:+ anonKey)).
Proof.
  split; [| split].
  - intros Hnone. unfold API.config. rewrite Hnone. simpl.
    rewrite (left_id_L ∅ (∪)). unfold API.defaultHeaders.
    destruct accessToken as [token |].
    + destruct (String.eqb token ""); split; reflexivity.
    + split; reflexivity.
  - intros headers Hsome. unfold API.config. now rewrite Hsome.
  - intros anonKey email password. split; reflexivity.
Qed.

Lemma request_headers_witness :
  cfg_headers (API.config (Some "token") API.no_options) !! "Authorization"
  = Some "Bearer token".
Proof.
  apply (proj2 (proj1 (request_headers (Some "token") API.no_options) eq_refl)).
Defined.

(** X9: a response that is not ok becomes an error whose message is the
    error text of the body, or the status line when the body has none; the
    error handler recognises a 401 by that message alone: with no error text
    a 401 response leads to the logout, while a 401 response whose error
    text mentions neither 'Unauthorized' nor '401' is shown as an ordinary
    error and the session is kept. *)
Theorem request_failure_to_handler {B : Type} (accessToken : option string)
    (endpoint : string) (options : RequestOptions) (context : string)
    (st : AppState) :
  (forall http_status error_text,
      (API.request (B := B) accessToken endpoint options
                   (NotOk http_status error_text)).2
      = Throws (mkError (or_string error_text
                           ("Request failed with status " +:+ pretty http_status))))
  /\ (forall e,
        (API.request (B := B) accessToken endpoint options (NotOk 401 None)).2
        = Throws e ->
        ErrorHandler.handle true e context st
        = (signedOut,
           [ConsoleError (context +:+ " error:"); SupabaseSignOut; ShowLoginPage;
            HideError; ShowSuccess "Logged out successfully"],
           Returns tt))
  /\ (forall e text,
        text <> "" -> ErrorHandler.is_unauthorized text = false ->
        (API.request (B := B) accessToken endpoint options (NotOk 401 (Some text))).2
        = Throws e ->
        forall signOut_resolves,
          ErrorHandler.handle signOut_resolves e context st
          = (st,
             [ConsoleError (context +:+ " error:");
              ShowError (ErrorHandler.pick_message text)],
             Returns tt)).
Proof.
  split; [| split].
  - reflexivity.
  - intros e [= <-]. reflexivity.
  - intros e text Hne Hun. simpl. apply String.eqb_neq in Hne. rewrite Hne.
    intros [= <-] b. unfold ErrorHandler.handle. simpl. now rewrite Hun.
Qed.

Lemma request_failure_to_handler_witness :
  ErrorHandler.handle true (mkError "Invalid JWT") "API" (signedInAs ani)
  = (signedInAs ani, [ConsoleError "API error:"; ShowError "Invalid JWT"],
     Returns tt).
Proof.
  assert (Hne : "Invalid JWT" <> "") by discriminate.
  apply (proj2 (proj2 (request_failure_to_handler (B := unit) (Some "token")
                         "/users" API.no_options "API" (signedInAs ani)))
           (mkError "Invalid JWT") "Invalid JWT" Hne eq_refl eq_refl true).
Defined.

(** ** Loading through the cache *)

Section LoaderFacts.

Context {R : Type}.
Variables (cacheKey endpoint label : string) (expiryMinutes : option Z).
Variable store : R -> LoaderState R -> LoaderState R.

(** The assignment to a member of the data leaves the cache alone and is
    not sensitive to being repeated. *)
Hypothesis store_cache : forall r st, ld_cache (store r st) = ld_cache st.
Hypothesis store_with_cache :
  forall r c st, store r (with_cache c st) = with_cache c (store r st).
Hypothesis store_twice : forall r st, store r (store r st) = store r st.

Lemma with_cache_same (st : LoaderState R) : with_cache (ld_cache st) st = st.
Proof. now destruct st. Qed.

Lemma with_cache_twice (c c' : gmap string (DataCache.Entry R)) (st : LoaderState R) :
  with_cache c (with_cache c' st) = with_cache c st.
Proof. reflexivity. Qed.

Lemma loadWith_requested (force : bool) (env : LoadEnv R) (st st1 : LoaderState R)
    (response : R) :
  loadWith cacheKey endpoint label expiryMinutes store force env st
  = (st1, [ApiRequest endpoint], Returns response) ->
  exists c, st1 = with_cache
                    (DataCache.set (clock_set env) cacheKey response expiryMinutes c)
                    (store response st).
Proof.
  unfold loadWith.
  destruct (if force then (None, ld_cache st)
            else DataCache.get (clock_get env) cacheKey (ld_cache st))
    as [[cached |] cache1]; [discriminate |].
  destruct (api_result env) as [r | e]; [| discriminate].
  intros [= <- <-]. exists cache1.
  now rewrite store_cache, store_with_cache, with_cache_twice.
Qed.

Lemma loadWith_caches :
  cachesFor endpoint (default 5 expiryMinutes)
            (loadWith cacheKey endpoint label expiryMinutes store).
Proof.
  intros force1 env1 env2 st st1 response H1.
  apply loadWith_requested in H1 as [c ->].
  set (cache := DataCache.set (clock_set env1) cacheKey response expiryMinutes c).
  assert (Hentry : cache !! cacheKey
                   = Some {| DataCache.data := response;
                             DataCache.expiry :=
                               clock_set env1 + default 5 expiryMinutes * 60 * 1000 |})
    by apply lookup_insert_eq.
  split; intros Ht; unfold loadWith; simpl.
  - rewrite (get_hit _ _ _ _ Hentry) by (simpl; lia).
    now rewrite !store_with_cache, store_twice, !with_cache_twice.
  - rewrite (get_expired _ _ _ _ Hentry) by (simpl; lia).
    destruct (api_result env2); eauto.
Qed.

Lemma loadWith_refreshes :
  refreshesFor cacheKey endpoint label (default 5 expiryMinutes)
               (loadWith cacheKey endpoint label expiryMinutes store).
Proof.
  intros env st. split.
  - intros response Hr. unfold loadWith. rewrite Hr. eexists.
    split; [reflexivity |]. simpl. rewrite store_cache. simpl. split.
    + apply lookup_insert_eq.
    + intros k Hk. unfold DataCache.set. now rewrite lookup_insert_ne.
  - intros e He. unfold loadWith. rewrite He. now rewrite with_cache_same.
Qed.

End LoaderFacts.

Section Loaders.

Context {R : Type}.
Variable users_of : R -> option (list User).
Variable products_of : R -> option (list Product).
Variable transactions_of : R -> option (list Transaction).

(** X10: each of the four loaders asks the API once per life time of its
    cache entry, five minutes for users, products and transactions and two
    minutes for the analytics: within that time a load that is not forced
    returns the cached response without a request and changes nothing;
    after it, a request is made. *)
Theorem loaders_cache :
  cachesFor "/users" 5 (loadUsers users_of)
  /\ cachesFor "/products" 5 (loadProducts products_of)
  /\ cachesFor "/transactions" 5 (loadTransactions transactions_of)
  /\ cachesFor (R := R) "/analytics/sales" 2 loadAnalytics.
Proof.
  split; [| split; [| split]].
  - apply (loadWith_caches "users" "/users" "Failed to load users:" None
             (store_users users_of)); intros; reflexivity.
  - apply (loadWith_caches "products" "/products" "Failed to load products:" None
             (store_products products_of)); intros; reflexivity.
  - apply (loadWith_caches "transactions" "/transactions"
             "Failed to load transactions:" None
             (store_transactions transactions_of)); intros; reflexivity.
  - apply (loadWith_caches "analytics" "/analytics/sales"
             "Failed to load analytics:" (Some 2) store_analytics);
      intros; reflexivity.
Qed.

(** X11: a forced load of each of the four loaders always asks the API; a
    successful answer replaces the cache entry of the loader and no other; a
    failed one is thrown again and leaves the data and the cache, with the
    old entry, exactly as they were. *)
Theorem loaders_refresh :
  refreshesFor "users" "/users" "Failed to load users:" 5 (loadUsers users_of)
  /\ refreshesFor "products" "/products" "Failed to load products:" 5
                  (loadProducts products_of)
  /\ refreshesFor "transactions" "/transactions" "Failed to load transactions:" 5
                  (loadTransactions transactions_of)
  /\ refreshesFor (R := R) "analytics" "/analytics/sales"
                  "Failed to load analytics:" 2 loadAnalytics.
Proof.
  split; [| split; [| split]].
  - apply (loadWith_refreshes "users" "/users" "Failed to load users:" None
             (store_users users_of)); intros; reflexivity.
  - apply (loadWith_refreshes "products" "/products" "Failed to load products:"
             None (store_products products_of)); intros; reflexivity.
  - apply (loadWith_refreshes "transactions" "/transactions"
             "Failed to load transactions:" None
             (store_transactions transactions_of)); intros; reflexivity.
  - apply (loadWith_refreshes "analytics" "/analytics/sales"
             "Failed to load analytics:" (Some 2) store_analytics);
      intros; reflexivity.
Qed.

End Loaders.

Lemma loaders_cache_witness :
  loadUsers usersOnly false (answers 300000 300000 (Throws unauthorized401))
    (loadUsers usersOnly true (answers 0 0 (Returns [ani])) emptyLoader).1.1
  = ((loadUsers usersOnly true (answers 0 0 (Returns [ani])) emptyLoader).1.1,
     [], Returns [ani]).
Proof.
  apply (proj1 (proj1 (loaders_cache usersOnly noProducts noTransactions)
                  true (answers 0 0 (Returns [ani]))
                  (answers 300000 300000 (Throws unauthorized401))
                  emptyLoader _ [ani] eq_refl)).
  simpl. lia.
Defined.

Lemma loaders_refresh_witness :
  loadUsers usersOnly true (answers 0 0 (Throws unauthorized401)) emptyLoader
  = (emptyLoader, [ApiRequest "/users"; ConsoleError "Failed to load users:"],
     Throws unauthorized401).
Proof.
  apply (proj2 (proj1 (loaders_refresh usersOnly noProducts noTransactions)
                  (answers 0 0 (Throws unauthorized401)) emptyLoader)).
  reflexivity.
Defined.

(** ** Cleaning and clearing the cache *)

(** X12: [cleanup] cannot be noticed through [get]: a [get] made at the
    time of the cleanup or later returns what it would have returned without
    it; the entries that remain are entries of the cache that have not
    expired; and a second cleanup at the same time changes nothing. *)
Theorem cleanup_unobservable {V : Type} (now : Z)
    (cache : gmap string (DataCache.Entry V)) :
  (forall later key, now <= later ->
     (DataCache.get later key (DataCache.cleanup now cache)).1
     = (DataCache.get later key cache).1)
  /\ (forall key e, DataCache.cleanup now cache !! key = Some e ->
        cache !! key = Some e /\ now <= DataCache.expiry e)
  /\ DataCache.cleanup now (DataCache.cleanup now cache) = DataCache.cleanup now cache.
Proof.
  assert (Hlookup : forall key,
             DataCache.cleanup now cache !! key
             = match cache !! key with
               | Some e => if DataCache.expiry e <? now then None else Some e
               | None => None
               end).
  { intros key. unfold DataCache.cleanup.
    destruct (cache !! key) as [e |] eqn:He.
    - destruct (Z.ltb_spec (DataCache.expiry e) now) as [Hlt | Hge].
      + apply map_lookup_filter_None. right. intros e' He'. simpl.
        rewrite He in He'. injection He' as <-. lia.
      + apply map_lookup_filter_Some. split; [exact He | simpl; lia].
    - apply map_lookup_filter_None. now left. }
  split; [| split].
  - intros later key Hle. unfold DataCache.get. rewrite Hlookup.
    destruct (cache !! key) as [e |]; [| reflexivity].
    destruct (Z.ltb_spec (DataCache.expiry e) now) as [Hlt | Hge].
    + destruct (Z.ltb_spec (DataCache.expiry e) later); [reflexivity | lia].
    + now destruct (DataCache.expiry e <? later).
  - intros key e. rewrite Hlookup.
    destruct (cache !! key) as [e0 |]; [| discriminate].
    destruct (Z.ltb_spec (DataCache.expiry e0) now); [discriminate |].
    intros [= <-]. now split.
  - apply map_eq. intros key. unfold DataCache.cleanup at 1.
    destruct (DataCache.cleanup now cache !! key) as [e |] eqn:He.
    + apply map_lookup_filter_Some. split; [exact He |].
      rewrite Hlookup in He.
      destruct (cache !! key) as [e0 |]; [| discriminate].
      destruct (Z.ltb_spec (DataCache.expiry e0) now); [discriminate |].
      injection He as <-. simpl. lia.
    + apply map_lookup_filter_None. now left.
Qed.

Lemma cleanup_unobservable_witness :
  (DataCache.get 10 "users"
     (DataCache.cleanup 10 (DataCache.set 0 "users" 7%nat (Some 1) ∅))).1
  = (DataCache.get 10 "users" (DataCache.set 0 "users" 7%nat (Some 1) ∅)).1.
Proof.
  apply (proj1 (cleanup_unobservable 10
                  (DataCache.set 0 "users" 7%nat (Some 1) ∅))).
  lia.
Defined.

(** X13: after [clear(key)] with a non-empty key a [get(key)] returns null
    and every other key keeps its entry; [clear('')], like [clear()], empties
    the whole cache, so that every [get] returns null. *)
Theorem clear_then_get {V : Type} (now : Z) (key : string)
    (cache : gmap string (DataCache.Entry V)) :
  (key <> "" ->
   (DataCache.get now key (DataCache.clear (Some key) cache)).1 = None
   /\ forall other, other <> key ->
        DataCache.clear (Some key) cache !! other = cache !! other)
  /\ (forall any,
        (DataCache.get now any (DataCache.clear (Some "") cache)).1 = None
        /\ (DataCache.get now any (DataCache.clear None cache)).1 = None).
Proof.
  split.
  - intros Hne. apply String.eqb_neq in Hne. unfold DataCache.clear. rewrite Hne.
    split.
    + rewrite get_miss; [reflexivity | apply lookup_delete_eq].
    + intros other Ho. now apply lookup_delete_ne.
  - intros any. split; (rewrite get_miss; [reflexivity | apply lookup_empty]).
Qed.

Lemma clear_then_get_witness :
  (DataCache.get 0 "users"
     (DataCache.clear (Some "users") (DataCache.set 0 "users" 7%nat None ∅))).1
  = None.
Proof.
  assert (Hne : "users" <> "") by discriminate.
  apply (proj1 (proj1 (clear_then_get 0 "users"
                         (DataCache.set 0 "users" 7%nat None ∅)) Hne)).
Defined.

(** ** Login and logout of the script variant *)

Lemma login_enters_state (uid token : string) (outcome : UsersOutcome)
    (st : AppState) :
  app_user (AuthFlow.handleLogin (SigninOk uid token) outcome st).1 = Some uid
  /\ app_accessToken (AuthFlow.handleLogin (SigninOk uid token) outcome st).1
     = Some token
  /\ (outcome = UsersNotOk \/ outcome = UsersFetchFails ->
      app_userProfile (AuthFlow.handleLogin (SigninOk uid token) outcome st).1
      = app_userProfile st).
Proof.
  unfold AuthFlow.handleLogin, AuthFlow.enterWith, AuthFlow.fetchUserProfile.
  destruct outcome; simpl; repeat split; intros [H | H]; discriminate.
Qed.

(** X14: an accepted sign-in, like a session found at start, always leads
    into the main application: the user and the token are stored, no error
    is shown, and the profile found in the users list is taken over as it
    is, whatever its status; the state counts as authenticated when the token
    is not empty. *)
Theorem login_enters (uid token : string) (outcome : UsersOutcome) (st : AppState) :
  let login := AuthFlow.handleLogin (SigninOk uid token) outcome st in
  let restored := AuthFlow.checkExistingSession (HasSession uid token) outcome st in
  app_user login.1 = Some uid
  /\ app_accessToken login.1 = Some token
  /\ In ShowMainApp login.2
  /\ (forall message, ~ In (Logged (ShowError message)) login.2)
  /\ restored.1 = login.1
  /\ In ShowMainApp restored.2
  /\ (token <> "" -> AuthFlow.isAuthenticated login.1 = true)
  /\ (forall all profile,
        outcome = UsersOk all ->
        List.find (fun u => String.eqb (user_id u) uid) all = Some profile ->
        app_userProfile login.1 = Some profile).
Proof.
  unfold AuthFlow.handleLogin, AuthFlow.checkExistingSession, AuthFlow.enterWith,
    AuthFlow.fetchUserProfile, AuthFlow.isAuthenticated.
  destruct outcome as [| | all]; simpl;
    (split; [reflexivity |]); (split; [reflexivity |]);
    (split; [tauto |]);
    (split; [intros m H; repeat (destruct H as [H | H]; [discriminate |]); exact H |]);
    (split; [reflexivity |]); (split; [tauto |]);
    (split; [intros Hne; apply String.eqb_neq in Hne; now rewrite Hne |]);
    intros all' p [=] Hfind; subst; exact Hfind.
Qed.

Lemma login_enters_witness :
  app_userProfile
    (AuthFlow.handleLogin (SigninOk "u-ani" "token") (UsersOk [suspendedAni])
                          signedOut).1
  = Some suspendedAni
  /\ AuthFlow.isAuthenticated
       (AuthFlow.handleLogin (SigninOk "u-ani" "token") (UsersOk [suspendedAni])
                             signedOut).1 = true.
Proof.
  pose proof (login_enters "u-ani" "token" (UsersOk [suspendedAni]) signedOut) as H.
  cbv zeta in H. destruct H as (_ & _ & _ & _ & _ & _ & Hauth & Hprofile).
  split.
  - apply (Hprofile [suspendedAni] suspendedAni); reflexivity.
  - apply Hauth. discriminate.
Defined.



(** X16: logging out after a login gives back the logged-out state, in
    which nothing is authenticated and no permission is granted, provided the
    sign-out call resolves; when it rejects, the state of the login, token
    included, is still there. *)
Theorem login_logout_round_trip (uid token : string) (outcome : UsersOutcome)
    (st : AppState) :
  let loggedIn := (AuthFlow.handleLogin (SigninOk uid token) outcome st).1 in
  (Auth.handleLogout true loggedIn).1 = signedOut
  /\ AuthFlow.isAuthenticated (Auth.handleLogout true loggedIn).1 = false
  /\ (forall requiredRole,
        Utils.hasPermission (Auth.handleLogout true loggedIn).1 requiredRole = false)
  /\ (Auth.handleLogout false loggedIn).1 = loggedIn
  /\ app_accessToken (Auth.handleLogout false loggedIn).1 = Some token.
Proof.
  intros loggedIn. simpl.
  split; [reflexivity |]. split; [reflexivity |]. split; [reflexivity |].
  split; [reflexivity |].
  exact (proj1 (proj2 (login_enters_state uid token outcome st))).
Qed.

(** X17: the profile comes from the users request alone. When that request
    is not ok or fails, the profile of the state before the login is kept,
    whoever it belonged to; when the list lacks the user, the profile is
    undefined. With an undefined profile no permission is granted for any
    role and the users page is refused with the access-denied message,
    whatever page is shown. [fetchUserProfile] calls [updateUserDisplay]
    and [updatePageVisibility] only after an ok answer: when the request is
    not ok or fails it calls neither of them. *)
Theorem login_without_profile (uid token : string) (outcome : UsersOutcome)
    (st : AppState) :
  (outcome = UsersNotOk \/ outcome = UsersFetchFails ->
   app_userProfile (AuthFlow.handleLogin (SigninOk uid token) outcome st).1
   = app_userProfile st
   /\ forall st0,
        ~ In UpdatePageVisibility (AuthFlow.fetchUserProfile outcome st0).2
        /\ ~ In UpdateUserDisplay (AuthFlow.fetchUserProfile outcome st0).2)
  /\ (forall all, outcome = UsersOk all ->
        (forall u, In u all -> user_id u <> uid) ->
        app_userProfile (AuthFlow.handleLogin (SigninOk uid token) outcome st).1
        = None)
  /\ (app_userProfile (AuthFlow.handleLogin (SigninOk uid token) outcome st).1 = None ->
      let st' := (AuthFlow.handleLogin (SigninOk uid token) outcome st).1 in
      (forall requiredRole, Utils.hasPermission st' requiredRole = false)
      /\ forall page,
           Navigation.navigateToPage "users"
             {| nav_app := st'; nav_currentPage := page |}
           = ({| nav_app := st'; nav_currentPage := page |},
              [NavShowError "Access denied. Insufficient permissions."])).
Proof.
  split; [| split].
  - intros Hout. split; [now apply login_enters_state |].
    intros st0. destruct Hout as [-> | ->]; simpl; split; intros H;
      repeat (destruct H as [H | H]; [discriminate |]); exact H.
  - intros all -> Hall.
    unfold AuthFlow.handleLogin, AuthFlow.enterWith, AuthFlow.fetchUserProfile.
    simpl. destruct (List.find _ all) as [p |] eqn:Hfind; [| reflexivity].
    apply find_some in Hfind as [Hin Hid]. apply String.eqb_eq in Hid.
    now destruct (Hall p Hin).
  - intros Hnone st'.
    assert (Hrole : Utils.currentRole st' = None).
    { unfold Utils.currentRole. subst st'. now rewrite Hnone. }
    assert (Hperm : forall r, Utils.hasPermission st' r = false).
    { intros r. unfold Utils.hasPermission. now rewrite Hrole. }
    split; [exact Hperm |].
    intros page. unfold Navigation.navigateToPage. simpl.
    now rewrite Hperm.
Qed.

Lemma login_without_profile_witness :
  Utils.hasPermission
    (AuthFlow.handleLogin (SigninOk "u-ani" "token") UsersNotOk signedOut).1
    "cashier"
  = false
  /\ ~ In UpdatePageVisibility (AuthFlow.fetchUserProfile UsersNotOk signedOut).2.
Proof.
  pose proof (login_without_profile "u-ani" "token" UsersNotOk signedOut)
    as (Hkept & _ & Hnone).
  split.
  - apply (proj1 (Hnone eq_refl)).
  - apply (proj2 (Hkept (or_introl eq_refl)) signedOut).
Defined.

(** ** Reading transactions back *)



(** ** Errors of the analytics fetch *)

Lemma handleFirestoreError_message (e : JSError) (context : string) :
  exists m, m <> "" /\ handleFirestoreError e context = mkError m.
Proof.
  unfold handleFirestoreError.
  repeat match goal with
         | |- context [decide ?P] => destruct (decide P)
         end; eexists; (split; [| reflexivity]); discriminate.
Qed.

Lemma handleFirestoreError_wrap (m context : string) :
  m <> "" ->
  handleFirestoreError (mkError m) context = mkError ("Database error: " +:+ m).
Proof.
  intros Hm. unfold handleFirestoreError. simpl.
  repeat match goal with
         | |- context [decide ?P] => destruct (decide P); [discriminate |]
         end.
  unfold or_string. apply String.eqb_neq in Hm. now rewrite Hm.
Qed.

(** X19: when one of the three reads behind [getSalesAnalytics] is rejected
    the function throws, it does not return figures: the error it throws has
    no code and its message is 'Database error: ' followed by the message that
    the failing [getAll] threw, so that a denied permission on the
    transactions arrives as 'Database error: Permission denied. Please check
    your access rights.'; when all three reads succeed the figures of the
    fetched lists are returned. *)
Theorem getSalesAnalytics_errors (newDate : string -> JSDate)
    (localeCompare : string -> string -> Z)
    (reads_t : list (string * TransactionDoc) + JSError)
    (reads_p : list Product + JSError) (reads_u : list User + JSError)
    (fetched : Result (list Transaction * list Product * list User)) :
  PromiseAll3 (TransactionsReads.getAll reads_t) (ProductsService_getAll reads_p)
              (UsersService_getAll reads_u) fetched ->
  ((exists e, reads_t = inr e) \/ (exists e, reads_p = inr e)
   \/ (exists e, reads_u = inr e) ->
   exists m,
     m <> ""
     /\ fetched = Throws (mkError m)
     /\ getSalesAnalytics_settled newDate localeCompare fetched
        = Throws (mkError ("Database error: " +:+ m)))
  /\ (forall e products users,
        err_code e = Some "permission-denied" ->
        reads_t = inr e -> reads_p = inl products -> reads_u = inl users ->
        getSalesAnalytics_settled newDate localeCompare fetched
        = Throws (mkError
            "Database error: Permission denied. Please check your access rights."))
  /\ (forall docs products users,
        reads_t = inl docs -> reads_p = inl products -> reads_u = inl users ->
        getSalesAnalytics_settled newDate localeCompare fetched
        = Returns (getSalesAnalytics newDate localeCompare
                     (map (fun doc => toTransaction doc.1 doc.2) docs)
                     products users)).
Proof.
  intros Hall.
  assert (Hthrown : forall e, fetched = Throws e -> exists m, m <> "" /\ e = mkError m).
  { intros e ->.
    destruct reads_t as [dt | et], reads_p as [dp | ep], reads_u as [du | eu];
      simpl in Hall; inversion Hall; subst; apply handleFirestoreError_message. }
  split; [| split].
  - intros Hfail.
    assert (Hrej : exists e, fetched = Throws e).
    { inversion Hall; subst; eauto.
      destruct reads_t, reads_p, reads_u; try discriminate.
      destruct Hfail as [[e He] | [[e He] | [e He]]]; discriminate. }
    destruct Hrej as [e ->]. destruct (Hthrown e eq_refl) as (m & Hm & ->).
    exists m. split; [exact Hm |]. split; [reflexivity |].
    simpl. now rewrite handleFirestoreError_wrap.
  - intros e products users Hcode -> -> ->. simpl in Hall.
    inversion Hall; subst. simpl. unfold handleFirestoreError at 2.
    destruct (decide (err_code e = Some "permission-denied")); [| contradiction].
    now rewrite handleFirestoreError_wrap.
  - intros docs products users -> -> ->. simpl in Hall.
    inversion Hall; subst. reflexivity.
Qed.

Lemma getSalesAnalytics_errors_witness :
  getSalesAnalytics_settled isoDate codeUnitCompare
    (Throws (handleFirestoreError
               {| err_code := Some "permission-denied"; err_message := None |}
               "getTransactions"))
  = Throws (mkError
      "Database error: Permission denied. Please check your access rights.").
Proof.
  apply (proj1 (proj2 (getSalesAnalytics_errors isoDate codeUnitCompare
                         (inr {| err_code := Some "permission-denied";
                                 err_message := None |})
                         (inl []) (inl []) _
                         (first_rejected _ _ _)))
           {| err_code := Some "permission-denied"; err_message := None |} [] []);
    reflexivity.
Defined.

(** ** The monthly series and the total *)

Lemma fold_left_total (transactions : list Transaction) (start : float) :
  fold_left (fun sum t => (sum + total t)%float) transactions start
  = fold_left PrimFloat.add (map total transactions) start.
Proof.
  revert start. induction transactions as [| t l IH]; intros start; simpl.
  - reflexivity.
  - apply IH.
Qed.

Lemma firstSeen_same (k : string) (ks : list string) :
  (forall x, In x ks -> x = k) -> firstSeen ks [k] = [k].
Proof.
  induction ks as [| x ks IH]; intros H; [reflexivity |].
  unfold firstSeen in *. simpl.
  rewrite (H x (or_introl eq_refl)), String.eqb_refl. simpl.
  apply IH. intros y Hy. apply H. now right.
Qed.

Lemma firstSeen_constant (k : string) (ks : list string) :
  ks <> [] -> (forall x, In x ks -> x = k) -> firstSeen ks [] = [k].
Proof.
  destruct ks as [| x ks]; intros Hne H; [contradiction |].
  unfold firstSeen. simpl. rewrite (H x (or_introl eq_refl)).
  apply firstSeen_same. intros y Hy. apply H. now right.
Qed.

Lemma filter_all {A : Type} (f : A -> bool) (l : list A) :
  (forall x, In x l -> f x = true) -> List.filter f l = l.
Proof.
  induction l as [| x l IH]; intros H; simpl; [reflexivity |].
  rewrite (H x (or_introl eq_refl)). f_equal. apply IH.
  intros y Hy. apply H. now right.
Qed.

(** X20: the total sales of both variants are the sum that adding the totals
    of all the transactions from left to right gives. When all the
    transactions fall in one calendar month and no sum along the way is NaN,
    the monthly series has a single entry, for that month, and its figure is
    the total sales of the same output; with no transactions the series is
    empty and the total is 0. *)
Theorem salesByMonth_single_month (newDate : string -> JSDate)
    (localeCompare : string -> string -> Z) (transactions : list Transaction)
    (products : list Product) (users : list User) (d : JSDate) :
  let service := getSalesAnalytics newDate localeCompare transactions products users in
  let hook := useAnalytics newDate transactions products users in
  totalSales service = plainSum (map total transactions)
  /\ totalSales hook = totalSales service
  /\ (transactions <> [] ->
      (forall t, In t transactions -> newDate (timestamp t) = d) ->
      (forall n, PrimFloat.is_nan (plainSum (firstn n (map total transactions)))
                 = false) ->
      salesByMonth service
      = [{| month := monthKey d; month_sales := Num (totalSales service) |}]
      /\ salesByMonth hook
         = [{| month := monthKey d; month_sales := Num (totalSales hook) |}])
  /\ (transactions = [] ->
      salesByMonth service = [] /\ salesByMonth hook = []
      /\ totalSales service = 0%float).
Proof.
  intros service hook.
  assert (Htotal : totalSales service = plainSum (map total transactions)).
  { apply fold_left_total. }
  split; [exact Htotal |]. split; [reflexivity |]. split.
  - intros Hne Hmonth Hnan.
    assert (Hseries : salesByMonth hook
                      = [{| month := monthKey d;
                            month_sales := Num (totalSales service) |}]).
    { assert (Hkeys : map month (salesByMonth hook) = [monthKey d]).
      { subst hook. simpl. rewrite hook_months_firstSeen.
        apply firstSeen_constant.
        - destruct transactions; [contradiction | discriminate].
        - intros k Hk. apply in_map_iff in Hk as (t & <- & Ht).
          now rewrite (Hmonth t Ht). }
      destruct (salesByMonth hook) as [| e [| e' l]] eqn:E; try discriminate.
      f_equal.
      assert (He : In e (salesByMonth hook)) by (rewrite E; now left).
      subst hook. simpl in He.
      apply monthly_entries_In in He as (d' & (t & Ht & Hd') & ->).
      rewrite (Hmonth t Ht) in Hd'. subst d'. f_equal. f_equal.
      rewrite Htotal. unfold monthTotal.
      assert (Hall : monthTotals newDate d transactions = map total transactions).
      { unfold monthTotals. f_equal. apply filter_all.
        intros x Hx. apply bool_decide_eq_true. now apply Hmonth. }
      rewrite Hall. now apply runningTotal_plainSum. }
    split; [| exact Hseries].
    change (salesByMonth service)
      with (JS.sort (fun a b => localeCompare (month a) (month b)) (salesByMonth hook)).
    now rewrite Hseries.
  - intros ->. repeat split.
Qed.

Lemma januarySales_one_month (t : Transaction) :
  In t januarySales -> isoDate (timestamp t) = LocalDate 2024 Jan.
Proof.
  intros Ht. simpl in Ht.
  repeat (destruct Ht as [<- | Ht]; [reflexivity |]). destruct Ht.
Qed.

Lemma salesByMonth_single_month_witness :
  salesByMonth (getSalesAnalytics isoDate codeUnitCompare januarySales [] [])
  = [{| month := "2024-01";
        month_sales :=
          Num (totalSales
                 (getSalesAnalytics isoDate codeUnitCompare januarySales [] [])) |}].
Proof.
  apply (proj1 (proj2 (proj2 (salesByMonth_single_month isoDate codeUnitCompare
                                januarySales [] [] (LocalDate 2024 Jan))))).
  - discriminate.
  - apply januarySales_one_month.
  - intros [| [| [| [| n]]]]; reflexivity.
Defined.

(** ** Order of the transactions *)

Lemma inMonth_perm (newDate : string -> JSDate) (d : JSDate)
    (l l' : list Transaction) :
  Permutation l l' -> inMonth newDate d l -> inMonth newDate d l'.
Proof.
  intros H (t & Hin & Hd). exists t. split; [| exact Hd].
  eapply Permutation_in; eassumption.
Qed.

Lemma monthly_keys_In (newDate : string -> JSDate) (l : list Transaction)
    (k : string) :
  In k (map month (map mkMonthSales (Obj.entries (accumulateSalesByMonth newDate l))))
  <-> exists d, inMonth newDate d l /\ k = monthKey d.
Proof.
  rewrite in_map_iff. split.
  - intros (e & <- & He). apply monthly_entries_In in He as (d & Hd & ->). eauto.
  - intros (d & Hd & ->).
    exists {| month := monthKey d; month_sales := Num (monthTotal newDate d l) |}.
    split; [reflexivity |]. apply monthly_entries_In. eauto.
Qed.

Lemma monthly_keys_perm (newDate : string -> JSDate) (l l' : list Transaction) :
  Permutation l l' ->
  Permutation
    (map month (map mkMonthSales (Obj.entries (accumulateSalesByMonth newDate l))))
    (map month (map mkMonthSales (Obj.entries (accumulateSalesByMonth newDate l')))).
Proof.
  intros H. apply NoDup_Permutation.
  - apply monthly_entries_NoDup.
  - apply monthly_entries_NoDup.
  - intros k. rewrite !list_elem_of_In, !monthly_keys_In.
    split; intros (d & Hd & ->); exists d; (split; [| reflexivity]).
    + eapply inMonth_perm; eassumption.
    + symmetry in H. eapply inMonth_perm; eassumption.
Qed.

(** X21: which months the monthly series lists does not depend on the order
    in which the transactions arrive: for two lists with the same
    transactions in any order, the sales-by-month outputs have the same
    month keys, each once, and so the same number of entries, in both
    variants. (The figures of the entries are running totals of doubles and
    are not covered by this.) *)
Theorem salesByMonth_months_order_free (newDate : string -> JSDate)
    (localeCompare : string -> string -> Z) (l l' : list Transaction)
    (products : list Product) (users : list User) :
  Permutation l l' ->
  Permutation (map month (calculateSalesByMonth newDate localeCompare l))
              (map month (calculateSalesByMonth newDate localeCompare l'))
  /\ Permutation (map month (salesByMonth (useAnalytics newDate l products users)))
                 (map month (salesByMonth (useAnalytics newDate l' products users)))
  /\ length (calculateSalesByMonth newDate localeCompare l)
     = length (calculateSalesByMonth newDate localeCompare l')
  /\ length (salesByMonth (useAnalytics newDate l products users))
     = length (salesByMonth (useAnalytics newDate l' products users)).
Proof.
  intros H.
  assert (Hservice :
    Permutation (map month (calculateSalesByMonth newDate localeCompare l))
                (map month (calculateSalesByMonth newDate localeCompare l'))).
  { unfold calculateSalesByMonth. rewrite !sort_perm. now apply monthly_keys_perm. }
  assert (Hhook :
    Permutation (map month (salesByMonth (useAnalytics newDate l products users)))
                (map month (salesByMonth (useAnalytics newDate l' products users)))).
  { simpl. now apply monthly_keys_perm. }
  split; [exact Hservice |]. split; [exact Hhook |]. split.
  - apply Permutation_length in Hservice. now rewrite !length_map in Hservice.
  - apply Permutation_length in Hhook. now rewrite !length_map in Hhook.
Qed.

Lemma salesByMonth_months_order_free_witness :
  Permutation (map month (calculateSalesByMonth isoDate codeUnitCompare halfYear))
              (map month (calculateSalesByMonth isoDate codeUnitCompare (rev halfYear))).
Proof.
  apply (proj1 (salesByMonth_months_order_free isoDate codeUnitCompare halfYear
                  (rev halfYear) [] [] (Permutation_rev halfYear))).
Defined.

(** ** Searching and filtering *)

Lemma includes_empty (s : string) : JS.includes s "" = true.
Proof. destruct s; reflexivity. Qed.

Lemma filter_sublist {A : Type} (f : A -> bool) (l : list A) :
  sublist (List.filter f l) l.
Proof.
  induction l as [| x l IH]; simpl.
  - constructor.
  - destruct (f x); [now apply sublist_skip | now apply sublist_cons].
Qed.

Lemma filter_twice {A : Type} (f : A -> bool) (l : list A) :
  List.filter f (List.filter f l) = List.filter f l.
Proof.
  induction l as [| x l IH]; simpl; [reflexivity |].
  destruct (f x) eqn:E; simpl; [rewrite E; now f_equal | exact IH].
Qed.

Lemma filter_all_true {A : Type} (f : A -> bool) (l : list A) :
  (forall x, f x = true) -> List.filter f l = l.
Proof.
  intros H. induction l as [| x l IH]; simpl; [reflexivity |].
  now rewrite H, IH.
Qed.

(** X22: [filterBySearch] with an empty search term returns the array as it
    is; with a term but no search fields it returns nothing; in every case
    the result keeps the order of the array and adds nothing to it, naming
    more fields never loses an item, and searching the result again with the
    same term and fields changes nothing. *)
Theorem filterBySearch_edges {A : Type} (textAt : A -> string -> option string)
    (toLowerCase : string -> string) (array : list A) (searchTerm : string)
    (searchFields : list string) :
  UtilsRest.filterBySearch textAt toLowerCase array "" searchFields = array
  /\ (searchTerm <> "" ->
      UtilsRest.filterBySearch textAt toLowerCase array searchTerm [] = [])
  /\ sublist (UtilsRest.filterBySearch textAt toLowerCase array searchTerm searchFields)
             array
  /\ (forall moreFields item,
        incl searchFields moreFields ->
        In item (UtilsRest.filterBySearch textAt toLowerCase array searchTerm
                                          searchFields) ->
        In item (UtilsRest.filterBySearch textAt toLowerCase array searchTerm
                                          moreFields))
  /\ UtilsRest.filterBySearch textAt toLowerCase
       (UtilsRest.filterBySearch textAt toLowerCase array searchTerm searchFields)
       searchTerm searchFields
     = UtilsRest.filterBySearch textAt toLowerCase array searchTerm searchFields.
Proof.
  unfold UtilsRest.filterBySearch.
  split; [reflexivity |]. split; [| split; [| split]].
  - intros Hne. apply String.eqb_neq in Hne. rewrite Hne. simpl.
    induction array as [| x l IH]; [reflexivity | exact IH].
  - destruct (String.eqb searchTerm ""); [reflexivity | apply filter_sublist].
  - intros moreFields item Hincl.
    destruct (String.eqb searchTerm ""); [tauto |].
    rewrite !filter_In, !existsb_exists.
    intros [Hin (field & Hfield & Hmatch)]. split; [exact Hin |].
    exists field. split; [now apply Hincl | exact Hmatch].
  - destruct (String.eqb searchTerm ""); [reflexivity | apply filter_twice].
Qed.

Lemma filterBySearch_edges_witness :
  UtilsRest.filterBySearch (fun (u : User) (_ : string) => Some (user_name u))
                           (fun s => s) [ani] "An" []
  = [].
Proof.
  assert (Hne : "An" <> "") by discriminate.
  apply (proj1 (proj2 (filterBySearch_edges
                         (fun (u : User) (_ : string) => Some (user_name u))
                         (fun s => s) [ani] "An" [])) Hne).
Defined.

(** X23: in the user list of the component variant, an empty search with
    both filters on 'all' lists every user; a role filter other than 'all'
    lists only users of that role and a status filter only users of that
    status; the list keeps the order of the users and adds none. *)
Theorem filteredUsers_filters (toLowerCase : string -> string) (all : list User)
    (searchTerm roleFilter statusFilter : string) :
  toLowerCase "" = "" ->
  UserManagement.filteredUsers toLowerCase all "" "all" "all" = all
  /\ (roleFilter <> "all" ->
      forall u, In u (UserManagement.filteredUsers toLowerCase all searchTerm
                                                   roleFilter statusFilter) ->
                user_role u = roleFilter)
  /\ (statusFilter <> "all" ->
      forall u, In u (UserManagement.filteredUsers toLowerCase all searchTerm
                                                   roleFilter statusFilter) ->
                status_name (user_status u) = statusFilter)
  /\ sublist (UserManagement.filteredUsers toLowerCase all searchTerm
                                           roleFilter statusFilter) all.
Proof.
  intros Hlower. unfold UserManagement.filteredUsers.
  split; [| split; [| split]].
  - rewrite Hlower. apply filter_all_true. intros u.
    now rewrite includes_empty.
  - intros Hne u Hin. apply filter_In in Hin as [_ Hmatch].
    apply String.eqb_neq in Hne. rewrite Hne in Hmatch. simpl in Hmatch.
    apply andb_true_iff in Hmatch as [Hmatch _].
    apply andb_true_iff in Hmatch as [_ Hrole]. now apply String.eqb_eq.
  - intros Hne u Hin. apply filter_In in Hin as [_ Hmatch].
    apply String.eqb_neq in Hne. rewrite Hne in Hmatch. simpl in Hmatch.
    apply andb_true_iff in Hmatch as [_ Hstatus]. now apply String.eqb_eq.
  - apply filter_sublist.
Qed.

Lemma filteredUsers_filters_witness :
  UserManagement.filteredUsers (fun s => s) [ani; suspendedAni] "" "all" "all"
  = [ani; suspendedAni].
Proof.
  apply (proj1 (filteredUsers_filters (fun s => s) [ani; suspendedAni] "" "all" "all"
                  eq_refl)).
Defined.

(** ** Queries of the hooks *)

(** X24: every query that [useTransactions] builds asks for the newest
    transactions first; it filters by cashier exactly when a non-empty
    cashier id is given and limits the result exactly when a limit other
    than 0 is given. So [useMyTransactions] without a signed-in user builds
    the query of all transactions, and [useRecentTransactions] limits to 10
    by default and not at all for a limit of 0. *)
Theorem useTransactions_constraints (limitCount : option Z) (cashierId : option string) :
  In (orderBy "timestamp" "desc") (Hooks.useTransactions limitCount cashierId)
  /\ (forall c, In (where_eq "cashierId" c) (Hooks.useTransactions limitCount cashierId)
                <-> cashierId = Some c /\ c <> "")
  /\ (forall n, In (limit n) (Hooks.useTransactions limitCount cashierId)
                <-> limitCount = Some n /\ n <> 0)
  /\ Hooks.useMyTransactions None = Hooks.useTransactions None None
  /\ Hooks.useMyTransactions None = [orderBy "timestamp" "desc"]
  /\ Hooks.useRecentTransactions None = [orderBy "timestamp" "desc"; limit 10]
  /\ Hooks.useRecentTransactions (Some 0) = [orderBy "timestamp" "desc"].
Proof.
  unfold Hooks.useTransactions.
  split; [| split; [| split; [| repeat split]]].
  - destruct cashierId as [c |], limitCount as [n |];
      try destruct (String.eqb c ""); try destruct (n =? 0); simpl; tauto.
  - intros c0. destruct cashierId as [c |].
    + destruct (String.eqb_spec c "") as [-> | Hne];
        destruct limitCount as [n |]; try destruct (n =? 0); simpl;
        split; intros H;
        repeat match goal with
               | H : _ \/ _ |- _ => destruct H as [H | H]
               | H : False |- _ => destruct H
               | H : _ /\ _ |- _ => destruct H
               end; try discriminate;
        try (injection H as ->; split; [reflexivity | assumption]);
        try congruence;
        try (left; congruence).
    + destruct limitCount as [n |]; try destruct (n =? 0); simpl;
        split; intros H;
        repeat match goal with
               | H : _ \/ _ |- _ => destruct H as [H | H]
               | H : False |- _ => destruct H
               | H : _ /\ _ |- _ => destruct H
               end; discriminate.
  - intros n0. destruct limitCount as [n |].
    + destruct (Z.eqb_spec n 0) as [-> | Hne];
        destruct cashierId as [c |]; try destruct (String.eqb c ""); simpl;
        split; intros H;
        repeat match goal with
               | H : _ \/ _ |- _ => destruct H as [H | H]
               | H : False |- _ => destruct H
               | H : _ /\ _ |- _ => destruct H
               end; try discriminate;
        try (injection H as ->; split; [reflexivity | assumption]);
        try congruence;
        try (right; left; congruence); try (right; right; left; congruence).
    + destruct cashierId as [c |]; try destruct (String.eqb c ""); simpl;
        split; intros H;
        repeat match goal with
               | H : _ \/ _ |- _ => destruct H as [H | H]
               | H : False |- _ => destruct H
               | H : _ /\ _ |- _ => destruct H
               end; discriminate.
Qed.

Lemma useTransactions_constraints_witness :
  In (where_eq "cashierId" "u-ani") (Hooks.useTransactions None (Some "u-ani")).
Proof.
  apply (proj1 (proj2 (useTransactions_constraints None (Some "u-ani"))) "u-ani").
  split; [reflexivity | discriminate].
Defined.

(** ** The transaction list *)

Section TransactionListFacts.

Variable toLowerCase : string -> string.
Variable getTime : string -> option Z.
Variable toDateString : option Z -> string.

Lemma matchesDate_week_month (now : Z) (t : Transaction) :
  matchesDate getTime toDateString now "week" t = true ->
  matchesDate getTime toDateString now "month" t = true.
Proof.
  unfold matchesDate, date_ge. simpl.
  destruct (getTime (timestamp t)) as [time |]; [| discriminate].
  rewrite !Z.leb_le. lia.
Qed.

Lemma matchesDate_unknown (now : Z) (dateFilter : string) (t : Transaction) :
  dateFilter <> "today" -> dateFilter <> "week" -> dateFilter <> "month" ->
  matchesDate getTime toDateString now dateFilter t = true.
Proof.
  intros H1 H2 H3. unfold matchesDate.
  apply String.eqb_neq in H1, H2, H3. rewrite H1, H2, H3.
  now destruct (String.eqb dateFilter "all").
Qed.

(** X25: the transaction list is a selection of the transactions given to
    it; every transaction listed for the last week is also listed for the
    last month, the other filters being equal; a date filter that is none of
    'today', 'week' and 'month' hides nothing that 'all' shows; and when
    every timestamp is a valid date the list runs from the newest to the
    oldest transaction. *)
Theorem getFilteredTransactions_dates (all : list User) (now : Z)
    (searchTerm dateFilter cashierFilter paymentFilter : string)
    (transactions : list Transaction) :
  let listed f :=
    getFilteredTransactions toLowerCase getTime toDateString all now searchTerm f
                            cashierFilter paymentFilter transactions in
  (forall t, In t (listed dateFilter) -> In t transactions)
  /\ (forall t, In t (listed "week") -> In t (listed "month"))
  /\ (dateFilter <> "today" -> dateFilter <> "week" -> dateFilter <> "month" ->
      listed dateFilter = listed "all")
  /\ ((forall t, In t transactions -> getTime (timestamp t) <> None) ->
      StronglySorted
        (fun a b => exists ta tb,
             getTime (timestamp a) = Some ta /\ getTime (timestamp b) = Some tb
             /\ ta >= tb)
        (listed dateFilter)).
Proof.
  intros listed. subst listed. unfold getFilteredTransactions.
  split; [| split; [| split]].
  - intros t. rewrite sort_In, filter_In. tauto.
  - intros t. rewrite !sort_In, !filter_In. intros [Hin Hmatch].
    split; [exact Hin |].
    repeat match type of Hmatch with
           | (_ && _) = true => apply andb_true_iff in Hmatch as [Hmatch ?]
           end.
    repeat (apply andb_true_iff; split); try assumption.
    now apply matchesDate_week_month.
  - intros H1 H2 H3. f_equal. apply filter_ext. intros t.
    rewrite (matchesDate_unknown now dateFilter t H1 H2 H3).
    reflexivity.
  - intros Hvalid.
    set (kept := List.filter _ transactions).
    assert (Hkept : forall t, In t kept -> exists time, getTime (timestamp t) = Some time).
    { intros t Hin. apply filter_In in Hin as [Hin _].
      specialize (Hvalid t Hin).
      destruct (getTime (timestamp t)) as [time |]; [eauto | contradiction]. }
    clearbody kept. clear Hvalid.
    induction kept as [| x l IH]; simpl; [constructor |].
    assert (Hl : forall t, In t l -> exists time, getTime (timestamp t) = Some time)
      by (intros t Ht; apply Hkept; now right).
    specialize (IH Hl).
    assert (Hsorted_in : forall t, In t (JS.sort (newestFirst getTime) l) ->
                                   exists time, getTime (timestamp t) = Some time).
    { intros t Ht. apply Hl. now apply sort_In in Ht. }
    destruct (Hkept x (or_introl eq_refl)) as [tx Hx].
    revert IH Hsorted_in. generalize (JS.sort (newestFirst getTime) l).
    intros sorted. induction 1 as [| y s Hs IHs Hy]; intros Hin; simpl.
    + repeat constructor.
    + destruct (Hin y (or_introl eq_refl)) as [ty Hty].
      unfold newestFirst at 1. rewrite Hty, Hx.
      destruct (Z.leb_spec (ty - tx) 0) as [Hle | Hgt].
      * constructor; [constructor; assumption |].
        constructor; [exists tx, ty; repeat split; try assumption; lia |].
        rewrite Forall_forall in Hy |- *. intros z Hz.
        destruct (Hy z Hz) as (ty' & tz & Hty' & Htz & Hge).
        exists tx, tz. repeat split; try assumption.
        rewrite Hty in Hty'. injection Hty' as <-. lia.
      * constructor.
        -- apply IHs. intros t Ht. apply Hin. now right.
        -- rewrite Forall_forall. intros z Hz.
           rewrite sort_insert_perm in Hz.
           apply elem_of_cons in Hz as [-> | Hz].
           ++ exists ty, tx. repeat split; try assumption. lia.
           ++ rewrite Forall_forall in Hy. now apply Hy.
Qed.

End TransactionListFacts.

Lemma getFilteredTransactions_dates_witness :
  getFilteredTransactions (fun s => s) monthClock (fun _ => "") [] 0 "" "yesterday"
                          "all" "all" halfYear
  = getFilteredTransactions (fun s => s) monthClock (fun _ => "") [] 0 "" "all"
                            "all" "all" halfYear.
Proof.
  pose proof (getFilteredTransactions_dates (fun s => s) monthClock (fun _ => "")
                [] 0 "" "yesterday" "all" "all" halfYear) as H.
  cbv zeta in H. destruct H as (_ & _ & H & _).
  apply H; discriminate.
Defined.

(** ** Few products *)

Lemma januarySales_plainNames : plainNames januarySales.
Proof.
  intros i Hi. simpl in Hi.
  repeat (destruct Hi as [<- | Hi]; [reflexivity |]). destruct Hi.
Qed.

(** X26: when no product carries a name that [Object.prototype] has and at
    most five different product names are sold, nothing is cut from the
    top-products list: it has exactly one entry for each name sold, and
    every entry carries the revenue of its name; and with no items sold at
    all the list is empty. *)
Theorem topProducts_complete (transactions : list Transaction) :
  (plainNames transactions ->
   (length (firstSeen (map item_name (flat_map items transactions)) []) <= 5)%nat ->
   length (calculateTopProducts transactions)
   = length (firstSeen (map item_name (flat_map items transactions)) [])
   /\ (forall n, productSold n transactions ->
                 In n (map name (calculateTopProducts transactions)))
   /\ (forall e, In e (calculateTopProducts transactions) ->
                 productSold (name e) transactions
                 /\ sales e = Num (productRevenue (name e) transactions)))
  /\ (flat_map items transactions = [] -> calculateTopProducts transactions = []).
Proof.
  split.
  - intros Hplain Hfew.
    set (table := accumulateProductSales transactions).
    assert (Hkeys : map fst table
                    = firstSeen (map item_name (flat_map items transactions)) []).
    { subst table. rewrite accumulateProductSales_addAllBy, keys_addAllBy.
      rewrite assignable_plain; [reflexivity |].
      intros k Hk. apply in_map_iff in Hk as (i & <- & Hi). now apply Hplain. }
    assert (Hlen : length (JS.sort bySalesDescending
                             (map mkNameSales (Obj.entries table)))
                   = length (firstSeen (map item_name (flat_map items transactions)) [])).
    { rewrite sort_length, length_map, <- Hkeys, length_map.
      apply Permutation_length, ObjFacts.entries_perm. }
    assert (Hin : forall e,
              In e (JS.sort bySalesDescending (map mkNameSales (Obj.entries table)))
              <-> productSold (name e) transactions
                  /\ sales e = Num (productRevenue (name e) transactions)).
    { intros e. rewrite sort_In. subst table. now apply productRows_In. }
    unfold calculateTopProducts, JS.slice0. fold table.
    rewrite firstn_all2 by lia. split; [exact Hlen |]. split.
    + intros n Hn.
      change n with (name {| name := n; sales := Num (productRevenue n transactions) |}).
      apply in_map. apply Hin. simpl. now split.
    + intros e He. now apply Hin.
  - intros Hnone. unfold calculateTopProducts.
    rewrite accumulateProductSales_addAllBy, Hnone. reflexivity.
Qed.

Lemma topProducts_complete_witness :
  length (calculateTopProducts januarySales) = 3%nat
  /\ In "Rojolele" (map name (calculateTopProducts januarySales)).
Proof.
  destruct (proj1 (topProducts_complete januarySales) januarySales_plainNames)
    as (Hlen & Hall & _).
  - simpl. lia.
  - split.
    + etransitivity; [exact Hlen | reflexivity].
    + apply Hall. exists (rice "Rojolele" 1 19.99). split; [| reflexivity].
      simpl. tauto.
Defined.

(** ** Errors of the auth service *)

(** X27: the error that [handleAuthError] throws has no code and a message
    that is not empty; an error without a code keeps its message, so handling
    an error twice gives what handling it once gives. No error leaves
    [AuthService.signIn] with a code. When the auth service refuses the
    credentials with one of the six codes that the provider's [signIn] knows,
    both sign-in paths report the same text, the service by throwing it and
    the provider by returning it, and both leave the session as it was. *)
Theorem handleAuthError_messages (error : JSError) (context : string) :
  err_code (AuthService_handleAuthError error context) = None
  /\ (exists m, err_message (AuthService_handleAuthError error context) = Some m
                /\ m <> "")
  /\ (forall m, m <> "" ->
        AuthService_handleAuthError (mkError m) context = mkError m)
  /\ AuthService_handleAuthError (AuthService_handleAuthError error context) context
     = AuthService_handleAuthError error context
  /\ (forall (env : SignInEnv) (email password : string) (s : Session) thrown,
        (AuthService.signIn env email password s).2 = Throws thrown ->
        err_code thrown = None)
  /\ (forall (env : SignInEnv) (email password : string) (s : Session) code,
        signInWithEmailAndPassword env email password = inr error ->
        err_code error = Some code -> In code signIn_codes ->
        AuthService.signIn env email password s
        = (s, Throws (mkError (AuthProvider.error_message error)))
        /\ AuthProvider.signIn env email password s
           = (s, AuthProvider.SignInError (AuthProvider.error_message error))).
Proof.
  assert (Hkeep : forall m, m <> "" ->
             AuthService_handleAuthError (mkError m) context = mkError m).
  { intros m Hm. unfold AuthService_handleAuthError. simpl.
    repeat match goal with
           | |- context [decide ?P] => destruct (decide P); [discriminate |]
           end.
    unfold or_string. apply String.eqb_neq in Hm. now rewrite Hm. }
  assert (Hmsg : forall e c, exists m, AuthService_handleAuthError e c = mkError m
                                       /\ m <> "").
  { intros e c. unfold AuthService_handleAuthError.
    repeat match goal with
           | |- context [decide ?P] => destruct (decide P)
           end; eexists; (split; [reflexivity |]); try discriminate.
    unfold or_string. destruct (err_message e) as [s |]; [| discriminate].
    destruct (String.eqb_spec s ""); [discriminate | assumption]. }
  destruct (Hmsg error context) as (m & Hm & Hne).
  split; [now rewrite Hm |]. split; [exists m; now rewrite Hm |].
  split; [exact Hkeep |]. split; [rewrite Hm; now apply Hkeep |].
  split.
  - intros env email password s thrown. unfold AuthService.signIn.
    repeat match goal with
           | |- context [match ?x with _ => _ end] => destruct x
           end; simpl; intros [=]; subst;
      match goal with
      | |- err_code (AuthService_handleAuthError ?e ?c) = None =>
          destruct (Hmsg e c) as (m' & -> & _); reflexivity
      end.
  - intros env email password s code Hin Hcode Hknown.
    unfold AuthService.signIn, AuthProvider.signIn. rewrite Hin.
    unfold AuthService_handleAuthError, AuthProvider.error_message. rewrite Hcode.
    simpl in Hknown.
    repeat (destruct Hknown as [<- | Hknown]; [split; reflexivity |]).
    destruct Hknown.
Qed.

Lemma handleAuthError_messages_witness :
  AuthService.signIn wrongPassword "ani@riceshop.com" "guess" noSession
  = (noSession, Throws (mkError "Incorrect password"))
  /\ AuthProvider.signIn wrongPassword "ani@riceshop.com" "guess" noSession
     = (noSession, AuthProvider.SignInError "Incorrect password").
Proof.
  apply (proj2 (proj2 (proj2 (proj2 (proj2
           (handleAuthError_messages
              {| err_code := Some "auth/wrong-password";
                 err_message := Some "Firebase: Error (auth/wrong-password)." |}
              "signIn")))))
           wrongPassword "ani@riceshop.com" "guess" noSession "auth/wrong-password").
  - reflexivity.
  - reflexivity.
  - simpl. tauto.
Defined.
